(** * dist_expl: SAC, DistSAC and the metrics meters

    A shallow embedding of [SAC.py], [DistSAC.py] and [logger.py].

    Conventions of the embedding.
    - Python floats are read as exact numbers: rationals [Q] in the meters
      (only [+], [/] and [max] occur there), reals [R] in the networks
      (which need [tanh], [exp], [log] and [sqrt]).
    - A 2-d tensor is the list of its rows; a [B x 1] column is a list of
      scalars. Shape errors raised inside torch are outside the model.
    - Python exceptions raised by the repository's own statements are values
      of [Exn]. *)

From Stdlib Require Import Reals Lra Lia ZArith QArith Qminmax String List Sorted.
From stdpp Require Import base list.
Import ListNotations.

Set Default Proof Using "Type".

(* ================================================================== *)
(** * Exceptions *)

Inductive Error : Type :=
| UnboundLocalError (name : string)
| AttributeError (attr : string)
| TypeError
| IndexError
| ZeroDivisionError
| AssertionError.

Inductive Exn (A : Type) : Type :=
| Ok (a : A)
| Raise (e : Error).
Arguments Ok {A} a.
Arguments Raise {A} e.

#[export] Instance Exn_ret : MRet Exn := fun A a => Ok a.

#[export] Instance Exn_bind : MBind Exn := fun A B k m =>
  match m with
  | Ok a => k a
  | Raise e => Raise e
  end.

(* ================================================================== *)
(** * logger.py *)

(** Python's [a / b] on numbers: raises on a zero divisor. *)
Definition py_div (a b : Q) : Exn Q :=
  if Qeq_bool b 0 then Raise ZeroDivisionError else Ok (a / b)%Q.

(** [ndarray.sum()]. *)
Definition np_sum (a : list Q) : Q := fold_right Qplus 0%Q a.

Module AverageMeter.

Record t : Type := { sum : Q; count : Z }.

Definition reset (self : t) : t := {| sum := 0; count := 0 |}.

(** [__init__] only calls [reset]. *)
Definition init : t := {| sum := 0; count := 0 |}.

Definition update (self : t) (val : Q) (n : Z) : t :=
  {| sum := (sum self + val)%Q; count := (count self + n)%Z |}.

Definition compute (self : t) : Exn Q :=
  py_div (sum self) (inject_Z (Z.max 1 (count self))).

End AverageMeter.

Module MovingAverageMeter.

Record t : Type :=
  { window_size : nat; vals : list Q; counts : list Q; pointer : nat }.

Definition init (window_size : nat) : t :=
  {| window_size := window_size;
     vals := replicate window_size 0%Q;
     counts := replicate window_size 0%Q;
     pointer := 0 |}.

Definition reset (self : t) : t :=
  {| window_size := window_size self;
     vals := replicate (length (vals self)) 0%Q;
     counts := replicate (length (counts self)) 0%Q;
     pointer := 0 |}.

(** [a[i] = x] on an ndarray, for [i >= 0]: IndexError out of range. *)
Definition setitem (a : list Q) (i : nat) (x : Q) : Exn (list Q) :=
  if (i <? length a)%nat then Ok (<[i := x]> a) else Raise IndexError.

(** Python's [a % b] on non-negative ints. *)
Definition py_mod (a b : nat) : Exn nat :=
  match b with
  | O => Raise ZeroDivisionError
  | _ => Ok (a mod b)%nat
  end.

Definition update (self : t) (val : Q) (n : Z) : Exn t :=
  vals' ← setitem (vals self) (pointer self) val;
  counts' ← setitem (counts self) (pointer self) (inject_Z n);
  pointer' ← py_mod (pointer self + 1) (window_size self);
  Ok {| window_size := window_size self;
        vals := vals'; counts := counts'; pointer := pointer' |}.

(** The divisor is at least 1, so numpy's division is the exact quotient. *)
Definition compute (self : t) : Q :=
  (np_sum (vals self) / Qmax 1 (np_sum (counts self)))%Q.

(** A run of [update] calls, oldest first; stops at the first exception. *)
Fixpoint updates (self : t) (us : list (Q * Z)) : Exn t :=
  match us with
  | [] => Ok self
  | (val, n) :: us' => self' ← update self val n; updates self' us'
  end.

(** The average as the specification words it: the sum of the values over
    the sum of the counts of the updates made so far, with no clamp. *)
Definition spec_average (us : list (Q * Z)) : Q :=
  (np_sum (fst <$> us) / np_sum ((fun u => inject_Z (snd u)) <$> us))%Q.

End MovingAverageMeter.

(* ================================================================== *)
(** * logger.py: the integer meter, the tracker and the loggers *)

Module IntegerMeter.

(** [n] is whatever number the updates add up to. *)
Record t : Type := { n : Q }.

Definition reset (self : t) : t := {| n := 0 |}.

(** [__init__] only calls [reset]. *)
Definition init : t := {| n := 0 |}.

Definition update (self : t) (n' : Q) : t := {| n := (n self + n')%Q |}.

Definition compute (self : t) : Q := n self.

End IntegerMeter.

(** Exceptions of the tracker and the loggers: a missing dictionary key,
    or what the statement at hand raised. *)
Inductive LoggerError : Type :=
| KeyError (key : string)
| Raised (e : Error).

Inductive Result (A : Type) : Type :=
| Return (a : A)
| Throw (e : LoggerError).
Arguments Return {A} a.
Arguments Throw {A} e.

(** An [OrderedDict] with string keys: the items in insertion order.
    Assigning to a key that is present keeps its position. *)
Fixpoint dict_get {V : Type} (d : list (string * V)) (key : string)
  : option V :=
  match d with
  | [] => None
  | (k, v) :: d' => if String.eqb k key then Some v else dict_get d' key
  end.

Fixpoint dict_set {V : Type} (d : list (string * V)) (key : string) (v : V)
  : list (string * V) :=
  match d with
  | [] => [(key, v)]
  | (k, x) :: d' =>
      if String.eqb k key then (k, v) :: d' else (k, x) :: dict_set d' key v
  end.

Module StatsTracker.

(** The three classes of meter a tracker holds. *)
Inductive Meter : Type :=
| Integer (m : IntegerMeter.t)
| Average (m : AverageMeter.t)
| Moving (m : MovingAverageMeter.t).

(** The positional arguments [*args] of [update]: none, one number, a number
    and an int, or more than two. *)
Inductive Args : Type :=
| Args0
| Args1 (a : Q)
| Args2 (a : Q) (n : Z)
| ArgsMore.

(** [meter.reset()] and [meter.update] applied to [*args], on whichever
    class the meter has; [n] defaults to 1, and a call that does not fit
    the signature raises [TypeError]. *)
Definition Meter_reset (m : Meter) : Meter :=
  match m with
  | Integer m => Integer (IntegerMeter.reset m)
  | Average m => Average (AverageMeter.reset m)
  | Moving m => Moving (MovingAverageMeter.reset m)
  end.

Definition Meter_update (m : Meter) (args : Args) : Exn Meter :=
  match m, args with
  | Integer m, Args0 => Ok (Integer (IntegerMeter.update m 1))
  | Integer m, Args1 n => Ok (Integer (IntegerMeter.update m n))
  | Integer _, _ => Raise TypeError
  | Average m, Args1 val => Ok (Average (AverageMeter.update m val 1))
  | Average m, Args2 val n => Ok (Average (AverageMeter.update m val n))
  | Average _, _ => Raise TypeError
  | Moving m, Args1 val =>
      m' ← MovingAverageMeter.update m val 1; Ok (Moving m')
  | Moving m, Args2 val n =>
      m' ← MovingAverageMeter.update m val n; Ok (Moving m')
  | Moving _, _ => Raise TypeError
  end.

Record t : Type := { meters : list (string * Meter) }.

Definition init (window_size : nat) : t :=
  let average := Average AverageMeter.init in
  let moving := Moving (MovingAverageMeter.init window_size) in
  let integer := Integer IntegerMeter.init in
  {| meters :=
       [ ("train_episode_reward", average);
         ("train_episode_timesteps", average);
         ("eval_episode_reward", average);
         ("eval_episode_timesteps", average);
         ("train_loss", average);
         ("valid_loss", average);
         ("train_reward", moving);
         ("dist_train_reward", moving);
         ("train_predicted_reward", moving);
         ("reward_pearsonr", moving);
         ("actor_loss", moving);
         ("critic_loss", moving);
         ("dist_actor_loss", moving);
         ("dist_critic_loss", moving);
         ("policy_loss", moving);
         ("gail_loss", moving);
         ("flow_loss", moving);
         ("pot_loss", moving);
         ("pot_diff", moving);
         ("gail_reward", moving);
         ("pot_coef", average);
         ("expl_bonus", moving);
         ("total_timesteps", integer);
         ("num_target_states", average);
         ("fps", average);
         ("num_episodes", integer);
         ("episode_timesteps", integer);
         ("epoch", integer) ]%string |}.

Definition reset (self : t) (name : option string) : Result t :=
  match name with
  | None =>
      Return {| meters :=
                  map (fun item => (fst item, Meter_reset (snd item)))
                      (meters self) |}
  | Some name =>
      match dict_get (meters self) name with
      | None => Throw (KeyError name)
      | Some m =>
          Return {| meters := dict_set (meters self) name (Meter_reset m) |}
      end
  end.

Definition update (self : t) (name : string) (args : Args) : Result t :=
  match dict_get (meters self) name with
  | None => Throw (KeyError name)
  | Some m =>
      match Meter_update m args with
      | Ok m' => Return {| meters := dict_set (meters self) name m' |}
      | Raise e => Throw (Raised e)
      end
  end.

(** One call on the tracker by a caller that catches what it raises: a
    call that raises leaves the tracker as it was. *)
Inductive Call : Type :=
| call_update (name : string) (args : Args)
| call_reset (name : option string).

Definition attempt (self : t) (c : Call) : t :=
  match (match c with
         | call_update name args => update self name args
         | call_reset name => reset self name
         end) with
  | Return self' => self'
  | Throw _ => self
  end.

End StatsTracker.

Module Logger.
Section Logger.

(** Python's ['%d' % x] and ['%.03f' % x] and [json.dumps] are taken as
    given. *)
Variable percent_d : Q -> string.
Variable percent_03f : Q -> string.
Variable json_dumps : list (string * option string) -> string.

(** [log_file] is the text written through the file object, line by line;
    [open(file_name, 'w')] starts it empty. *)
Record t : Type :=
  { format_type : string;
    keys : list string;
    log_type : option string;
    log_file : option (list string) }.

Definition init (format_type : string) (file_name : option string)
    (keys : list string) : t :=
  {| format_type := format_type;
     keys := keys;
     log_type := None;
     log_file := match file_name with
                 | Some _ => Some []
                 | None => None
                 end |}.

(** [str(meter)]. *)
Definition Meter_str (m : StatsTracker.Meter) : Exn string :=
  match m with
  | StatsTracker.Integer m => Ok (percent_d (IntegerMeter.compute m))
  | StatsTracker.Average m =>
      v ← AverageMeter.compute m; Ok (percent_03f v)
  | StatsTracker.Moving m => Ok (percent_03f (MovingAverageMeter.compute m))
  end.

(** ['%s' % v] for a value that is a string or [None]. *)
Definition py_str (v : option string) : string :=
  match v with
  | Some s => s
  | None => "None"
  end.

Definition _format_json (stats : list (string * option string)) : string :=
  json_dumps stats.

Definition _format_text (stats : list (string * option string)) : string :=
  String.append "| "
    (String.concat " | "
       (map (fun item =>
               String.append (fst item)
                 (String.append ": " (py_str (snd item))))
            stats)).

Definition _format (self : t) (stats : list (string * option string))
  : Exn string :=
  if String.eqb (format_type self) "json" then Ok (_format_json stats)
  else if String.eqb (format_type self) "text" then Ok (_format_text stats)
  else Raise AssertionError.

(** The loop of [dump] that fills [stats]. *)
Fixpoint collect (tracker : StatsTracker.t) (keys : list string)
    (stats : list (string * option string))
  : Result (list (string * option string)) :=
  match keys with
  | [] => Return stats
  | key :: keys' =>
      match dict_get (StatsTracker.meters tracker) key with
      | None => Throw (KeyError key)
      | Some m =>
          match Meter_str m with
          | Ok s => collect tracker keys' (dict_set stats key (Some s))
          | Raise e => Throw (Raised e)
          end
      end
  end.

(** [dump]: the state is the logger with its file and the lines printed on
    standard output so far. *)
Definition dump (self : t) (tracker : StatsTracker.t) (stdout : list string)
  : Result (t * list string) :=
  match collect tracker (keys self) [("type"%string, log_type self)] with
  | Throw e => Throw e
  | Return stats =>
      match _format self stats with
      | Raise e => Throw (Raised e)
      | Ok line =>
          let stdout := stdout ++ [line] in
          match log_file self with
          | None => Return (self, stdout)
          | Some file =>
              match _format self stats with
              | Raise e => Throw (Raised e)
              | Ok line =>
                  Return ({| format_type := format_type self;
                             keys := keys self;
                             log_type := log_type self;
                             log_file := Some (file ++ [line]) |},
                          stdout)
              end
          end
      end
  end.

End Logger.
End Logger.

Module TrainLogger.

Definition default_keys : list string :=
  [ "total_timesteps"; "num_episodes"; "num_target_states"; "fps";
    "episode_timesteps"; "train_episode_reward"; "train_episode_timesteps";
    "train_reward"; "dist_train_reward"; "actor_loss"; "critic_loss";
    "dist_actor_loss"; "dist_critic_loss"; "pot_diff"; "gail_reward";
    "pot_coef"; "train_predicted_reward"; "reward_pearsonr"; "gail_loss";
    "expl_bonus" ]%string.

(** [init_keys or [...]]: [None] and the empty list both give the default
    keys. *)
Definition init (format_type : string) (file_name : option string)
    (init_keys : option (list string)) : Logger.t :=
  let keys := match init_keys with
              | Some (k :: ks) => k :: ks
              | _ => default_keys
              end in
  let self := Logger.init format_type file_name keys in
  {| Logger.format_type := Logger.format_type self;
     Logger.keys := Logger.keys self;
     Logger.log_type := Some "train"%string;
     Logger.log_file := Logger.log_file self |}.

End TrainLogger.

Module EvalLogger.

Definition default_keys : list string :=
  [ "total_timesteps"; "num_episodes"; "num_target_states"; "fps";
    "episode_timesteps"; "eval_episode_reward";
    "eval_episode_timesteps" ]%string.

Definition init (format_type : string) (file_name : option string)
    (init_keys : option (list string)) : Logger.t :=
  let keys := match init_keys with
              | Some (k :: ks) => k :: ks
              | _ => default_keys
              end in
  let self := Logger.init format_type file_name keys in
  {| Logger.format_type := Logger.format_type self;
     Logger.keys := Logger.keys self;
     Logger.log_type := Some "eval"%string;
     Logger.log_file := Logger.log_file self |}.

End EvalLogger.

(* ================================================================== *)
(** * Tensors and the torch primitives the sources call

    A 2-d tensor is the list of its rows, so a [B x 1] column is a list of
    one-element rows. Every operation below is the exact-real reading of the
    torch call named in its comment. *)

Section tensors.
Local Open Scope R_scope.

(** [t.sum()] of a 1-d tensor. *)
Definition vsum (v : list R) : R := fold_right Rplus 0 v.

(** [t.sum(-1, keepdim=True)]. *)
Definition sum_keepdim (t : list (list R)) : list (list R) :=
  map (fun row => [vsum row]) t.

(** [t.sum()] and [t.mean()] over all elements of a 2-d tensor. *)
Definition tsum (t : list (list R)) : R := vsum (concat t).
Definition tmean (t : list (list R)) : R :=
  tsum t / INR (length (concat t)).

(** [t.mean(dim=1, keepdim=True)]. *)
Definition mean_keepdim (t : list (list R)) : list (list R) :=
  map (fun row => [vsum row / INR (length row)]) t.

(** Pointwise application, [f(t)]. *)
Definition tmap (f : R -> R) (t : list (list R)) : list (list R) :=
  map (map f) t.

(** Broadcasting of the last dimension: a row of size 1 is expanded. *)
Definition bcast (f : R -> R -> R) (a b : list R) : list R :=
  match a, b with
  | [x], _ => map (f x) b
  | _, [y] => map (fun x => f x y) a
  | _, _ => zip_with f a b
  end.

(** A binary pointwise operation on two tensors with the same number of
    rows. *)
Definition tzip (f : R -> R -> R) (a b : list (list R)) : list (list R) :=
  zip_with (bcast f) a b.

(** [torch.cat([a, b], dim=1)]. *)
Definition cat1 (a b : list (list R)) : list (list R) :=
  zip_with (fun x y => x ++ y) a b.

(** [F.relu]. *)
Definition relu (x : R) : R := Rmax 0 x.

(** [t.norm(dim=-1, keepdim=True)] and [t.norm()]. *)
Definition norm_keepdim (t : list (list R)) : list (list R) :=
  map (fun row => [sqrt (vsum (map (fun x => x ^ 2) row))]) t.
Definition tnorm (t : list (list R)) : R :=
  sqrt (vsum (map (fun x => x ^ 2) (concat t))).

(** [F.mse_loss(input, target)]: the mean of the squared differences. *)
Definition mse_loss (input target : list (list R)) : R :=
  tmean (tzip (fun x y => (x - y) ^ 2) input target).

(** The truth value of [a < b]. *)
Definition Rltb (a b : R) : bool := if Rlt_dec a b then true else false.

(** [(t > c).float()] and [(t < c).float()]. *)
Definition gt_float (c : R) (x : R) : R := if Rlt_dec c x then 1 else 0.
Definition lt_float (c : R) (x : R) : R := if Rlt_dec x c then 1 else 0.

(** [numpy_array.view(-1, 1)] of a batch of scalars. *)
Definition view_col (v : list R) : list (list R) := map (fun x => [x]) v.

(** [t.chunk(2, dim=-1)] on one row: the first chunk has
    [ceil(n / 2)] entries. *)
Definition chunk2 (row : list R) : list R * list R :=
  let h := Nat.div2 (S (length row)) in (take h row, drop h row).

(** [torch.randn_like(t)] and [torch.rand(B, 1)] draw from an external
    generator. A draw is given by its value at each position, so the result
    always has the shape of [t]. *)
Definition randn_like (noise : nat -> nat -> R) (t : list (list R))
  : list (list R) :=
  imap (fun i row => imap (fun j _ => noise i j) row) t.

Definition rand_col (noise : nat -> R) (B : nat) : list (list R) :=
  map (fun i => [noise i]) (seq 0 B).

(** [nn.Linear]: [y = x W^T + b], row by row. *)
Record Linear : Type := { weight : list (list R); bias : list R }.

Definition dot (a b : list R) : R := vsum (zip_with Rmult a b).

Definition Linear_forward (l : Linear) (x : list (list R)) : list (list R) :=
  map (fun row => zip_with (fun w b => dot row w + b) (weight l) (bias l)) x.

(** Passing [None] where torch expects a tensor. *)
Definition tensor_arg {A : Type} (o : option A) : Exn A :=
  match o with
  | Some a => Ok a
  | None => Raise TypeError
  end.

(** The value of a computation that cannot raise, for use under autograd. *)
Definition value_or {A : Type} (d : A) (m : Exn A) : A :=
  match m with
  | Ok a => a
  | Raise _ => d
  end.

End tensors.

(** What the sources take from torch without defining it: reverse-mode
    differentiation and the Adam optimizer. [backward loss p] is the gradient
    of the scalar function [loss] at the parameters [p] (each [backward()] in
    the sources follows a [zero_grad()] on the parameters that are stepped);
    [Adam_step] maps the optimizer state, the parameters and their gradient
    to the new state and parameters. *)
Class Torch : Type :=
  { Adam : Type -> Type;
    Adam_init : forall P : Type, P -> R -> Adam P;
    Adam_step : forall P : Type, Adam P -> P -> P -> Adam P * P;
    backward : forall P : Type, (P -> R) -> P -> P }.
Arguments Adam_init {_ P} _ _.
Arguments Adam_step {_ P} _ _ _.
Arguments backward {_ P} _ _.

(** The metrics collector [L] is external; its contract is
    [log(key, value, step, n=1)]. A collector is modelled by the list of the
    calls it received, oldest first. *)
Record LogCall : Type :=
  { log_key : string; log_value : R; log_step : Z; log_n : Z }.

Definition L_log (L : list LogCall) (key : string) (value : R) (step n : Z)
  : list LogCall :=
  L ++ [{| log_key := key; log_value := value; log_step := step; log_n := n |}].

(** A procedure that mutates an object of type [S] and may raise: the
    state reached so far is kept when it raises. *)
Definition Proc (S A : Type) : Type := S -> S * Exn A.

#[export] Instance Proc_ret {S : Type} : MRet (Proc S) :=
  fun A a s => (s, Ok a).

#[export] Instance Proc_bind {S : Type} : MBind (Proc S) :=
  fun A B k m s =>
    match m s with
    | (s', Ok a) => k a s'
    | (s', Raise e) => (s', Raise e)
    end.

Definition lift {S A : Type} (m : Exn A) : Proc S A := fun s => (s, m).
Definition get {S : Type} : Proc S S := fun s => (s, Ok s).
Definition modify {S : Type} (f : S -> S) : Proc S unit :=
  fun s => (f s, Ok tt).

(** Python's [a % b] on ints; [Z.modulo] has Python's sign convention. *)
Definition py_modZ (a b : Z) : Exn Z :=
  if (b =? 0)%Z then Raise ZeroDivisionError else Ok (a mod b)%Z.

(** [t.size(0)] and [t.size(-1)]. *)
Definition size0 {A : Type} (t : list A) : Z := Z.of_nat (length t).
Definition size_last (t : list (list R)) : nat :=
  match t with
  | [] => 0
  | row :: _ => length row
  end.

(** The object passed as [dist_policy]: anything with a [get_distance]. *)
Record DistPolicy : Type :=
  { get_distance_method :
      list (list R) -> list (list (list R)) ->
      Exn (list (list R) * list (list nat)) }.

(** Modelled from the spec: [utils.soft_update_params], whose module is not
    among the sources. Section 4.3: [target_param = tau*online_param +
    (1-tau)*target_param], elementwise, for every critic parameter tensor. *)
Definition soft_update_tensor (tau : R) (param target_param : list (list R))
  : list (list R) :=
  zip_with (zip_with (fun p t => tau * p + (1 - tau) * t)%R)
           param target_param.

Definition soft_update_Linear (tau : R) (l target_l : Linear) : Linear :=
  {| weight := soft_update_tensor tau (weight l) (weight target_l);
     bias := zip_with (fun p t => tau * p + (1 - tau) * t)%R
                      (bias l) (bias target_l) |}.

(* ================================================================== *)
(** * SAC.py *)

Module SAC.

Section module_functions.
Local Open Scope R_scope.

Definition gaussian_likelihood (noise log_std : list (list R))
  : list (list R) :=
  let pre_sum := tzip Rminus (tmap (fun n => (-0.5) * n ^ 2) noise) log_std in
  tmap (fun s => s - 0.5 * ln (2 * PI) * INR (size_last noise))
       (sum_keepdim pre_sum).

(** [pi is None] with [log_pi] given fails on [pi.pow]. [tanh] is the exact
    function, with values strictly inside (-1, 1); in float32 [torch.tanh]
    rounds to -1 or 1 for large arguments, the case the [relu] and the
    [1e-6] are there for. *)
Definition apply_squashing_func
    (mu : list (list R)) (pi : option (list (list R)))
    (log_pi : option (list (list R)))
  : Exn (list (list R) * option (list (list R)) * option (list (list R))) :=
  let mu := tmap tanh mu in
  let pi := match pi with
            | Some p => Some (tmap tanh p)
            | None => None
            end in
  log_pi ← match log_pi with
           | Some lp =>
               match pi with
               | Some p =>
                   Ok (Some (tzip Rminus lp
                     (sum_keepdim
                        (tmap (fun a => ln (relu (1 - a ^ 2) + 1e-6)) p))))
               | None => Raise (AttributeError "pow")
               end
           | None => Ok None
           end;
  Ok (mu, pi, log_pi).

End module_functions.

Module Actor.
Section Actor.
Local Open Scope R_scope.

Record t : Type :=
  { log_std_min : R; log_std_max : R; l1 : Linear; l2 : Linear; l3 : Linear }.

(** Lines 50-56 of [forward]: the raw mean and the rescaled [log_std]. *)
Definition heads (self : t) (x : list (list R))
  : list (list R) * list (list R) :=
  let x := tmap relu (Linear_forward (l1 self) x) in
  let x := tmap relu (Linear_forward (l2 self) x) in
  let out := Linear_forward (l3 self) x in
  let mu := map (fun row => fst (chunk2 row)) out in
  let log_std := map (fun row => snd (chunk2 row)) out in
  let log_std := tmap tanh log_std in
  let log_std :=
    tmap (fun l => log_std_min self
                   + 0.5 * (log_std_max self - log_std_min self) * (l + 1))
         log_std in
  (mu, log_std).

(** The local [noise] is bound only inside [if compute_pi]; it is an
    [option] that is [None] while the name is unbound. *)
Definition forward (self : t) (randn : nat -> nat -> R) (x : list (list R))
    (compute_pi compute_log_pi : bool)
  : Exn (list (list R) * option (list (list R)) * option (list (list R))) :=
  let '(mu, log_std) := heads self x in
  let '(noise, pi) :=
    if compute_pi then
      let std := tmap exp log_std in
      let noise := randn_like randn mu in
      (Some noise, Some (tzip Rplus mu (tzip Rmult noise std)))
    else (None, None) in
  log_pi ← (if compute_log_pi then
              match noise with
              | Some noise => Ok (Some (gaussian_likelihood noise log_std))
              | None => Raise (UnboundLocalError "noise")
              end
            else Ok None);
  apply_squashing_func mu pi log_pi.

End Actor.
End Actor.

Module Critic.
Section Critic.
Local Open Scope R_scope.

Record t : Type :=
  { l1 : Linear; l2 : Linear; l3 : Linear;
    l4 : Linear; l5 : Linear; l6 : Linear }.

Definition forward (self : t) (x u : list (list R))
  : list (list R) * list (list R) :=
  let xu := cat1 x u in
  let x1 := tmap relu (Linear_forward (l1 self) xu) in
  let x1 := tmap relu (Linear_forward (l2 self) x1) in
  let x1 := Linear_forward (l3 self) x1 in
  let x2 := tmap relu (Linear_forward (l4 self) xu) in
  let x2 := tmap relu (Linear_forward (l5 self) x2) in
  let x2 := Linear_forward (l6 self) x2 in
  (x1, x2).

Definition soft_update_params (net target_net : t) (tau : R) : t :=
  {| l1 := soft_update_Linear tau (l1 net) (l1 target_net);
     l2 := soft_update_Linear tau (l2 net) (l2 target_net);
     l3 := soft_update_Linear tau (l3 net) (l3 target_net);
     l4 := soft_update_Linear tau (l4 net) (l4 target_net);
     l5 := soft_update_Linear tau (l5 net) (l5 target_net);
     l6 := soft_update_Linear tau (l6 net) (l6 target_net) |}.

End Critic.
End Critic.

(** ** class SAC *)

Section SAC_class.
Context `{Torch}.
Local Open Scope R_scope.

Record t : Type :=
  { actor : Actor.t;
    actor_optimizer : Adam Actor.t;
    critic : Critic.t;
    critic_target : Critic.t;
    critic_optimizer : Adam Critic.t;
    log_alpha : R;
    log_alpha_optimizer : Adam R }.

(** [replay_buffer.sample(batch_size)]:
    [(state, action, reward, next_state, done)]. *)
Record Batch : Type :=
  { b_state : list (list R);
    b_action : list (list R);
    b_reward : list R;
    b_next_state : list (list R);
    b_done : list R }.

Record ReplayBuffer : Type := { sample : Z -> Batch }.

(** The two [torch.randn_like] draws of one [train] call, in call order. *)
Record Draws : Type :=
  { critic_noise : nat -> nat -> R; actor_noise : nat -> nat -> R }.

(** [__init__]. The freshly initialised networks are inputs;
    [critic_target.load_state_dict(critic.state_dict())] replaces every
    parameter of the target by the critic's. [log_alpha] is
    [np.log(initial_temperature)], read for a positive temperature: at 0
    numpy gives minus infinity, which no real number stands for, and [ln]
    is 0 there. *)
Definition load_state_dict (self state_dict : Critic.t) : Critic.t :=
  state_dict.

Definition init (actor0 : Actor.t) (critic0 critic_target0 : Critic.t)
    (initial_temperature lr : R) : t :=
  {| actor := actor0;
     actor_optimizer := Adam_init actor0 lr;
     critic := critic0;
     critic_target := load_state_dict critic_target0 critic0;
     critic_optimizer := Adam_init critic0 lr;
     log_alpha := ln initial_temperature;
     log_alpha_optimizer := Adam_init (ln initial_temperature) lr |}.

Definition alpha (self : t) : R := exp (log_alpha self).

(** [load]: the two state dicts read from disk are inputs. *)
Definition load (self : t) (actor_sd : Actor.t) (critic_sd : Critic.t) : t :=
  {| actor := actor_sd;
     actor_optimizer := actor_optimizer self;
     critic := critic_sd;
     critic_target := critic_target self;
     critic_optimizer := critic_optimizer self;
     log_alpha := log_alpha self;
     log_alpha_optimizer := log_alpha_optimizer self |}.

(** [select_action] and [sample_action]: [state.reshape(1, -1)] makes a
    batch of one row and [flatten()] undoes it; [ctx] is not used. No noise
    is drawn when [compute_pi] is [False]. *)
Definition select_action {C : Type} (self : t) (state : list R) (ctx : C)
  : Exn (list R) :=
  '(mu, _, _) ← Actor.forward (actor self) (fun _ _ => 0) [state] false false;
  Ok (concat mu).

Definition sample_action {C : Type} (self : t) (randn : nat -> nat -> R)
    (state : list R) (ctx : C) : Exn (list R) :=
  '(_, pi, _) ← Actor.forward (actor self) randn [state] true false;
  match pi with
  | Some pi => Ok (concat pi)
  | None => Raise (AttributeError "cpu")
  end.

(** Attribute updates made by the optimizer steps and the soft update. *)
Definition step_critic (g : Critic.t) (self : t) : t :=
  let '(opt, c) := Adam_step (critic_optimizer self) (critic self) g in
  {| actor := actor self;
     actor_optimizer := actor_optimizer self;
     critic := c;
     critic_target := critic_target self;
     critic_optimizer := opt;
     log_alpha := log_alpha self;
     log_alpha_optimizer := log_alpha_optimizer self |}.

Definition step_actor (g : Actor.t) (self : t) : t :=
  let '(opt, a) := Adam_step (actor_optimizer self) (actor self) g in
  {| actor := a;
     actor_optimizer := opt;
     critic := critic self;
     critic_target := critic_target self;
     critic_optimizer := critic_optimizer self;
     log_alpha := log_alpha self;
     log_alpha_optimizer := log_alpha_optimizer self |}.

Definition step_log_alpha (g : R) (self : t) : t :=
  let '(opt, la) := Adam_step (log_alpha_optimizer self) (log_alpha self) g in
  {| actor := actor self;
     actor_optimizer := actor_optimizer self;
     critic := critic self;
     critic_target := critic_target self;
     critic_optimizer := critic_optimizer self;
     log_alpha := la;
     log_alpha_optimizer := opt |}.

Definition soft_update_target (tau : R) (self : t) : t :=
  {| actor := actor self;
     actor_optimizer := actor_optimizer self;
     critic := critic self;
     critic_target :=
       Critic.soft_update_params (critic self) (critic_target self) tau;
     critic_optimizer := critic_optimizer self;
     log_alpha := log_alpha self;
     log_alpha_optimizer := log_alpha_optimizer self |}.

(** [L.log(key, value, step, n)] on the collector carried next to [self]. *)
Definition log (key : string) (value : R) (step n : Z)
  : Proc (t * list LogCall) unit :=
  modify (fun s => (fst s, L_log (snd s) key value step n)).

Definition update_self (f : t -> t) : Proc (t * list LogCall) unit :=
  modify (fun s => (f (fst s), snd s)).

(** The stochastic sample [_, pi, log_pi = self.actor(x)]. *)
Definition sample_policy (a : Actor.t) (randn : nat -> nat -> R)
    (x : list (list R)) : Exn (list (list R) * list (list R)) :=
  '(_, pi, log_pi) ← Actor.forward a randn x true true;
  pi ← tensor_arg pi;
  log_pi ← tensor_arg log_pi;
  Ok (pi, log_pi).

(** The nested function [fit_critic] of [train]; its free variables are
    parameters. [done] is the tensor built from [1 - done]. *)
Definition target_Q_of (self : t) (randn : nat -> nat -> R)
    (reward done next_state : list (list R)) (discount : R)
  : Exn (list (list R)) :=
  '(policy_action, log_pi) ← sample_policy (actor self) randn next_state;
  let '(target_Q1, target_Q2) :=
    Critic.forward (critic_target self) next_state policy_action in
  let target_V :=
    tzip Rminus (tzip Rmin target_Q1 target_Q2)
         (tmap (fun l => alpha self * l) log_pi) in
  Ok (tzip Rplus reward
           (tzip Rmult (tmap (fun d => d * discount) done) target_V)).

Definition critic_loss_of (state action target_Q : list (list R))
    (c : Critic.t) : R :=
  let '(current_Q1, current_Q2) := Critic.forward c state action in
  mse_loss current_Q1 target_Q + mse_loss current_Q2 target_Q.

Definition fit_critic (randn : nat -> nat -> R)
    (state action reward done next_state : list (list R))
    (discount : R) (step : Z) : Proc (t * list LogCall) unit :=
  '(self, _) ← get;
  target_Q ← lift (target_Q_of self randn reward done next_state discount);
  let current_Q1 := fst (Critic.forward (critic self) state action) in
  let critic_loss := critic_loss_of state action target_Q in
  log "train/critic_loss" (critic_loss (critic self) * IZR (size0 current_Q1))
      step (size0 current_Q1);;
  update_self (step_critic (backward critic_loss (critic self))).

(** The nested function [fit_actor] of [train]. *)
Definition actor_loss_of (self : t) (randn : nat -> nat -> R)
    (state : list (list R)) (a : Actor.t) : Exn R :=
  '(pi, log_pi) ← sample_policy a randn state;
  let '(actor_Q1, actor_Q2) := Critic.forward (critic self) state pi in
  let actor_Q := tzip Rmin actor_Q1 actor_Q2 in
  Ok (tmean (tzip Rminus (tmap (fun l => alpha self * l) log_pi) actor_Q)).

Definition alpha_loss_of (log_pi : list (list R)) (target_entropy : R)
    (la : R) : R :=
  tmean (tmap (fun l => exp la * (- l - target_entropy)) log_pi).

Definition fit_actor (randn : nat -> nat -> R) (state : list (list R))
    (step : Z) (target_entropy : option R) : Proc (t * list LogCall) unit :=
  '(self, _) ← get;
  '(_, log_pi) ← lift (sample_policy (actor self) randn state);
  actor_loss ← lift (actor_loss_of self randn state (actor self));
  log "train/actor_loss" (actor_loss * IZR (size0 state)) step (size0 state);;
  update_self
    (step_actor
       (backward (fun a => value_or 0 (actor_loss_of self randn state a))
                 (actor self)));;
  match target_entropy with
  | Some target_entropy =>
      update_self
        (step_log_alpha
           (backward (alpha_loss_of log_pi target_entropy) (log_alpha self)))
  | None => mret tt
  end.

(** What [fit_actor] leaves behind: the actor step, then the temperature
    step when [target_entropy] is given. *)
Definition after_fit_actor (randn : nat -> nat -> R) (state : list (list R))
    (target_entropy : option R) (log_pi : list (list R)) (self : t) : t :=
  let self1 :=
    step_actor
      (backward (fun a => value_or 0 (actor_loss_of self randn state a))
                (actor self))
      self in
  match target_entropy with
  | Some e =>
      step_log_alpha (backward (alpha_loss_of log_pi e) (log_alpha self))
                     self1
  | None => self1
  end.

Definition train (replay_buffer : ReplayBuffer) (step : Z)
    (dist_policy : DistPolicy) (draws : Draws)
    (batch_size : Z) (discount tau : R) (policy_freq : Z)
    (target_entropy : option R) (expl_coef dist_threshold : R)
  : Proc (t * list LogCall) unit :=
  let b := sample replay_buffer batch_size in
  let state := b_state b in
  let action := b_action b in
  let reward := view_col (b_reward b) in
  let next_state := b_next_state b in
  let done := view_col (map (fun d => 1 - d) (b_done b)) in
  reward ← (if Rlt_dec 0 expl_coef then
              let ctx := map (fun row => [map (fun _ => 0) row]) state in
              '(dist, _) ← lift (get_distance_method dist_policy state ctx);
              let expl_bonus := tmap (fun d => d * expl_coef) dist in
              log "train/expl_bonus" (tsum expl_bonus) step
                  (size0 expl_bonus);;
              mret (tzip Rplus reward expl_bonus)
            else mret reward);
  (* positional call: the third argument is [reward.size(0)], the fourth
     is [step] *)
  log "train/batch_reward" (tsum reward) (size0 reward) step;;
  fit_critic (critic_noise draws) state action reward done next_state
             discount step;;
  r ← lift (py_modZ step policy_freq);
  if (r =? 0)%Z then
    fit_actor (actor_noise draws) state step target_entropy;;
    update_self (soft_update_target tau)
  else mret tt.

End SAC_class.

End SAC.

(* ================================================================== *)
(** * DistSAC.py *)

(** [x.topk(k, largest=False)] on one row: the [k] smallest values in
    ascending order with their positions. torch leaves the order of equal
    values open; this model keeps the earlier position first. [k] never
    exceeds the row length at the call site. *)
Fixpoint insert_by_value (p : R * nat) (l : list (R * nat))
  : list (R * nat) :=
  match l with
  | [] => [p]
  | q :: l' =>
      if Rle_dec (fst p) (fst q) then p :: q :: l'
      else q :: insert_by_value p l'
  end.

Definition sort_by_value (l : list (R * nat)) : list (R * nat) :=
  fold_right insert_by_value [] l.

(** The order [topk] sorts by: the values, whatever the positions. *)
Definition value_le (p q : R * nat) : Prop := (fst p <= fst q)%R.

Definition topk_smallest (k : nat) (row : list R) : list R * list nat :=
  let best := take k (sort_by_value (imap (fun i v => (v, i)) row)) in
  (map fst best, map snd best).

(** [t.view(rows, cols)] of a tensor given by its elements in row-major
    order. *)
Definition view2 (rows cols : nat) (flat : list R) : list (list R) :=
  map (fun b => take cols (drop (b * cols) flat)) (seq 0 rows).

(** An [assert] statement. *)
Definition py_assert (cond : bool) : Exn unit :=
  if cond then Ok tt else Raise AssertionError.

Module DistSAC.

(** [gaussian_likelihood] and [apply_squashing_func] are repeated verbatim
    from SAC.py. *)
Definition gaussian_likelihood := SAC.gaussian_likelihood.
Definition apply_squashing_func := SAC.apply_squashing_func.

Module Actor.
Section Actor.
Local Open Scope R_scope.

Record t : Type :=
  { only_pos : bool;
    log_std_min : R; log_std_max : R;
    l1 : Linear; l2 : Linear; l3 : Linear }.

(** Lines 52-61 of [forward]. *)
Definition heads (self : t) (x x_g : list (list R))
  : list (list R) * list (list R) :=
  let x_g := if only_pos self then map (take 2) x_g else x_g in
  let x := cat1 x x_g in
  let x := tmap relu (Linear_forward (l1 self) x) in
  let x := tmap relu (Linear_forward (l2 self) x) in
  let out := Linear_forward (l3 self) x in
  let mu := map (fun row => fst (chunk2 row)) out in
  let log_std := map (fun row => snd (chunk2 row)) out in
  let log_std := tmap tanh log_std in
  let log_std :=
    tmap (fun l => log_std_min self
                   + 0.5 * (log_std_max self - log_std_min self) * (l + 1))
         log_std in
  (mu, log_std).

Definition forward (self : t) (randn : nat -> nat -> R)
    (x x_g : list (list R)) (compute_pi compute_log_pi : bool)
  : Exn (list (list R) * option (list (list R)) * option (list (list R))) :=
  let '(mu, log_std) := heads self x x_g in
  let '(noise, pi) :=
    if compute_pi then
      let std := tmap exp log_std in
      let noise := randn_like randn mu in
      (Some noise, Some (tzip Rplus mu (tzip Rmult noise std)))
    else (None, None) in
  log_pi ← (if compute_log_pi then
              match noise with
              | Some noise => Ok (Some (gaussian_likelihood noise log_std))
              | None => Raise (UnboundLocalError "noise")
              end
            else Ok None);
  apply_squashing_func mu pi log_pi.

End Actor.
End Actor.

Module Critic.
Section Critic.
Local Open Scope R_scope.

Record t : Type :=
  { only_pos : bool;
    l1 : Linear; l2 : Linear; l3 : Linear;
    l4 : Linear; l5 : Linear; l6 : Linear }.

Definition forward (self : t) (x x_g u : list (list R))
  : list (list R) * list (list R) :=
  let x_g := if only_pos self then map (take 2) x_g else x_g in
  let xu := cat1 (cat1 x x_g) u in
  let x1 := tmap relu (Linear_forward (l1 self) xu) in
  let x1 := tmap relu (Linear_forward (l2 self) x1) in
  let x1 := Linear_forward (l3 self) x1 in
  let x2 := tmap relu (Linear_forward (l4 self) xu) in
  let x2 := tmap relu (Linear_forward (l5 self) x2) in
  let x2 := Linear_forward (l6 self) x2 in
  (x1, x2).

Definition soft_update_params (net target_net : t) (tau : R) : t :=
  {| only_pos := only_pos target_net;
     l1 := soft_update_Linear tau (l1 net) (l1 target_net);
     l2 := soft_update_Linear tau (l2 net) (l2 target_net);
     l3 := soft_update_Linear tau (l3 net) (l3 target_net);
     l4 := soft_update_Linear tau (l4 net) (l4 target_net);
     l5 := soft_update_Linear tau (l5 net) (l5 target_net);
     l6 := soft_update_Linear tau (l6 net) (l6 target_net) |}.

End Critic.
End Critic.

(** ** class DistSAC *)

Section DistSAC_class.
Context `{Torch}.
Local Open Scope R_scope.

(** [num_candidates] is a natural number: torch rejects a negative [k]. *)
Record t : Type :=
  { num_candidates : nat;
    actor : Actor.t;
    actor_optimizer : Adam Actor.t;
    critic : Critic.t;
    critic_target : Critic.t;
    critic_optimizer : Adam Critic.t;
    log_alpha : R;
    log_alpha_optimizer : Adam R;
    use_l2 : bool }.

Definition alpha (self : t) : R := exp (log_alpha self).

(** The sizes read by [batch_size, num_goals, state_dim =
    repeated_ctx.size()]. *)
Definition num_goals_of (repeated_ctx : list (list (list R))) : nat :=
  match repeated_ctx with
  | [] => 0
  | goals :: _ => length goals
  end.

(** Per-candidate distances, a [batch_size x num_goals] tensor. *)
Definition distances (self : t) (state : list (list R))
    (repeated_ctx : list (list (list R))) : Exn (list (list R)) :=
  let batch_size := length repeated_ctx in
  let num_goals := num_goals_of repeated_ctx in
  let repeated_state := map (fun s => replicate num_goals s) state in
  if use_l2 self then
    let diff :=
      zip_with
        (zip_with (fun s g => zip_with Rminus (take 2 s) (take 2 g)))
        repeated_state repeated_ctx in
    Ok (map (map (fun d => sqrt (vsum (map (fun v => v ^ 2) d)))) diff)
  else
    let repeated_state := concat repeated_state in
    let repeated_ctx := concat repeated_ctx in
    '(repeated_action, _, _) ←
      Actor.forward (actor self) (fun _ _ => 0) repeated_state repeated_ctx
                    false false;
    let '(q1, q2) :=
      Critic.forward (critic self) repeated_state repeated_ctx
                     repeated_action in
    let dist := tmap Ropp (tzip Rmin q1 q2) in
    Ok (view2 batch_size num_goals (concat dist)).

Definition get_distance (self : t) (state : list (list R))
    (repeated_ctx : list (list (list R)))
  : Exn (list (list R) * list (list nat)) :=
  dist ← distances self state repeated_ctx;
  let num_candidates :=
    Nat.min (num_candidates self) (num_goals_of repeated_ctx) in
  let top := map (topk_smallest num_candidates) dist in
  let dist := map fst top in
  let idxs := map snd top in
  let dist := mean_keepdim dist in
  Ok (dist, idxs).

(** [get_distance_numpy]: one state and its candidate goals, each given a
    leading batch dimension of size 1 by [unsqueeze(0)]. *)
Definition get_distance_numpy (self : t) (state : list R)
    (ctx : list (list R)) : Exn (list (list R) * list (list nat)) :=
  get_distance self [state] [ctx].

(** [replay_buffer.sample(batch_size, with_goal=True)]: seven components,
    of which [train] keeps the first, second, fourth and sixth. *)
Record GoalBatch : Type :=
  { g_state : list (list R);
    g_action : list (list R);
    g_reward : list R;
    g_next_state : list (list R);
    g_done : list R;
    g_goals : list (list R);
    g_extra : list (list R) }.

Record ReplayBuffer : Type := { sample : Z -> GoalBatch }.

(** The random draws of one [train] call, in call order: [randperm],
    [rand] and the two [randn_like]. *)
Record Draws : Type :=
  { perm_draw : list nat;
    mask_draw : nat -> R;
    critic_noise : nat -> nat -> R;
    actor_noise : nat -> nat -> R }.

(** Lines 201-210 of [train]: the goal relabeling. *)
Definition same_goal_mask_of (mask_noise : list (list R)) : list (list R) :=
  tmap (gt_float 0.9) mask_noise.

Definition traj_goal_mask_of (same_goal_mask : list (list R))
  : list (list R) :=
  tmap (fun m => 1 - m) same_goal_mask.

Definition relabel (state goals same_goal_mask traj_goal_mask
                      : list (list R)) : list (list R) :=
  tzip Rplus (tzip Rmult state same_goal_mask)
             (tzip Rmult goals traj_goal_mask).

Definition done_of (state goals : list (list R)) : list (list R) :=
  tmap (lt_float 1e-5) (norm_keepdim (tzip Rminus state goals)).

Definition reward_of (done : list (list R)) : list (list R) :=
  tmap (fun d => - (1 - d)) done.

Definition step_critic (g : Critic.t) (self : t) : t :=
  let '(opt, c) := Adam_step (critic_optimizer self) (critic self) g in
  {| num_candidates := num_candidates self;
     actor := actor self;
     actor_optimizer := actor_optimizer self;
     critic := c;
     critic_target := critic_target self;
     critic_optimizer := opt;
     log_alpha := log_alpha self;
     log_alpha_optimizer := log_alpha_optimizer self;
     use_l2 := use_l2 self |}.

Definition step_actor (g : Actor.t) (self : t) : t :=
  let '(opt, a) := Adam_step (actor_optimizer self) (actor self) g in
  {| num_candidates := num_candidates self;
     actor := a;
     actor_optimizer := opt;
     critic := critic self;
     critic_target := critic_target self;
     critic_optimizer := critic_optimizer self;
     log_alpha := log_alpha self;
     log_alpha_optimizer := log_alpha_optimizer self;
     use_l2 := use_l2 self |}.

Definition step_log_alpha (g : R) (self : t) : t :=
  let '(opt, la) := Adam_step (log_alpha_optimizer self) (log_alpha self) g in
  {| num_candidates := num_candidates self;
     actor := actor self;
     actor_optimizer := actor_optimizer self;
     critic := critic self;
     critic_target := critic_target self;
     critic_optimizer := critic_optimizer self;
     log_alpha := la;
     log_alpha_optimizer := opt;
     use_l2 := use_l2 self |}.

Definition soft_update_target (tau : R) (self : t) : t :=
  {| num_candidates := num_candidates self;
     actor := actor self;
     actor_optimizer := actor_optimizer self;
     critic := critic self;
     critic_target :=
       Critic.soft_update_params (critic self) (critic_target self) tau;
     critic_optimizer := critic_optimizer self;
     log_alpha := log_alpha self;
     log_alpha_optimizer := log_alpha_optimizer self;
     use_l2 := use_l2 self |}.

Definition log (key : string) (value : R) (step n : Z)
  : Proc (t * list LogCall) unit :=
  modify (fun s => (fst s, L_log (snd s) key value step n)).

Definition update_self (f : t -> t) : Proc (t * list LogCall) unit :=
  modify (fun s => (f (fst s), snd s)).

Definition sample_policy (a : Actor.t) (randn : nat -> nat -> R)
    (x x_g : list (list R)) : Exn (list (list R) * list (list R)) :=
  '(_, pi, log_pi) ← Actor.forward a randn x x_g true true;
  pi ← tensor_arg pi;
  log_pi ← tensor_arg log_pi;
  Ok (pi, log_pi).

Definition target_Q_of (self : t) (randn : nat -> nat -> R)
    (reward done next_state goals : list (list R)) (discount : R)
  : Exn (list (list R)) :=
  '(policy_action, log_pi) ←
    sample_policy (actor self) randn next_state goals;
  let '(target_Q1, target_Q2) :=
    Critic.forward (critic_target self) next_state goals policy_action in
  let target_V :=
    tzip Rminus (tzip Rmin target_Q1 target_Q2)
         (tmap (fun l => alpha self * l) log_pi) in
  Ok (tzip Rplus reward
           (tzip Rmult (tmap (fun d => (1 - d) * discount) done) target_V)).

Definition critic_loss_of (state goals action target_Q : list (list R))
    (c : Critic.t) : R :=
  let '(current_Q1, current_Q2) := Critic.forward c state goals action in
  mse_loss current_Q1 target_Q + mse_loss current_Q2 target_Q.

Definition fit_critic (randn : nat -> nat -> R)
    (state goals action reward done next_state : list (list R))
    (discount : R) (step : Z) : Proc (t * list LogCall) unit :=
  '(self, _) ← get;
  target_Q ←
    lift (target_Q_of self randn reward done next_state goals discount);
  let current_Q1 := fst (Critic.forward (critic self) state goals action) in
  let critic_loss := critic_loss_of state goals action target_Q in
  log "train/dist_critic_loss"
      (critic_loss (critic self) * IZR (size0 current_Q1))
      step (size0 current_Q1);;
  update_self (step_critic (backward critic_loss (critic self))).

Definition actor_loss_of (self : t) (randn : nat -> nat -> R)
    (state goals : list (list R)) (a : Actor.t) : Exn R :=
  '(pi, log_pi) ← sample_policy a randn state goals;
  let '(actor_Q1, actor_Q2) := Critic.forward (critic self) state goals pi in
  let actor_Q := tzip Rmin actor_Q1 actor_Q2 in
  Ok (tmean (tzip Rminus (tmap (fun l => alpha self * l) log_pi) actor_Q)).

Definition alpha_loss_of (log_pi : list (list R)) (target_entropy : R)
    (la : R) : R :=
  tmean (tmap (fun l => exp la * (- l - target_entropy)) log_pi).

Definition fit_actor (randn : nat -> nat -> R) (state goals : list (list R))
    (step : Z) (target_entropy : option R) : Proc (t * list LogCall) unit :=
  '(self, _) ← get;
  '(_, log_pi) ← lift (sample_policy (actor self) randn state goals);
  actor_loss ← lift (actor_loss_of self randn state goals (actor self));
  log "train/dist_actor_loss" (actor_loss * IZR (size0 state))
      step (size0 state);;
  update_self
    (step_actor
       (backward
          (fun a => value_or 0 (actor_loss_of self randn state goals a))
          (actor self)));;
  match target_entropy with
  | Some target_entropy =>
      update_self
        (step_log_alpha
           (backward (alpha_loss_of log_pi target_entropy) (log_alpha self)))
  | None => mret tt
  end.

(** What [fit_actor] leaves behind: the actor step, then the temperature
    step when [target_entropy] is given. *)
Definition after_fit_actor (randn : nat -> nat -> R)
    (state goals : list (list R)) (target_entropy : option R)
    (log_pi : list (list R)) (self : t) : t :=
  let self1 :=
    step_actor
      (backward
         (fun a => value_or 0 (actor_loss_of self randn state goals a))
         (actor self))
      self in
  match target_entropy with
  | Some e =>
      step_log_alpha (backward (alpha_loss_of log_pi e) (log_alpha self))
                     self1
  | None => self1
  end.

Definition train (replay_buffer : ReplayBuffer) (step : Z) (draws : Draws)
    (batch_size : Z) (discount tau : R) (policy_freq : Z)
    (target_entropy : option R) : Proc (t * list LogCall) unit :=
  let b := sample replay_buffer batch_size in
  let state := g_state b in
  let action := g_action b in
  let next_state := g_next_state b in
  let goals := g_goals b in
  let perm := perm_draw draws in
  let mask_noise := rand_col (mask_draw draws) (length state) in
  let same_goal_mask := same_goal_mask_of mask_noise in
  let traj_goal_mask := traj_goal_mask_of same_goal_mask in
  lift (py_assert
          (Rltb (tnorm (tmap (fun m => m - 1.0)
                             (tzip Rplus same_goal_mask traj_goal_mask)))
                1e-3));;
  lift (py_assert
          (Rltb (tnorm (tzip Rmult same_goal_mask traj_goal_mask)) 1e-3));;
  let goals := relabel state goals same_goal_mask traj_goal_mask in
  let done := done_of state goals in
  let reward := reward_of done in
  log "train/dist_batch_reward" (tsum reward) step (size0 reward);;
  fit_critic (critic_noise draws) state goals action reward done next_state
             discount step;;
  r ← lift (py_modZ step policy_freq);
  if (r =? 0)%Z then
    fit_actor (actor_noise draws) state goals step target_entropy;;
    update_self (soft_update_target tau)
  else mret tt.

(** A DistSAC agent seen as the [dist_policy] argument of [SAC.train]. *)
Definition as_dist_policy (self : t) : DistPolicy :=
  {| get_distance_method := get_distance self |}.

End DistSAC_class.

End DistSAC.

(* ================================================================== *)
(** * The formulas of the specification *)

Section spec_formulas.
Local Open Scope R_scope.

(** Section 4.1, [log_prob] of one row: [sum(-0.5*noise^2 - log_std) -
    0.5*D*log(2*pi)] minus [sum(log(1 - tanh(pre_squash)^2 + 1e-6))]. *)
Definition spec_log_prob (D : nat) (noise log_std pre_squash : list R) : R :=
  vsum (zip_with (fun n l => -0.5 * n ^ 2 - l) noise log_std)
  - 0.5 * INR D * ln (2 * PI)
  - vsum (map (fun u => ln (1 - tanh u ^ 2 + 1e-6)) pre_squash).



End spec_formulas.

(* ================================================================== *)
(** * Small concrete instances, used in the closed examples *)

Section examples.
Local Open Scope R_scope.

(** An autograd that returns the parameters as their gradient and an
    optimizer that leaves them unchanged. *)
Definition inert_torch : Torch :=
  {| Adam := fun _ => unit;
     Adam_init := fun _ _ _ => tt;
     Adam_step := fun _ _ p _ => (tt, p);
     backward := fun _ _ p => p |}.

Definition unit_Linear (outputs : nat) : Linear :=
  {| weight := replicate outputs [1]; bias := replicate outputs 0 |}.

(** One state coordinate, one action coordinate. *)
Definition example_actor : SAC.Actor.t :=
  {| SAC.Actor.log_std_min := -20;
     SAC.Actor.log_std_max := 2;
     SAC.Actor.l1 := unit_Linear 1;
     SAC.Actor.l2 := unit_Linear 1;
     SAC.Actor.l3 := unit_Linear 2 |}.

Definition example_critic : SAC.Critic.t :=
  {| SAC.Critic.l1 := unit_Linear 1;
     SAC.Critic.l2 := unit_Linear 1;
     SAC.Critic.l3 := unit_Linear 1;
     SAC.Critic.l4 := unit_Linear 1;
     SAC.Critic.l5 := unit_Linear 1;
     SAC.Critic.l6 := unit_Linear 1 |}.

Definition example_agent : @SAC.t inert_torch :=
  @SAC.init inert_torch example_actor example_critic example_critic 1 0.001.

(** Two transitions with one state and one action coordinate. *)
Definition example_batch : SAC.Batch :=
  {| SAC.b_state := [[0]; [1]];
     SAC.b_action := [[0]; [0]];
     SAC.b_reward := [1; 2];
     SAC.b_next_state := [[1]; [1]];
     SAC.b_done := [0; 1] |}.

Definition example_buffer : SAC.ReplayBuffer :=
  {| SAC.sample := fun _ => example_batch |}.

Definition example_draws : SAC.Draws :=
  {| SAC.critic_noise := fun _ _ => 0; SAC.actor_noise := fun _ _ => 0 |}.

(** A [dist_policy] whose [get_distance] is never reached when
    [expl_coef = 0]. *)
Definition example_dist_policy : DistPolicy :=
  {| get_distance_method := fun _ _ => Ok ([], []) |}.

(** A DistSAC agent on a two-coordinate state space with one action
    coordinate, with constant weights. *)
Definition const_Linear (inputs outputs : nat) : Linear :=
  {| weight := replicate outputs (replicate inputs 1);
     bias := replicate outputs 0 |}.

Definition example_dist_actor : DistSAC.Actor.t :=
  {| DistSAC.Actor.only_pos := false;
     DistSAC.Actor.log_std_min := -20;
     DistSAC.Actor.log_std_max := 2;
     DistSAC.Actor.l1 := const_Linear 4 1;
     DistSAC.Actor.l2 := const_Linear 1 1;
     DistSAC.Actor.l3 := const_Linear 1 2 |}.

Definition example_dist_critic : DistSAC.Critic.t :=
  {| DistSAC.Critic.only_pos := false;
     DistSAC.Critic.l1 := const_Linear 5 1;
     DistSAC.Critic.l2 := const_Linear 1 1;
     DistSAC.Critic.l3 := const_Linear 1 1;
     DistSAC.Critic.l4 := const_Linear 5 1;
     DistSAC.Critic.l5 := const_Linear 1 1;
     DistSAC.Critic.l6 := const_Linear 1 1 |}.

Definition example_dist_agent (use_l2 : bool) : @DistSAC.t inert_torch :=
  @DistSAC.Build_t inert_torch 1 example_dist_actor tt example_dist_critic
    example_dist_critic tt 0 tt use_l2.

(** Two transitions; the buffer's own reward and done columns are
    parameters. *)
Definition example_goal_batch (reward done : list R) : DistSAC.GoalBatch :=
  {| DistSAC.g_state := [[0; 0]; [1; 0]];
     DistSAC.g_action := [[0]; [0]];
     DistSAC.g_reward := reward;
     DistSAC.g_next_state := [[1; 0]; [1; 0]];
     DistSAC.g_done := done;
     DistSAC.g_goals := [[1; 0]; [1; 1]];
     DistSAC.g_extra := [] |}.

Definition example_goal_buffer (reward done : list R)
  : DistSAC.ReplayBuffer :=
  {| DistSAC.sample := fun _ => example_goal_batch reward done |}.

(** Mask noise exactly 0.9 for the first row and 0.95 for the others. *)
Definition example_dist_draws : DistSAC.Draws :=
  {| DistSAC.perm_draw := [1%nat; 0%nat];
     DistSAC.mask_draw := fun i => match i with O => 0.9 | _ => 0.95 end;
     DistSAC.critic_noise := fun _ _ => 0;
     DistSAC.actor_noise := fun _ _ => 0 |}.

(** A [dist_policy] that reports the distances 3 and 4. *)
Definition example_bonus_policy : DistPolicy :=
  {| get_distance_method :=
       fun _ _ => Ok ([[3]; [4]], [[0%nat]; [0%nat]]) |}.

End examples.

(* ================================================================== *)
(** * Theorems *)

Section logger_facts.
Import MovingAverageMeter.
Local Open Scope Q_scope.

Lemma np_sum_replicate_0 (n : nat) : np_sum (replicate n 0) == 0.
Proof.
  induction n as [|n IH]; simpl; [reflexivity|].
  rewrite IH. reflexivity.
Qed.

Lemma np_sum_app (a b : list Q) : np_sum (a ++ b) == np_sum a + np_sum b.
Proof.
  induction a as [|x a IH]; simpl.
  - symmetry. apply Qplus_0_l.
  - rewrite IH. apply Qplus_assoc.
Qed.

Lemma mod_window_distinct (w k n : nat) :
  (0 < w)%nat -> (k < n)%nat -> (n < k + w)%nat ->
  (k mod w)%nat <> (n mod w)%nat.
Proof.
  intros Hw Hkn Hn E.
  pose proof (Nat.div_mod_eq k w) as Hk.
  pose proof (Nat.div_mod_eq n w) as Hn'.
  rewrite E in Hk.
  assert (n - k = w * (n / w - k / w))%nat as Hd by nia.
  destruct (n / w - k / w)%nat as [|d] eqn:Ed; nia.
Qed.

Lemma updates_snoc (m : t) (us : list (Q * Z)) (val : Q) (n : Z) :
  updates m (us ++ [(val, n)]) = (m' ← updates m us; update m' val n).
Proof.
  revert m. induction us as [|[v c] us IH]; intros m; simpl.
  - destruct (update m val n); reflexivity.
  - destruct (update m v c) as [m1|e]; simpl; [apply IH | reflexivity].
Qed.

(** What the buffer holds after the updates [us], in a window of [w] slots:
    update number [k] sits in slot [k mod w] as long as it is one of the
    last [w]; slots never written are zero. *)
Record tracks (w : nat) (us : list (Q * Z)) (m : t) : Prop :=
  { tr_window : window_size m = w;
    tr_vals_len : length (vals m) = w;
    tr_counts_len : length (counts m) = w;
    tr_pointer : pointer m = (length us mod w)%nat;
    tr_recent : forall k u, us !! k = Some u -> (length us <= k + w)%nat ->
      vals m !! (k mod w)%nat = Some (fst u) /\
      counts m !! (k mod w)%nat = Some (inject_Z (snd u));
    tr_blank : forall i, (length us <= i)%nat -> (i < w)%nat ->
      vals m !! i = Some 0 /\ counts m !! i = Some 0 }.

Lemma update_ok (w : nat) (m : t) (val : Q) (n : Z) :
  (0 < w)%nat -> window_size m = w -> length (vals m) = w ->
  length (counts m) = w -> (pointer m < w)%nat ->
  update m val n =
    Ok {| window_size := w;
          vals := <[pointer m := val]> (vals m);
          counts := <[pointer m := inject_Z n]> (counts m);
          pointer := ((pointer m + 1) mod w)%nat |}.
Proof.
  intros Hw Hws Hv Hc Hp. unfold update, setitem.
  rewrite Hv, Hc, Hws.
  destruct (Nat.ltb_spec (pointer m) w) as [_|]; [|lia].
  simpl. destruct w; [lia|]. reflexivity.
Qed.

Lemma updates_tracks (w : nat) (us : list (Q * Z)) :
  (0 < w)%nat -> exists m, updates (init w) us = Ok m /\ tracks w us m.
Proof.
  intros Hw. induction us as [|[val n] us IH] using rev_ind.
  - exists (init w). split; [reflexivity|].
    split; simpl; try (rewrite ?length_replicate; reflexivity).
    + symmetry. apply Nat.Div0.mod_0_l.
    + intros k u Hk. discriminate.
    + intros i _ Hi. rewrite !lookup_replicate_2 by assumption. auto.
  - destruct IH as (m & Hm & T). destruct T as [Tw Tv Tc Tp Tr Tb].
    assert (pointer m < w)%nat as Hp
      by (rewrite Tp; apply Nat.mod_upper_bound; lia).
    eexists. split.
    + rewrite updates_snoc, Hm. simpl. apply (update_ok w); assumption.
    + assert (length (us ++ [(val, n)]) = S (length us)) as Hlen
        by (rewrite length_app; simpl; lia).
      split; simpl; rewrite ?length_insert, ?Hlen; try assumption; try reflexivity.
      * rewrite Tp. rewrite Nat.Div0.add_mod_idemp_l. f_equal. lia.
      * intros k u Hk Hle.
        destruct (decide (k = length us)) as [->|Hne].
        -- rewrite lookup_app_r in Hk by lia.
           rewrite Nat.sub_diag in Hk. simpl in Hk. injection Hk as <-.
           rewrite Tp. rewrite !list_lookup_insert_eq by lia. auto.
        -- assert (k < length us)%nat as Hlt.
           { apply lookup_lt_Some in Hk. rewrite Hlen in Hk. lia. }
           rewrite lookup_app_l in Hk by assumption.
           assert (pointer m <> (k mod w)%nat) as Hd.
           { rewrite Tp. intros E. symmetry in E. revert E.
             apply mod_window_distinct; lia. }
           rewrite !list_lookup_insert_ne by assumption.
           apply Tr; [assumption | lia].
      * intros i Hi Hiw.
        assert (length us < w)%nat as Hlw by lia.
        assert (pointer m <> i) as Hd.
        { rewrite Tp, Nat.mod_small by assumption. lia. }
        rewrite !list_lookup_insert_ne by assumption.
        apply Tb; lia.
Qed.

Lemma tracks_short (w : nat) (us : list (Q * Z)) (m : t) :
  tracks w us m -> (length us <= w)%nat ->
  vals m = (fst <$> us) ++ replicate (w - length us) 0 /\
  counts m = ((fun u => inject_Z (snd u)) <$> us)
               ++ replicate (w - length us) 0.
Proof.
  intros [Tw Tv Tc Tp Tr Tb] Hle.
  split; apply list_eq; intros i.
  all: destruct (decide (i < length us)%nat) as [Hi|Hi].
  all: try (rewrite lookup_app_l by (rewrite length_fmap; assumption);
            destruct (lookup_lt_is_Some_2 us i Hi) as [u Hu];
            rewrite list_lookup_fmap, Hu; simpl;
            destruct (Tr i u Hu) as [E1 E2]; [lia|];
            rewrite Nat.mod_small in E1, E2 by lia; assumption).
  all: rewrite lookup_app_r by (rewrite length_fmap; lia).
  all: rewrite length_fmap.
  all: destruct (decide (i < w)%nat) as [Hiw|Hiw].
  all: try (rewrite lookup_replicate_2 by lia; apply Tb; lia).
  all: rewrite lookup_ge_None_2 by lia.
  all: rewrite lookup_ge_None_2 by (rewrite length_replicate; lia).
  all: reflexivity.
Qed.

Lemma compute_short (w : nat) (us : list (Q * Z)) (m : t) :
  tracks w us m -> (length us <= w)%nat ->
  compute m == np_sum (fst <$> us)
               / Qmax 1 (np_sum ((fun u => inject_Z (snd u)) <$> us)).
Proof.
  intros T Hle. destruct (tracks_short w us m T Hle) as [Ev Ec].
  unfold compute. rewrite Ev, Ec, !np_sum_app, !np_sum_replicate_0.
  rewrite !Qplus_0_r. reflexivity.
Qed.

(** C8 (amended): from a fresh meter with a window of [w > 0] slots every
    run of updates succeeds. While fewer than [w] updates were made the
    buffer is the updates followed by zero slots, and [compute] is the sum
    of the values over [max(1, sum of the counts)], which is the sum of the
    values over the sum of the counts as soon as the counts sum to at least
    1. Once [w] or more updates were made, the slot under the pointer holds
    the oldest retained update, and the next update overwrites exactly that
    slot. *)
Theorem moving_average_window (w : nat) (us : list (Q * Z)) :
  (0 < w)%nat ->
  exists m,
    updates (init w) us = Ok m /\
    ((length us < w)%nat ->
       vals m = (fst <$> us) ++ replicate (w - length us) 0 /\
       counts m = ((fun u => inject_Z (snd u)) <$> us)
                    ++ replicate (w - length us) 0 /\
       compute m == np_sum (fst <$> us)
                    / Qmax 1 (np_sum ((fun u => inject_Z (snd u)) <$> us)) /\
       (1 <= np_sum ((fun u => inject_Z (snd u)) <$> us) ->
        compute m == spec_average us)) /\
    ((w <= length us)%nat ->
       (exists u, us !! (length us - w)%nat = Some u /\
                  vals m !! pointer m = Some (fst u) /\
                  counts m !! pointer m = Some (inject_Z (snd u))) /\
       (forall k u, us !! k = Some u -> (length us <= k + w)%nat ->
                    vals m !! (k mod w)%nat = Some (fst u) /\
                    counts m !! (k mod w)%nat = Some (inject_Z (snd u)))) /\
    (forall val n,
       update m val n =
         Ok {| window_size := w;
               vals := <[pointer m := val]> (vals m);
               counts := <[pointer m := inject_Z n]> (counts m);
               pointer := ((pointer m + 1) mod w)%nat |}).
Proof.
  intros Hw. destruct (updates_tracks w us Hw) as (m & Hm & T).
  exists m. split; [exact Hm|]. split; [|split].
  - intros Hlt.
    destruct (tracks_short w us m T) as [Ev Ec]; [lia|].
    pose proof (compute_short w us m T ltac:(lia)) as Hc.
    repeat split; try assumption.
    intros H1. rewrite Hc. unfold spec_average.
    rewrite Q.max_r by assumption. reflexivity.
  - intros Hge. destruct T as [Tw Tv Tc Tp Tr Tb]. split; [|exact Tr].
    destruct (lookup_lt_is_Some_2 us (length us - w)%nat) as [u Hu]; [lia|].
    exists u. split; [exact Hu|].
    destruct (Tr _ u Hu) as [E1 E2]; [lia|].
    assert ((length us - w) mod w = length us mod w)%nat as Em.
    { replace (length us) with ((length us - w) + 1 * w)%nat at 2 by lia.
      rewrite Nat.Div0.mod_add. reflexivity. }
    rewrite Em, <- Tp in E1, E2. auto.
  - intros val n. destruct T as [Tw Tv Tc Tp Tr Tb].
    apply update_ok; try assumption.
    rewrite Tp. apply Nat.mod_upper_bound. lia.
Qed.

(** The specification's example: a window of 4 and the updates 2 and 4,
    each with count 1, give 3 (that is 6/2) and not 6/4. *)
Lemma moving_average_window_witness :
  (0 < 4)%nat /\
  exists m, updates (init 4) [(2, 1%Z); (4, 1%Z)] = Ok m /\
            compute m == 3 /\ ~ compute m == 6 / 4.
Proof.
  split; [lia|].
  destruct (moving_average_window 4 [(2, 1%Z); (4, 1%Z)]) as (m & Hm & Hs & _);
    [lia|].
  exists m. split; [exact Hm|].
  destruct Hs as (_ & _ & _ & Hc); [simpl; lia|].
  assert (compute m == 3) as E.
  { rewrite Hc; [reflexivity | vm_compute; discriminate]. }
  split; [exact E|]. rewrite E. vm_compute. discriminate.
Defined.

(** C8 as stated fails when the counts sum to less than 1: after the single
    update [update(5, n=0)] in a window of 4 the code returns [5 / max(1., 0)
    = 5], while the sum of the counts is 0 and the unclamped quotient is not
    5. *)
Lemma moving_average_unclamped_counterexample :
  exists m, updates (init 4) [(5, 0%Z)] = Ok m /\
            compute m == 5 /\
            np_sum (counts m) == 0 /\
            ~ compute m == spec_average [(5, 0%Z)].
Proof.
  eexists. split; [reflexivity|].
  repeat split; try (vm_compute; reflexivity).
  vm_compute. discriminate.
Qed.

(** C10: [compute] never divides by zero. The divisor is clamped to at least
    1 in both meters, [AverageMeter.compute] returns on every meter, and on a
    freshly constructed or just-reset meter both return 0. *)
Theorem compute_empty_meter_total :
  (forall a, (1 <= Z.max 1 (AverageMeter.count a))%Z) /\
  (forall a, AverageMeter.compute a
             = Ok (AverageMeter.sum a
                   / inject_Z (Z.max 1 (AverageMeter.count a)))) /\
  AverageMeter.compute AverageMeter.init = Ok 0 /\
  (forall a, AverageMeter.compute (AverageMeter.reset a) = Ok 0) /\
  (forall m, 1 <= Qmax 1 (np_sum (counts m))) /\
  (forall w, compute (init w) == 0) /\
  (forall m, compute (reset m) == 0).
Proof.
  repeat split.
  - intros a. lia.
  - intros a. unfold AverageMeter.compute, py_div.
    destruct (Qeq_bool _ 0) eqn:E; [|reflexivity].
    apply Qeq_bool_eq in E. unfold Qeq in E. simpl in E. lia.
  - intros m. apply Q.le_max_l.
  - intros w. unfold compute, init. simpl.
    rewrite !np_sum_replicate_0. reflexivity.
  - intros m. unfold compute, reset. simpl.
    rewrite !np_sum_replicate_0. reflexivity.
Qed.

End logger_facts.
Section tensor_facts.
Local Open Scope R_scope.

Lemma tanh_sqr_le_1 (x : R) : 0 <= 1 - tanh x ^ 2.
Proof.
  unfold tanh, sinh, cosh.
  pose proof (exp_pos x) as Ha. pose proof (exp_pos (- x)) as Hb.
  set (a := exp x) in *. set (b := exp (- x)) in *.
  replace (1 - ((a - b) / 2 / ((a + b) / 2)) ^ 2)
    with (4 * a * b / ((a + b) ^ 2)) by (field; lra).
  apply Rlt_le. apply Rdiv_lt_0_compat; nra.
Qed.

Lemma relu_squash (x : R) : relu (1 - tanh x ^ 2) = 1 - tanh x ^ 2.
Proof. unfold relu. apply Rmax_right, tanh_sqr_le_1. Qed.

Lemma bcast_same_length (f : R -> R -> R) (a b : list R) :
  length a = length b -> bcast f a b = zip_with f a b.
Proof.
  intros Hl.
  destruct a as [|x [|x' a]], b as [|y [|y' b]];
    simpl in *; try discriminate; reflexivity.
Qed.

Lemma lookup_tmap (f : R -> R) (t : list (list R)) (i : nat) :
  tmap f t !! i = map f <$> t !! i.
Proof. unfold tmap. apply list_lookup_fmap. Qed.

Lemma lookup_tzip (f : R -> R -> R) (a b : list (list R)) (i : nat)
    (x y : list R) :
  a !! i = Some x -> b !! i = Some y ->
  tzip f a b !! i = Some (bcast f x y).
Proof.
  intros Ha Hb. unfold tzip. rewrite lookup_zip_with, Ha, Hb. reflexivity.
Qed.

Lemma lookup_sum_keepdim (t : list (list R)) (i : nat) :
  sum_keepdim t !! i = (fun row => [vsum row]) <$> t !! i.
Proof. unfold sum_keepdim. apply list_lookup_fmap. Qed.

Lemma lookup_randn_like (randn : nat -> nat -> R) (t : list (list R))
    (i : nat) :
  randn_like randn t !! i = (fun row => imap (fun j _ => randn i j) row)
                              <$> t !! i.
Proof. unfold randn_like. rewrite list_lookup_imap. reflexivity. Qed.

Lemma Linear_forward_row (l : Linear) (x : list (list R)) (i : nat)
    (row : list R) :
  Linear_forward l x !! i = Some row ->
  length row = Nat.min (length (weight l)) (length (bias l)).
Proof.
  unfold Linear_forward. rewrite list_lookup_fmap.
  destruct (x !! i); simpl; [|discriminate].
  intros [= <-]. apply length_zip_with.
Qed.

Lemma size_last_lookup (t : list (list R)) (row : list R) :
  t !! 0%nat = Some row -> size_last t = length row.
Proof. destruct t; simpl; [discriminate|]. intros [= ->]. reflexivity. Qed.

End tensor_facts.

Section policy_facts.
Import SAC.
Local Open Scope R_scope.

(** The two heads of an actor whose last layer has [2 * A] outputs: both
    have rows of [A] entries. *)
Lemma heads_rows (self : Actor.t) (x : list (list R)) (A i : nat) :
  length (weight (Actor.l3 self)) = (2 * A)%nat ->
  length (bias (Actor.l3 self)) = (2 * A)%nat ->
  forall row, fst (Actor.heads self x) !! i = Some row
              \/ snd (Actor.heads self x) !! i = Some row ->
              length row = A.
Proof.
  intros Hw Hb row. unfold Actor.heads. cbn [fst snd].
  rewrite !lookup_tmap, !list_lookup_fmap.
  destruct (Linear_forward (Actor.l3 self) _ !! i) as [out|] eqn:Hout;
    simpl; [|intros [|]; discriminate].
  apply Linear_forward_row in Hout. rewrite Hw, Hb, Nat.min_id in Hout.
  assert (Nat.div2 (S (length out)) = A) as Hh.
  { rewrite Hout. apply Nat.div2_succ_double. }
  simpl in Hh. rewrite Hh.
  intros [[= <-]|[= <-]].
  - rewrite length_take. lia.
  - rewrite !length_map, length_drop. lia.
Qed.

Lemma heads_same_rows (self : Actor.t) (x : list (list R)) (i : nat) :
  is_Some (fst (Actor.heads self x) !! i)
  <-> is_Some (snd (Actor.heads self x) !! i).
Proof.
  unfold Actor.heads. cbn [fst snd].
  rewrite !lookup_tmap, !list_lookup_fmap.
  destruct (Linear_forward (Actor.l3 self) _ !! i); simpl;
    split; intros [? ?]; try discriminate; eauto.
Qed.

Lemma heads_length (self : Actor.t) (x : list (list R)) :
  length (fst (Actor.heads self x)) = length x.
Proof.
  unfold Actor.heads, Linear_forward, tmap. cbn [fst].
  rewrite !length_map. reflexivity.
Qed.

Lemma gaussian_likelihood_row (noise ls : list (list R)) (i : nat)
    (n_i l_i : list R) :
  noise !! i = Some n_i -> ls !! i = Some l_i -> length n_i = length l_i ->
  gaussian_likelihood noise ls !! i
  = Some [vsum (zip_with (fun n l => -0.5 * n ^ 2 - l) n_i l_i)
          - 0.5 * ln (2 * PI) * INR (size_last noise)].
Proof.
  intros Hn Hl Hlen. unfold gaussian_likelihood.
  rewrite lookup_tmap, lookup_sum_keepdim.
  assert (tmap (fun n => -0.5 * n ^ 2) noise !! i
          = Some (map (fun n => -0.5 * n ^ 2) n_i)) as Hsq
    by (rewrite lookup_tmap, Hn; reflexivity).
  rewrite (lookup_tzip _ _ _ _ _ _ Hsq Hl).
  rewrite bcast_same_length by (rewrite length_map; exact Hlen).
  cbn [fmap option_fmap option_map map].
  do 4 f_equal.
  change (map ?f ?l) with (f <$> l). rewrite zip_with_fmap_l. reflexivity.
Qed.

Lemma squash_correction_row (t : list (list R)) (i : nat) (p : list R) :
  t !! i = Some p ->
  sum_keepdim (tmap (fun a => ln (relu (1 - a ^ 2) + 1e-6)) (tmap tanh t))
    !! i
  = Some [vsum (map (fun u => ln (1 - tanh u ^ 2 + 1e-6)) p)].
Proof.
  intros Hp. rewrite lookup_sum_keepdim, !lookup_tmap, Hp.
  cbn [fmap option_fmap option_map]. rewrite map_map.
  do 3 f_equal. apply map_ext. intros u. rewrite relu_squash. reflexivity.
Qed.

Lemma size_last_randn_like (randn : nat -> nat -> R) (t : list (list R))
    (row : list R) :
  t !! 0%nat = Some row -> size_last (randn_like randn t) = length row.
Proof.
  intros Ht. rewrite (size_last_lookup _ (imap (fun j _ => randn 0%nat j) row)).
  - apply length_imap.
  - rewrite lookup_randn_like, Ht. reflexivity.
Qed.

(** C1: for an actor whose last layer has [2 * A] outputs ([A] the action
    dimension), the forward pass with sampling and log-probability returns
    one row per input row, and in row [i] the log-probability is
    [sum(-0.5*noise^2 - log_std) - 0.5*A*log(2*pi)] minus
    [sum(log(1 - tanh(pre_squash)^2 + 1e-6))], where [pre_squash = mu +
    noise * exp(log_std)] and the sampled action is [tanh(pre_squash)]. *)
Theorem forward_log_prob_closed_form (self : Actor.t)
    (randn : nat -> nat -> R) (x : list (list R)) (A : nat) :
  length (weight (Actor.l3 self)) = (2 * A)%nat ->
  length (bias (Actor.l3 self)) = (2 * A)%nat ->
  length (fst (Actor.heads self x)) = length x /\
  exists pi log_pi,
    Actor.forward self randn x true true
    = Ok (tmap tanh (fst (Actor.heads self x)), Some pi, Some log_pi) /\
    forall i mu_i log_std_i,
      fst (Actor.heads self x) !! i = Some mu_i ->
      snd (Actor.heads self x) !! i = Some log_std_i ->
      let noise_i := imap (fun j _ => randn i j) mu_i in
      let pre_squash_i :=
        zip_with Rplus mu_i (zip_with Rmult noise_i (map exp log_std_i)) in
      pi !! i = Some (map tanh pre_squash_i) /\
      log_pi !! i = Some [spec_log_prob A noise_i log_std_i pre_squash_i].
Proof.
  intros Hw Hb. split; [apply heads_length|].
  pose proof (fun i => heads_rows self x A i Hw Hb) as Hrows.
  unfold Actor.forward.
  revert Hrows. destruct (Actor.heads self x) as [mu ls]. intros Hrows.
  cbn [fst snd] in *.
  unfold apply_squashing_func. cbn [mbind Exn_bind].
  eexists _, _. split; [reflexivity|].
  intros i mu_i ls_i Hmu Hls.
  set (noise_i := imap (fun j _ => randn i j) mu_i).
  set (pre_i := zip_with Rplus mu_i (zip_with Rmult noise_i (map exp ls_i))).
  assert (length mu_i = A) as Lmu by (apply (Hrows i); auto).
  assert (length ls_i = A) as Lls by (apply (Hrows i); auto).
  assert (length noise_i = A) as Lnoise
    by (unfold noise_i; rewrite length_imap; exact Lmu).
  assert (randn_like randn mu !! i = Some noise_i) as Hnoise
    by (rewrite lookup_randn_like, Hmu; reflexivity).
  assert (tmap exp ls !! i = Some (map exp ls_i)) as Hstd
    by (rewrite lookup_tmap, Hls; reflexivity).
  assert (tzip Rplus mu (tzip Rmult (randn_like randn mu) (tmap exp ls)) !! i
          = Some pre_i) as Hpre.
  { rewrite (lookup_tzip _ _ _ _ _ _ Hmu
               (lookup_tzip _ _ _ _ _ _ Hnoise Hstd)).
    rewrite (bcast_same_length Rmult) by (rewrite length_map; lia).
    rewrite bcast_same_length; [reflexivity|].
    rewrite length_zip_with, length_map. lia. }
  split.
  - rewrite lookup_tmap, Hpre. reflexivity.
  - assert (exists r0, mu !! 0%nat = Some r0) as [r0 Hr0].
    { destruct mu as [|r0 mu']; [discriminate|]. exists r0. reflexivity. }
    assert (size_last (randn_like randn mu) = A) as HD.
    { rewrite (size_last_randn_like _ _ _ Hr0). apply (Hrows 0%nat). auto. }
    pose proof (gaussian_likelihood_row _ _ _ _ _ Hnoise Hls ltac:(lia))
      as Hgl.
    pose proof (squash_correction_row _ _ _ Hpre) as Hsq.
    rewrite (lookup_tzip _ _ _ _ _ _ Hgl Hsq), HD.
    cbn [bcast map]. unfold spec_log_prob. do 2 f_equal. ring.
Qed.

Lemma forward_log_prob_closed_form_witness :
  length (weight (Actor.l3 example_actor)) = (2 * 1)%nat /\
  length (bias (Actor.l3 example_actor)) = (2 * 1)%nat /\
  length (fst (Actor.heads example_actor [[0]])) = length [[0]] /\
  exists pi log_pi,
    Actor.forward example_actor (fun _ _ => 0) [[0]] true true
    = Ok (tmap tanh (fst (Actor.heads example_actor [[0]])),
          Some pi, Some log_pi) /\
    forall i mu_i log_std_i,
      fst (Actor.heads example_actor [[0]]) !! i = Some mu_i ->
      snd (Actor.heads example_actor [[0]]) !! i = Some log_std_i ->
      let noise_i := imap (fun j _ => 0) mu_i in
      let pre_squash_i :=
        zip_with Rplus mu_i (zip_with Rmult noise_i (map exp log_std_i)) in
      pi !! i = Some (map tanh pre_squash_i) /\
      log_pi !! i = Some [spec_log_prob 1 noise_i log_std_i pre_squash_i].
Proof.
  split; [reflexivity|]. split; [reflexivity|].
  apply (forward_log_prob_closed_form example_actor (fun _ _ => 0) [[0]] 1);
    reflexivity.
Defined.

(** The hand-computed value of the specification: at [mu = 0] the squashing
    correction of a one-dimensional action is [log(1 - 0 + 1e-6)]. *)
Example squash_correction_at_zero :
  sum_keepdim (tmap (fun a => ln (relu (1 - a ^ 2) + 1e-6)) (tmap tanh [[0]]))
  = [[ln (1 - 0 + 1e-6)]].
Proof.
  assert (tanh 0 = 0) as T0.
  { unfold tanh. rewrite sinh_0. unfold Rdiv. apply Rmult_0_l. }
  cbn [sum_keepdim tmap map vsum fold_right].
  rewrite T0. unfold relu. rewrite Rmax_right by lra.
  rewrite Rplus_0_r. do 3 f_equal. ring.
Qed.

(** C7: with [compute_log_pi=True] and [compute_pi=False] the forward pass
    of either actor returns nothing: reading the unbound local [noise]
    raises, whatever the parameters, the generator and the input. *)
Theorem forward_log_pi_without_pi_raises :
  (forall (self : SAC.Actor.t) randn x,
     SAC.Actor.forward self randn x false true
     = Raise (UnboundLocalError "noise")) /\
  (forall (self : DistSAC.Actor.t) randn x x_g,
     DistSAC.Actor.forward self randn x x_g false true
     = Raise (UnboundLocalError "noise")).
Proof.
  split.
  - intros self randn x. unfold SAC.Actor.forward.
    destruct (SAC.Actor.heads self x). reflexivity.
  - intros self randn x x_g. unfold DistSAC.Actor.forward.
    destruct (DistSAC.Actor.heads self x x_g). reflexivity.
Qed.

End policy_facts.
(** Unfolds the procedure monad at the head of a goal. *)
Ltac run_proc :=
  cbv beta iota zeta delta
    [mbind mret Proc_bind Proc_ret get lift modify fst snd].

Section SAC_train_facts.
Import SAC.
Context `{Torch}.
Local Open Scope R_scope.

Lemma sample_policy_ok (a : Actor.t) (randn : nat -> nat -> R)
    (x : list (list R)) :
  exists pi log_pi, sample_policy a randn x = Ok (pi, log_pi).
Proof.
  unfold sample_policy, Actor.forward.
  destruct (Actor.heads a x) as [mu ls].
  unfold apply_squashing_func. cbn. eauto.
Qed.

Lemma target_Q_of_ok (self : t) (randn : nat -> nat -> R)
    (reward done next_state : list (list R)) (discount : R) :
  exists policy_action log_pi,
    sample_policy (actor self) randn next_state = Ok (policy_action, log_pi)
    /\ target_Q_of self randn reward done next_state discount
       = Ok (tzip Rplus reward
               (tzip Rmult (tmap (fun d => d * discount) done)
                  (tzip Rminus
                     (tzip Rmin
                        (fst (Critic.forward (critic_target self) next_state
                                policy_action))
                        (snd (Critic.forward (critic_target self) next_state
                                policy_action)))
                     (tmap (fun l => alpha self * l) log_pi)))).
Proof.
  unfold target_Q_of.
  destruct (sample_policy_ok (actor self) randn next_state)
    as (pa & lp & ->).
  exists pa, lp. split; [reflexivity|].
  cbn [mbind Exn_bind].
  destruct (Critic.forward (critic_target self) next_state pa).
  reflexivity.
Qed.

Lemma fit_critic_run (randn : nat -> nat -> R)
    (state action reward done next_state : list (list R))
    (discount : R) (step : Z) (self : t) (L : list LogCall)
    (target_Q : list (list R)) :
  target_Q_of self randn reward done next_state discount = Ok target_Q ->
  fit_critic randn state action reward done next_state discount step
             (self, L)
  = ((step_critic
        (backward (critic_loss_of state action target_Q) (critic self))
        self,
      L_log L "train/critic_loss"
            (critic_loss_of state action target_Q (critic self)
             * IZR (size0 (fst (Critic.forward (critic self) state action))))
            step
            (size0 (fst (Critic.forward (critic self) state action)))),
     Ok tt).
Proof.
  intros Htq. unfold fit_critic, log, update_self. run_proc.
  rewrite Htq. reflexivity.
Qed.

Lemma actor_loss_of_ok (self : t) (randn : nat -> nat -> R)
    (state : list (list R)) (a : Actor.t) :
  exists loss, actor_loss_of self randn state a = Ok loss.
Proof.
  unfold actor_loss_of.
  destruct (sample_policy_ok a randn state) as (pi & lp & ->).
  cbn [mbind Exn_bind].
  destruct (Critic.forward (critic self) state pi). eauto.
Qed.

Lemma fit_actor_run (randn : nat -> nat -> R) (state : list (list R))
    (step : Z) (target_entropy : option R) (self : t) (L : list LogCall) :
  exists pi log_pi actor_loss,
    sample_policy (actor self) randn state = Ok (pi, log_pi) /\
    actor_loss_of self randn state (actor self) = Ok actor_loss /\
    fit_actor randn state step target_entropy (self, L)
    = ((after_fit_actor randn state target_entropy log_pi self,
        L_log L "train/actor_loss" (actor_loss * IZR (size0 state)) step
              (size0 state)),
       Ok tt).
Proof.
  destruct (sample_policy_ok (actor self) randn state) as (pi & lp & Hs).
  destruct (actor_loss_of_ok self randn state (actor self)) as [al Hal].
  exists pi, lp, al. split; [exact Hs|]. split; [exact Hal|].
  unfold fit_actor, after_fit_actor, log, update_self. run_proc.
  rewrite Hs, Hal. destruct target_entropy; reflexivity.
Qed.

Lemma after_fit_actor_frame (randn : nat -> nat -> R)
    (state : list (list R)) (target_entropy : option R)
    (log_pi : list (list R)) (self : t) :
  critic (after_fit_actor randn state target_entropy log_pi self)
  = critic self /\
  critic_target (after_fit_actor randn state target_entropy log_pi self)
  = critic_target self /\
  critic_optimizer (after_fit_actor randn state target_entropy log_pi self)
  = critic_optimizer self.
Proof.
  unfold after_fit_actor, step_actor, step_log_alpha.
  destruct (Adam_step (actor_optimizer self) _ _) as [o a].
  destruct target_entropy; cbn.
  - destruct (Adam_step _ _ _). cbn. auto.
  - auto.
Qed.

Lemma step_critic_frame (g : Critic.t) (self : t) :
  actor (step_critic g self) = actor self /\
  actor_optimizer (step_critic g self) = actor_optimizer self /\
  critic_target (step_critic g self) = critic_target self /\
  log_alpha (step_critic g self) = log_alpha self /\
  log_alpha_optimizer (step_critic g self) = log_alpha_optimizer self /\
  critic (step_critic g self)
  = snd (Adam_step (critic_optimizer self) (critic self) g) /\
  critic_optimizer (step_critic g self)
  = fst (Adam_step (critic_optimizer self) (critic self) g).
Proof.
  unfold step_critic. destruct (Adam_step _ _ _). cbn. auto 10.
Qed.

Lemma critic_target_step_critic (g : Critic.t) (self : t) :
  critic_target (step_critic g self) = critic_target self.
Proof. apply step_critic_frame. Qed.

Lemma critic_target_after_fit_actor (randn : nat -> nat -> R)
    (state : list (list R)) (target_entropy : option R)
    (log_pi : list (list R)) (self : t) :
  critic_target (after_fit_actor randn state target_entropy log_pi self)
  = critic_target self.
Proof. apply after_fit_actor_frame. Qed.

Lemma critic_after_fit_actor (randn : nat -> nat -> R)
    (state : list (list R)) (target_entropy : option R)
    (log_pi : list (list R)) (self : t) :
  critic (after_fit_actor randn state target_entropy log_pi self)
  = critic self.
Proof. apply after_fit_actor_frame. Qed.

(** Runs the call of [fit_critic], resp. [fit_actor], at the head of a
    [train] in progress. *)
Ltac step_fit_critic :=
  match goal with
  | |- context [fit_critic ?n ?s ?a ?r ?d ?ns ?g ?st (?self, ?L)] =>
      let pa := fresh "pa" in
      let lp := fresh "lp" in
      let Htq := fresh "Htq" in
      destruct (target_Q_of_ok self n r d ns g) as (pa & lp & _ & Htq);
      rewrite (fit_critic_run n s a r d ns g st self L _ Htq);
      clear Htq
  end.

Ltac step_fit_actor :=
  match goal with
  | |- context [fit_actor ?n ?s ?st ?te (?self, ?L)] =>
      let pi := fresh "pi" in
      let lp := fresh "lp" in
      let al := fresh "al" in
      let Hfa := fresh "Hfa" in
      destruct (fit_actor_run n s st te self L)
        as (pi & lp & al & _ & _ & Hfa);
      rewrite Hfa; clear Hfa
  end.

(** The paths through [train]: the exploration bonus is added or not (and
    [get_distance] returns or raises), [policy_freq] is zero or not, and the
    step is an actor step or not. *)
Ltac train_cases :=
  unfold train, log;
  destruct (Rlt_dec 0 _);
  [ run_proc;
    match goal with
    | |- context [get_distance_method ?dp ?s ?c] =>
        destruct (get_distance_method dp s c) as [[? ?]|?]
    end
  | ];
  run_proc; try step_fit_critic;
  try (unfold py_modZ;
       match goal with
       | |- context [(?pf =? 0)%Z] =>
         destruct (Z.eqb_spec pf 0);
         [| match goal with
            | |- context [(?r =? 0)%Z] => destruct (Z.eqb_spec r 0)
            end ]
       end;
       try step_fit_actor; unfold update_self; run_proc).

Ltac frames :=
  cbn [fst snd soft_update_target critic critic_target];
  rewrite ?critic_target_after_fit_actor, ?critic_after_fit_actor,
    ?critic_target_step_critic.

Lemma soft_update_tensor_lookup (tau : R) (param target : list (list R))
    (i j : nat) (rp rt : list R) (x y : R) :
  param !! i = Some rp -> rp !! j = Some x ->
  target !! i = Some rt -> rt !! j = Some y ->
  exists r, soft_update_tensor tau param target !! i = Some r
            /\ r !! j = Some (tau * x + (1 - tau) * y).
Proof.
  intros Hp Hx Ht Hy. unfold soft_update_tensor.
  eexists. rewrite lookup_zip_with, Hp, Ht. split; [reflexivity|].
  rewrite lookup_zip_with, Hx, Hy. reflexivity.
Qed.

Lemma soft_update_bias_lookup (tau : R) (l target_l : Linear) (i : nat)
    (x y : R) :
  bias l !! i = Some x -> bias target_l !! i = Some y ->
  bias (soft_update_Linear tau l target_l) !! i
  = Some (tau * x + (1 - tau) * y).
Proof.
  intros Hx Hy. cbn. rewrite lookup_zip_with, Hx, Hy. reflexivity.
Qed.

(** Section 7 of the specification: online 1.0, old target 0.0 and
    [tau = 0.005] give 0.005. *)
Example soft_update_constants :
  soft_update_tensor 0.005 [[1]] [[0]] = [[0.005]].
Proof. cbn. do 2 f_equal. lra. Qed.

(** C6: the target critic starts as a copy of the online critic
    ([__init__]), [load] leaves it alone, and one [train] call either leaves
    it unchanged or replaces it, once, by the soft update against the online
    critic as it stands after this call's critic step. The soft update
    happens exactly when the call returns on a step with [step % policy_freq
    == 0]; on every other path (another step, [policy_freq = 0], an exception
    from [get_distance]) the target is unchanged. No optimizer step touches
    it. Elementwise the soft update is [tau*online + (1-tau)*target] on the
    weights and biases of the six layers. *)
Theorem target_critic_soft_update_only
    (replay_buffer : ReplayBuffer) (step : Z)
    (dist_policy : DistPolicy) (draws : Draws)
    (batch_size : Z) (discount tau : R) (policy_freq : Z)
    (target_entropy : option R) (expl_coef dist_threshold : R)
    (self : t) (L : list LogCall) :
  let run := train replay_buffer step dist_policy draws batch_size discount
                   tau policy_freq target_entropy expl_coef dist_threshold
                   (self, L) in
  let final := fst (fst run) in
  (forall a c ct temperature lr,
     critic_target (init a c ct temperature lr) = c
     /\ critic (init a c ct temperature lr) = c)
  /\ (forall a_sd c_sd, critic_target (load self a_sd c_sd)
                        = critic_target self)
  /\ (forall g, critic_target (step_critic g self) = critic_target self)
  /\ (forall g, critic_target (step_actor g self) = critic_target self)
  /\ (forall g, critic_target (step_log_alpha g self) = critic_target self)
  /\ (critic_target final = critic_target self
      \/ critic_target final
         = Critic.soft_update_params (critic final) (critic_target self) tau)
  /\ (policy_freq = 0%Z \/ (step mod policy_freq)%Z <> 0%Z ->
      critic_target final = critic_target self)
  /\ (forall e, snd run = Raise e -> critic_target final = critic_target self)
  /\ (snd run = Ok tt -> policy_freq <> 0%Z ->
      (step mod policy_freq)%Z = 0%Z ->
      critic_target final
      = Critic.soft_update_params (critic final) (critic_target self) tau)
  /\ (forall net target tau' layer,
        In layer [Critic.l1; Critic.l2; Critic.l3;
                  Critic.l4; Critic.l5; Critic.l6] ->
        let new := layer (Critic.soft_update_params net target tau') in
        (forall i j rp rt x y,
           weight (layer net) !! i = Some rp -> rp !! j = Some x ->
           weight (layer target) !! i = Some rt -> rt !! j = Some y ->
           exists r, weight new !! i = Some r
                     /\ r !! j = Some (tau' * x + (1 - tau') * y))
        /\ (forall i x y,
              bias (layer net) !! i = Some x ->
              bias (layer target) !! i = Some y ->
              bias new !! i = Some (tau' * x + (1 - tau') * y))).
Proof.
  intros run final.
  split; [intros; split; reflexivity|].
  split; [reflexivity|].
  split; [intros g; apply critic_target_step_critic|].
  split; [intros g; unfold step_actor; destruct (Adam_step _ _ _);
          reflexivity|].
  split; [intros g; unfold step_log_alpha; destruct (Adam_step _ _ _);
          reflexivity|].
  assert ((critic_target final = critic_target self
           \/ critic_target final
              = Critic.soft_update_params (critic final) (critic_target self)
                  tau)
          /\ (policy_freq = 0%Z \/ (step mod policy_freq)%Z <> 0%Z ->
              critic_target final = critic_target self)
          /\ (forall e, snd run = Raise e ->
                        critic_target final = critic_target self)
          /\ (snd run = Ok tt -> policy_freq <> 0%Z ->
              (step mod policy_freq)%Z = 0%Z ->
              critic_target final
              = Critic.soft_update_params (critic final) (critic_target self)
                  tau)) as (T1 & T2 & T3 & T4).
  { subst final run. train_cases; frames.
    all: repeat split; try tauto; try congruence; try (intros; lia); auto. }
  do 4 (split; [assumption|]).
  intros net target tau' layer Hin new. subst new.
  assert (layer (Critic.soft_update_params net target tau')
          = soft_update_Linear tau' (layer net) (layer target)) as ->.
  { cbn in Hin. intuition subst; reflexivity. }
  split.
  - intros i j rp rt x y. apply soft_update_tensor_lookup.
  - intros i x y. apply soft_update_bias_lookup.
Qed.

(** C3: the reports of one [train] call without exploration bonus, in
    order. The ['train/batch_reward'] call passes the batch size
    ([reward.size(0)]) in the position of [step] and the training step in the
    position of [n]; ['train/critic_loss'] and ['train/actor_loss'] pass the
    training step as [step] and the batch size as [n]. *)
Theorem train_log_arguments
    (replay_buffer : ReplayBuffer) (step : Z)
    (dist_policy : DistPolicy) (draws : Draws)
    (batch_size : Z) (discount tau : R) (policy_freq : Z)
    (target_entropy : option R) (expl_coef dist_threshold : R)
    (self : t) (L : list LogCall) :
  ~ 0 < expl_coef ->
  let b := sample replay_buffer batch_size in
  let reward := view_col (b_reward b) in
  let Q1 := fst (Critic.forward (critic self) (b_state b) (b_action b)) in
  exists critic_loss rest,
    snd (fst (train replay_buffer step dist_policy draws batch_size discount
                    tau policy_freq target_entropy expl_coef dist_threshold
                    (self, L)))
    = L ++ {| log_key := "train/batch_reward"; log_value := tsum reward;
              log_step := size0 reward; log_n := step |}
        :: {| log_key := "train/critic_loss";
              log_value := critic_loss * IZR (size0 Q1);
              log_step := step; log_n := size0 Q1 |}
        :: rest
    /\ size0 reward = Z.of_nat (length (b_reward b))
    /\ (rest = []
        \/ exists actor_loss,
             rest = [{| log_key := "train/actor_loss";
                        log_value := actor_loss * IZR (size0 (b_state b));
                        log_step := step; log_n := size0 (b_state b) |}]).
Proof.
  intros Hc b reward Q1. subst b reward Q1. train_cases; [tauto..| | |].
  all: cbn [fst snd]; unfold L_log; rewrite <- ?app_assoc; cbn [app].
  all: eexists _, _; (split; [reflexivity|]).
  all: (split; [unfold size0, view_col; rewrite ?length_map; reflexivity|]).
  all: eauto.
Qed.

End SAC_train_facts.

Section SAC_train_examples.
Local Open Scope R_scope.

(** At step 7 with a batch of two transitions, ['train/batch_reward'] is
    reported at step 2 with weight 7. *)
Lemma train_log_arguments_witness :
  ~ 0 < 0 /\
  exists value critic_loss rest,
    snd (fst (@SAC.train inert_torch example_buffer 7 example_dist_policy
                example_draws 100 0.99 0.005 2 None 0 10
                (example_agent, [])))
    = {| log_key := "train/batch_reward"; log_value := value;
         log_step := 2; log_n := 7 |}
      :: {| log_key := "train/critic_loss"; log_value := critic_loss;
            log_step := 7; log_n := 2 |}
      :: rest.
Proof.
  assert (~ 0 < 0) as Hc by lra.
  split; [exact Hc|].
  destruct (@train_log_arguments inert_torch example_buffer 7
              example_dist_policy example_draws 100 0.99 0.005 2 None 0 10
              example_agent [] Hc) as (cl & rest & Heq & _ & _).
  eexists _, _, rest. rewrite Heq. reflexivity.
Defined.

End SAC_train_examples.
(* ================================================================== *)
(** * DistSAC.py: goal relabeling and training step *)

Section DistSAC_mask_facts.
Local Open Scope R_scope.

Lemma zip_with_map_r_same (f : R -> R -> R) (g : R -> R) (a : list R) :
  zip_with f a (map g a) = map (fun x => f x (g x)) a.
Proof. induction a as [|x a IH]; simpl; [reflexivity|]. now rewrite IH. Qed.

Lemma bcast_map_r_same (f : R -> R -> R) (g : R -> R) (a : list R) :
  bcast f a (map g a) = map (fun x => f x (g x)) a.
Proof.
  rewrite bcast_same_length by (now rewrite length_map).
  apply zip_with_map_r_same.
Qed.

Lemma tzip_tmap_r_same (f : R -> R -> R) (g : R -> R) (t : list (list R)) :
  tzip f t (tmap g t) = tmap (fun x => f x (g x)) t.
Proof.
  unfold tzip, tmap. induction t as [|row t IH]; simpl; [reflexivity|].
  rewrite IH. f_equal. apply bcast_map_r_same.
Qed.

Lemma tmap_tmap (f g : R -> R) (t : list (list R)) :
  tmap f (tmap g t) = tmap (fun x => f (g x)) t.
Proof.
  unfold tmap. rewrite map_map. apply map_ext. intros row. apply map_map.
Qed.

Lemma vsum_app (a b : list R) : vsum (a ++ b) = vsum a + vsum b.
Proof. induction a as [|x a IH]; simpl; [lra|]. rewrite IH. lra. Qed.

Lemma vsum_map_zero (f : R -> R) (l : list R) :
  (forall x, f x = 0) -> vsum (map f l) = 0.
Proof.
  intros Hf. induction l as [|x l IH]; simpl; [reflexivity|].
  rewrite IH, Hf. lra.
Qed.

Lemma concat_tmap (f : R -> R) (t : list (list R)) :
  concat (tmap f t) = map f (concat t).
Proof.
  unfold tmap. induction t as [|row t IH]; simpl; [reflexivity|].
  rewrite IH, map_app. reflexivity.
Qed.

Lemma tnorm_tmap_zero (f : R -> R) (t : list (list R)) :
  (forall x, f x = 0) -> tnorm (tmap f t) = 0.
Proof.
  intros Hf. unfold tnorm. rewrite concat_tmap, map_map.
  rewrite vsum_map_zero; [apply sqrt_0|].
  intros x. rewrite Hf. lra.
Qed.

Lemma gt_float_cases (c x : R) :
  (c < x /\ gt_float c x = 1) \/ (x <= c /\ gt_float c x = 0).
Proof. unfold gt_float. destruct (Rlt_dec c x); [left|right]; split; lra. Qed.

Import DistSAC.

Lemma masks_sum_to_one (mask_noise : list (list R)) :
  let same := same_goal_mask_of mask_noise in
  Rltb (tnorm (tmap (fun m => m - 1.0)
                    (tzip Rplus same (traj_goal_mask_of same)))) 1e-3 = true.
Proof.
  cbv zeta. unfold traj_goal_mask_of.
  rewrite tzip_tmap_r_same, tmap_tmap, tnorm_tmap_zero by (intros; lra).
  unfold Rltb. destruct (Rlt_dec 0 1e-3); [reflexivity|lra].
Qed.

Lemma masks_disjoint (mask_noise : list (list R)) :
  let same := same_goal_mask_of mask_noise in
  Rltb (tnorm (tzip Rmult same (traj_goal_mask_of same))) 1e-3 = true.
Proof.
  cbv zeta. unfold traj_goal_mask_of, same_goal_mask_of.
  rewrite tzip_tmap_r_same, tmap_tmap, tnorm_tmap_zero.
  - unfold Rltb. destruct (Rlt_dec 0 1e-3); [reflexivity|lra].
  - intros x. destruct (gt_float_cases 0.9 x) as [[_ ->]|[_ ->]]; lra.
Qed.
End DistSAC_mask_facts.

Section DistSAC_relabel_facts.
Import DistSAC.
Local Open Scope R_scope.

Lemma lookup_rand_col (u : nat -> R) (B i : nat) :
  (i < B)%nat -> rand_col u B !! i = Some [u i].
Proof.
  intros Hi. unfold rand_col. rewrite list_lookup_fmap.
  rewrite lookup_seq_lt by assumption. reflexivity.
Qed.

Lemma bcast_singleton_r (f : R -> R -> R) (a : list R) (y : R) :
  bcast f a [y] = map (fun x => f x y) a.
Proof. destruct a as [|x [|x' a]]; reflexivity. Qed.

Lemma zip_with_select_l (s g : list R) :
  length s = length g ->
  zip_with Rplus (map (fun x => x * 1) s) (map (fun x => x * (1 - 1)) g) = s.
Proof.
  revert g. induction s as [|x s IH]; intros [|y g] Hl; simpl in *;
    try discriminate; [reflexivity|].
  rewrite IH by lia. f_equal. lra.
Qed.

Lemma zip_with_select_r (s g : list R) :
  length s = length g ->
  zip_with Rplus (map (fun x => x * 0) s) (map (fun x => x * (1 - 0)) g) = g.
Proof.
  revert g. induction s as [|x s IH]; intros [|y g] Hl; simpl in *;
    try discriminate; [reflexivity|].
  rewrite IH by lia. f_equal. lra.
Qed.

Lemma mask_rows (u : nat -> R) (B i : nat) :
  (i < B)%nat ->
  let same := same_goal_mask_of (rand_col u B) in
  same !! i = Some [gt_float 0.9 (u i)]
  /\ traj_goal_mask_of same !! i = Some [1 - gt_float 0.9 (u i)].
Proof.
  intros Hi same. subst same. unfold traj_goal_mask_of, same_goal_mask_of.
  rewrite !lookup_tmap, lookup_rand_col by assumption. split; reflexivity.
Qed.

Lemma relabel_row (state goals : list (list R)) (u : nat -> R) (i : nat)
    (s g : list R) :
  state !! i = Some s -> goals !! i = Some g -> length s = length g ->
  let same := same_goal_mask_of (rand_col u (length state)) in
  relabel state goals same (traj_goal_mask_of same) !! i
  = Some (if Rlt_dec 0.9 (u i) then s else g).
Proof.
  intros Hs Hg Hl same.
  assert (i < length state)%nat as Hi by (eapply lookup_lt_Some; eassumption).
  destruct (mask_rows u (length state) i Hi) as [Hm Ht]. fold same in Hm, Ht.
  unfold relabel.
  rewrite (lookup_tzip _ _ _ _ _ _
             (lookup_tzip _ _ _ _ _ _ Hs Hm) (lookup_tzip _ _ _ _ _ _ Hg Ht)).
  rewrite !bcast_singleton_r.
  rewrite bcast_same_length by (rewrite !length_map; assumption).
  unfold gt_float. destruct (Rlt_dec 0.9 (u i)).
  - now rewrite zip_with_select_l.
  - now rewrite zip_with_select_r.
Qed.

End DistSAC_relabel_facts.

Section DistSAC_done_facts.
Import DistSAC.
Local Open Scope R_scope.

Lemma lookup_norm_keepdim (t : list (list R)) (i : nat) :
  norm_keepdim t !! i
  = (fun row => [sqrt (vsum (map (fun x => x ^ 2) row))]) <$> t !! i.
Proof. unfold norm_keepdim. apply list_lookup_fmap. Qed.

Lemma done_row (state goals : list (list R)) (i : nat) (s g : list R) :
  state !! i = Some s -> goals !! i = Some g ->
  done_of state goals !! i
  = Some [lt_float 1e-5
            (sqrt (vsum (map (fun x => x ^ 2) (bcast Rminus s g))))].
Proof.
  intros Hs Hg. unfold done_of.
  rewrite lookup_tmap, lookup_norm_keepdim, (lookup_tzip _ _ _ _ _ _ Hs Hg).
  reflexivity.
Qed.

Lemma sq_diff_self (s : list R) :
  vsum (map (fun x => x ^ 2) (zip_with Rminus s s)) = 0.
Proof.
  unfold vsum. induction s as [|x s IH]; [reflexivity|].
  cbn [zip_with map fold_right]. rewrite IH. lra.
Qed.

Lemma lt_float_cases (c x : R) :
  (x < c /\ lt_float c x = 1) \/ (c <= x /\ lt_float c x = 0).
Proof. unfold lt_float. destruct (Rlt_dec x c); [left|right]; split; lra. Qed.

Lemma vsum_map_minus_1 (l : list R) :
  vsum (map (fun d => - (1 - d)) l) = vsum l - INR (length l).
Proof.
  unfold vsum. induction l as [|x l IH]; [simpl; lra|].
  cbn [map fold_right length]. rewrite IH, S_INR. lra.
Qed.

Lemma concat_singletons {A B : Type} (f : A -> B) (l : list A) :
  concat (map (fun a => [f a]) l) = map f l.
Proof. induction l as [|a l IH]; simpl; [reflexivity|]. now rewrite IH. Qed.

Lemma done_of_flat (state goals : list (list R)) :
  exists ds, done_of state goals = map (fun d => [d]) ds
             /\ Forall (fun d => d = 0 \/ d = 1) ds.
Proof.
  unfold done_of, norm_keepdim, tmap. rewrite map_map. cbn [map].
  exists (map (fun row => lt_float 1e-5
                 (sqrt (vsum (map (fun x => x ^ 2) row))))
              (tzip Rminus state goals)).
  split; [now rewrite map_map|].
  apply Forall_forall. intros d Hd. apply list_elem_of_fmap in Hd.
  destruct Hd as (row & -> & _).
  destruct (lt_float_cases 1e-5 (sqrt (vsum (map (fun x => x ^ 2) row))))
    as [[_ ->]|[_ ->]]; auto.
Qed.

End DistSAC_done_facts.

Section DistSAC_train_facts.
Import DistSAC.
Context `{Torch}.
Local Open Scope R_scope.

Lemma dist_sample_policy_ok (a : Actor.t) (randn : nat -> nat -> R)
    (x x_g : list (list R)) :
  exists pi log_pi, sample_policy a randn x x_g = Ok (pi, log_pi).
Proof.
  unfold sample_policy, Actor.forward.
  destruct (Actor.heads a x x_g) as [mu ls].
  unfold apply_squashing_func, SAC.apply_squashing_func. cbn. eauto.
Qed.

Lemma dist_target_Q_of_ok (self : t) (randn : nat -> nat -> R)
    (reward done next_state goals : list (list R)) (discount : R) :
  exists policy_action log_pi,
    sample_policy (actor self) randn next_state goals
    = Ok (policy_action, log_pi)
    /\ target_Q_of self randn reward done next_state goals discount
       = Ok (tzip Rplus reward
               (tzip Rmult (tmap (fun d => (1 - d) * discount) done)
                  (tzip Rminus
                     (tzip Rmin
                        (fst (Critic.forward (critic_target self) next_state
                                goals policy_action))
                        (snd (Critic.forward (critic_target self) next_state
                                goals policy_action)))
                     (tmap (fun l => alpha self * l) log_pi)))).
Proof.
  unfold target_Q_of.
  destruct (dist_sample_policy_ok (actor self) randn next_state goals)
    as (pa & lp & ->).
  exists pa, lp. split; [reflexivity|].
  cbn [mbind Exn_bind].
  destruct (Critic.forward (critic_target self) next_state goals pa).
  reflexivity.
Qed.

Lemma dist_fit_critic_run (randn : nat -> nat -> R)
    (state goals action reward done next_state : list (list R))
    (discount : R) (step : Z) (self : t) (L : list LogCall)
    (target_Q : list (list R)) :
  target_Q_of self randn reward done next_state goals discount
  = Ok target_Q ->
  fit_critic randn state goals action reward done next_state discount step
             (self, L)
  = ((step_critic
        (backward (critic_loss_of state goals action target_Q) (critic self))
        self,
      L_log L "train/dist_critic_loss"
            (critic_loss_of state goals action target_Q (critic self)
             * IZR (size0 (fst (Critic.forward (critic self) state goals
                                  action))))
            step
            (size0 (fst (Critic.forward (critic self) state goals action)))),
     Ok tt).
Proof.
  intros Htq. unfold fit_critic, log, update_self. run_proc.
  rewrite Htq. reflexivity.
Qed.

Lemma dist_actor_loss_of_ok (self : t) (randn : nat -> nat -> R)
    (state goals : list (list R)) (a : Actor.t) :
  exists loss, actor_loss_of self randn state goals a = Ok loss.
Proof.
  unfold actor_loss_of.
  destruct (dist_sample_policy_ok a randn state goals) as (pi & lp & ->).
  cbn [mbind Exn_bind].
  destruct (Critic.forward (critic self) state goals pi). eauto.
Qed.

Lemma dist_fit_actor_run (randn : nat -> nat -> R)
    (state goals : list (list R)) (step : Z) (target_entropy : option R)
    (self : t) (L : list LogCall) :
  exists pi log_pi actor_loss,
    sample_policy (actor self) randn state goals = Ok (pi, log_pi) /\
    actor_loss_of self randn state goals (actor self) = Ok actor_loss /\
    fit_actor randn state goals step target_entropy (self, L)
    = ((after_fit_actor randn state goals target_entropy log_pi self,
        L_log L "train/dist_actor_loss" (actor_loss * IZR (size0 state)) step
              (size0 state)),
       Ok tt).
Proof.
  destruct (dist_sample_policy_ok (actor self) randn state goals)
    as (pi & lp & Hs).
  destruct (dist_actor_loss_of_ok self randn state goals (actor self))
    as [al Hal].
  exists pi, lp, al. split; [exact Hs|]. split; [exact Hal|].
  unfold fit_actor, after_fit_actor, log, update_self. run_proc.
  rewrite Hs, Hal. destruct target_entropy; reflexivity.
Qed.

(** The body of [train] once both [assert] statements have passed. *)
Lemma dist_train_after_asserts (replay_buffer : ReplayBuffer) (step : Z)
    (draws : Draws) (batch_size : Z) (discount tau : R) (policy_freq : Z)
    (target_entropy : option R) (s : t * list LogCall) :
  let b := sample replay_buffer batch_size in
  let state := g_state b in
  let same := same_goal_mask_of (rand_col (mask_draw draws) (length state)) in
  let goals := relabel state (g_goals b) same (traj_goal_mask_of same) in
  let done := done_of state goals in
  let reward := reward_of done in
  train replay_buffer step draws batch_size discount tau policy_freq
        target_entropy s
  = (log "train/dist_batch_reward" (tsum reward) step (size0 reward);;
     fit_critic (critic_noise draws) state goals (g_action b) reward done
                (g_next_state b) discount step;;
     r ← lift (py_modZ step policy_freq);
     if (r =? 0)%Z then
       fit_actor (actor_noise draws) state goals step target_entropy;;
       update_self (soft_update_target tau)
     else mret tt) s.
Proof.
  cbv zeta. unfold train.
  rewrite masks_sum_to_one, masks_disjoint. destruct s. reflexivity.
Qed.

Lemma dist_step_critic_frame (g : Critic.t) (self : t) :
  num_candidates (step_critic g self) = num_candidates self /\
  actor (step_critic g self) = actor self /\
  actor_optimizer (step_critic g self) = actor_optimizer self /\
  critic_target (step_critic g self) = critic_target self /\
  log_alpha (step_critic g self) = log_alpha self /\
  log_alpha_optimizer (step_critic g self) = log_alpha_optimizer self /\
  use_l2 (step_critic g self) = use_l2 self /\
  critic (step_critic g self)
  = snd (Adam_step (critic_optimizer self) (critic self) g) /\
  critic_optimizer (step_critic g self)
  = fst (Adam_step (critic_optimizer self) (critic self) g).
Proof.
  unfold step_critic. destruct (Adam_step _ _ _). cbn. auto 12.
Qed.

(** Runs the call of [fit_critic], resp. [fit_actor], at the head of a
    [train] in progress. *)
Ltac dist_step_fit_critic :=
  match goal with
  | |- context [fit_critic ?n ?s ?gl ?a ?r ?d ?ns ?g ?st (?self, ?L)] =>
      let pa := fresh "pa" in
      let lp := fresh "lp" in
      let Htq := fresh "Htq" in
      destruct (dist_target_Q_of_ok self n r d ns gl g)
        as (pa & lp & _ & Htq);
      rewrite (dist_fit_critic_run n s gl a r d ns g st self L _ Htq);
      clear Htq
  end.

Ltac dist_step_fit_actor :=
  match goal with
  | |- context [fit_actor ?n ?s ?gl ?st ?te (?self, ?L)] =>
      let pi := fresh "pi" in
      let lp := fresh "lp" in
      let al := fresh "al" in
      let Hfa := fresh "Hfa" in
      destruct (dist_fit_actor_run n s gl st te self L)
        as (pi & lp & al & _ & _ & Hfa);
      rewrite Hfa; clear Hfa
  end.

(** The paths through [train]: [policy_freq] is zero or not, and the step
    is an actor step or not. *)
Ltac dist_train_cases :=
  rewrite dist_train_after_asserts; unfold log;
  run_proc; dist_step_fit_critic;
  unfold py_modZ;
  match goal with
  | |- context [(?pf =? 0)%Z] =>
      destruct (Z.eqb_spec pf 0);
      [| match goal with
         | |- context [(?r =? 0)%Z] => destruct (Z.eqb_spec r 0)
         end ]
  end;
  try dist_step_fit_actor; unfold update_self; run_proc; cbn [fst snd].

(** [train] raises only for [policy_freq = 0]: both [assert] statements
    hold for every noise draw, since the two masks are 0/1 valued and
    complementary. *)
Theorem dist_train_asserts_never_fail
    (replay_buffer : ReplayBuffer) (step : Z) (draws : Draws)
    (batch_size : Z) (discount tau : R) (policy_freq : Z)
    (target_entropy : option R) (self : t) (L : list LogCall) :
  let state := g_state (sample replay_buffer batch_size) in
  let same_goal_mask :=
    same_goal_mask_of (rand_col (mask_draw draws) (length state)) in
  let traj_goal_mask := traj_goal_mask_of same_goal_mask in
  let run := train replay_buffer step draws batch_size discount tau
                   policy_freq target_entropy (self, L) in
  tnorm (tmap (fun m => m - 1.0) (tzip Rplus same_goal_mask traj_goal_mask))
  = 0
  /\ tnorm (tzip Rmult same_goal_mask traj_goal_mask) = 0
  /\ snd run <> Raise AssertionError
  /\ (policy_freq <> 0%Z <-> snd run = Ok tt)
  /\ (policy_freq = 0%Z <-> snd run = Raise ZeroDivisionError).
Proof.
  intros state same traj run. subst traj same.
  split.
  { unfold traj_goal_mask_of.
    rewrite tzip_tmap_r_same, tmap_tmap. apply tnorm_tmap_zero.
    intros; lra. }
  split.
  { unfold traj_goal_mask_of, same_goal_mask_of.
    rewrite tzip_tmap_r_same, tmap_tmap. apply tnorm_tmap_zero.
    intros x. destruct (gt_float_cases 0.9 x) as [[_ ->]|[_ ->]]; lra. }
  subst run state. dist_train_cases.
  all: repeat split; try congruence; try tauto; intros; congruence.
Qed.

(** The reports of one [train] call, in order: the batch reward, the critic
    loss and, on an actor step, the actor loss. Each passes the training
    step as [step] and the batch size as [n]. *)
Theorem dist_train_reports
    (replay_buffer : ReplayBuffer) (step : Z) (draws : Draws)
    (batch_size : Z) (discount tau : R) (policy_freq : Z)
    (target_entropy : option R) (self : t) (L : list LogCall) :
  let b := sample replay_buffer batch_size in
  let state := g_state b in
  let same := same_goal_mask_of (rand_col (mask_draw draws) (length state)) in
  let goals := relabel state (g_goals b) same (traj_goal_mask_of same) in
  let reward := reward_of (done_of state goals) in
  let Q1 := fst (Critic.forward (critic self) state goals (g_action b)) in
  let run := train replay_buffer step draws batch_size discount tau
                   policy_freq target_entropy (self, L) in
  exists critic_loss rest,
    snd (fst run)
    = L ++ {| log_key := "train/dist_batch_reward";
              log_value := tsum reward;
              log_step := step; log_n := size0 reward |}
        :: {| log_key := "train/dist_critic_loss";
              log_value := critic_loss * IZR (size0 Q1);
              log_step := step; log_n := size0 Q1 |}
        :: rest
    /\ (policy_freq = 0%Z \/ (step mod policy_freq)%Z <> 0%Z -> rest = [])
    /\ (policy_freq <> 0%Z -> (step mod policy_freq)%Z = 0%Z ->
        exists actor_loss,
          rest = [{| log_key := "train/dist_actor_loss";
                     log_value := actor_loss * IZR (size0 state);
                     log_step := step; log_n := size0 state |}]).
Proof.
  intros b state same goals reward Q1 run.
  subst run Q1 reward goals same state b. dist_train_cases.
  all: unfold L_log; rewrite <- ?app_assoc; cbn [app].
  all: eexists _, _; (split; [reflexivity|]).
  all: split; [intros; try reflexivity; lia|].
  all: intros; try lia; eauto.
Qed.

(** Goal relabeling in [train] (lines 200-207), row by row: a row whose
    mask noise is strictly above 0.9 gets its own state as goal, every other
    row (noise exactly 0.9 included) keeps the goal the buffer delivered; the
    two masks of the row are [1, 0] resp. [0, 1]. The relabeled goals are the
    ones the rest of [train] works with. *)
Theorem dist_train_relabels_goals
    (replay_buffer : ReplayBuffer) (draws : Draws) (batch_size : Z)
    (i : nat) (s g : list R) :
  let b := sample replay_buffer batch_size in
  let state := g_state b in
  let mask_noise := rand_col (mask_draw draws) (length state) in
  let same_goal_mask := same_goal_mask_of mask_noise in
  let traj_goal_mask := traj_goal_mask_of same_goal_mask in
  let goals := relabel state (g_goals b) same_goal_mask traj_goal_mask in
  state !! i = Some s -> g_goals b !! i = Some g -> length s = length g ->
  mask_noise !! i = Some [mask_draw draws i]
  /\ (0.9 < mask_draw draws i ->
      same_goal_mask !! i = Some [1] /\ traj_goal_mask !! i = Some [1 - 1]
      /\ goals !! i = Some s)
  /\ (mask_draw draws i <= 0.9 ->
      same_goal_mask !! i = Some [0] /\ traj_goal_mask !! i = Some [1 - 0]
      /\ goals !! i = Some g)
  /\ (forall step discount tau policy_freq target_entropy st,
        train replay_buffer step draws batch_size discount tau policy_freq
              target_entropy st
        = (log "train/dist_batch_reward"
               (tsum (reward_of (done_of state goals))) step
               (size0 (reward_of (done_of state goals)));;
           fit_critic (critic_noise draws) state goals (g_action b)
                      (reward_of (done_of state goals))
                      (done_of state goals) (g_next_state b) discount step;;
           r ← lift (py_modZ step policy_freq);
           if (r =? 0)%Z then
             fit_actor (actor_noise draws) state goals step target_entropy;;
             update_self (soft_update_target tau)
           else mret tt) st).
Proof.
  intros b state mask_noise same traj goals Hs Hg Hl.
  assert (i < length state)%nat as Hi by (eapply lookup_lt_Some; eassumption).
  destruct (mask_rows (mask_draw draws) (length state) i Hi) as [Hm Ht].
  pose proof (relabel_row state (g_goals b) (mask_draw draws) i s g Hs Hg Hl)
    as Hr.
  cbv zeta in Hm, Ht, Hr. fold mask_noise same in Hm, Ht, Hr.
  fold traj in Ht, Hr. fold goals in Hr.
  split; [apply lookup_rand_col; assumption|].
  unfold gt_float in Hm, Ht.
  split; [|split].
  - intros Hu. destruct (Rlt_dec 0.9 (mask_draw draws i)); [auto|lra].
  - intros Hu. destruct (Rlt_dec 0.9 (mask_draw draws i)); [lra|auto].
  - intros. apply dist_train_after_asserts.
Qed.

(** [done] and [reward] in [train] (lines 209-210), row by row: [done] is 1
    when the distance between the state and the relabeled goal is below
    1e-5 and 0 otherwise, the reward is [-(1 - done)], so 0 on a row at its
    goal and -1 elsewhere; a row relabeled with its own state is always at
    its goal. *)
Theorem dist_train_done_and_reward
    (replay_buffer : ReplayBuffer) (draws : Draws) (batch_size : Z)
    (i : nat) (s g : list R) :
  let b := sample replay_buffer batch_size in
  let state := g_state b in
  let same := same_goal_mask_of (rand_col (mask_draw draws) (length state)) in
  let goals := relabel state (g_goals b) same (traj_goal_mask_of same) in
  let done := done_of state goals in
  let reward := reward_of done in
  state !! i = Some s -> g_goals b !! i = Some g -> length s = length g ->
  let goal := if Rlt_dec 0.9 (mask_draw draws i) then s else g in
  let distance :=
    sqrt (vsum (map (fun x => x ^ 2) (zip_with Rminus s goal))) in
  exists d,
    goals !! i = Some goal
    /\ done !! i = Some [d] /\ reward !! i = Some [- (1 - d)]
    /\ (distance < 1e-5 -> d = 1 /\ - (1 - d) = 0)
    /\ (1e-5 <= distance -> d = 0 /\ - (1 - d) = -1)
    /\ (0.9 < mask_draw draws i -> d = 1 /\ - (1 - d) = 0).
Proof.
  intros b state same goals done reward Hs Hg Hl goal distance.
  pose proof (relabel_row state (g_goals b) (mask_draw draws) i s g Hs Hg Hl)
    as Hr.
  cbv zeta in Hr. fold same goals goal in Hr.
  pose proof (done_row state goals i s goal Hs Hr) as Hd.
  rewrite bcast_same_length in Hd
    by (subst goal; destruct (Rlt_dec _ _); congruence).
  fold done distance in Hd.
  exists (lt_float 1e-5 distance).
  split; [exact Hr|]. split; [exact Hd|].
  split; [subst reward; unfold reward_of; rewrite lookup_tmap, Hd;
          reflexivity|].
  assert (0.9 < mask_draw draws i -> distance = 0) as Hself.
  { intros Hu. subst distance goal.
    destruct (Rlt_dec 0.9 (mask_draw draws i)); [|lra].
    rewrite sq_diff_self. apply sqrt_0. }
  destruct (lt_float_cases 1e-5 distance) as [[Hlt ->]|[Hge ->]].
  all: repeat split; intros; try lra.
  all: specialize (Hself ltac:(assumption)); lra.
Qed.

(** The value reported as ['train/dist_batch_reward']: every entry of [done]
    is 0 or 1, and the summed reward is the number of rows at their goal
    minus the number of rows, which is also the [n] of the report. *)
Theorem dist_batch_reward_counts_rows_off_goal
    (replay_buffer : ReplayBuffer) (draws : Draws) (batch_size : Z) :
  let b := sample replay_buffer batch_size in
  let state := g_state b in
  let same := same_goal_mask_of (rand_col (mask_draw draws) (length state)) in
  let goals := relabel state (g_goals b) same (traj_goal_mask_of same) in
  let done := done_of state goals in
  let reward := reward_of done in
  Forall (fun row => row = [0] \/ row = [1]) done
  /\ Forall (fun row => exists r, row = [r] /\ (r = 0 \/ r = -1)) reward
  /\ tsum reward = tsum done - IZR (size0 reward)
  /\ - IZR (size0 reward) <= tsum reward <= 0.
Proof.
  intros b state same goals done reward.
  destruct (done_of_flat state goals) as (ds & Hds & Hall).
  fold done in Hds. subst reward. rewrite Hds. clear Hds.
  unfold reward_of, tmap, tsum, size0.
  rewrite !map_map. cbn [map]. rewrite !length_map, !concat_singletons.
  rewrite vsum_map_minus_1, <- INR_IZR_INZ, map_id.
  split; [|split; [|split]].
  - apply Forall_fmap. eapply Forall_impl; [exact Hall|].
    intros d [->| ->]; auto.
  - apply Forall_fmap. eapply Forall_impl; [exact Hall|].
    intros d [->| ->]; (eexists; split; [reflexivity|lra]).
  - reflexivity.
  - clear -Hall. induction Hall as [|d ds Hd _ IH].
    + simpl. lra.
    + cbn [vsum fold_right length]. fold (vsum ds). rewrite S_INR.
      destruct Hd; subst; lra.
Qed.

(** [train] reads the state, action, next-state and goal columns of the
    sampled batch and nothing else of it: two buffers that agree on these
    four columns (whatever their reward, done and seventh columns) give the
    same parameters, the same reports and the same outcome. The permutation
    drawn by [torch.randperm] is not used either. *)
Theorem dist_train_ignores_buffer_reward_and_done
    (replay_buffer replay_buffer' : ReplayBuffer) (step : Z)
    (draws draws' : Draws) (batch_size : Z) (discount tau : R)
    (policy_freq : Z) (target_entropy : option R) (st : t * list LogCall) :
  g_state (sample replay_buffer batch_size)
  = g_state (sample replay_buffer' batch_size) ->
  g_action (sample replay_buffer batch_size)
  = g_action (sample replay_buffer' batch_size) ->
  g_next_state (sample replay_buffer batch_size)
  = g_next_state (sample replay_buffer' batch_size) ->
  g_goals (sample replay_buffer batch_size)
  = g_goals (sample replay_buffer' batch_size) ->
  mask_draw draws = mask_draw draws' ->
  critic_noise draws = critic_noise draws' ->
  actor_noise draws = actor_noise draws' ->
  train replay_buffer step draws batch_size discount tau policy_freq
        target_entropy st
  = train replay_buffer' step draws' batch_size discount tau policy_freq
          target_entropy st.
Proof.
  intros Hs Ha Hn Hg Hm Hc Hp. unfold train.
  rewrite Hs, Ha, Hn, Hg, Hm, Hc, Hp. reflexivity.
Qed.

Lemma dist_after_fit_actor_frame (randn : nat -> nat -> R)
    (state goals : list (list R)) (target_entropy : option R)
    (log_pi : list (list R)) (self : t) :
  let self' := after_fit_actor randn state goals target_entropy log_pi self in
  num_candidates self' = num_candidates self /\
  use_l2 self' = use_l2 self /\
  critic self' = critic self /\
  critic_target self' = critic_target self /\
  critic_optimizer self' = critic_optimizer self /\
  actor self'
  = snd (Adam_step (actor_optimizer self) (actor self)
           (backward
              (fun a => value_or 0 (actor_loss_of self randn state goals a))
              (actor self))) /\
  (target_entropy = None ->
   log_alpha self' = log_alpha self /\
   log_alpha_optimizer self' = log_alpha_optimizer self) /\
  (forall e, target_entropy = Some e ->
   log_alpha self'
   = snd (Adam_step (log_alpha_optimizer self) (log_alpha self)
            (backward (alpha_loss_of log_pi e) (log_alpha self)))).
Proof.
  cbv zeta. unfold after_fit_actor, step_actor, step_log_alpha.
  destruct (Adam_step (actor_optimizer self) _ _) as [o a].
  destruct target_entropy as [e|]; cbn.
  - destruct (Adam_step _ _ _) as [o' la] eqn:E. cbn.
    repeat split; try discriminate.
    intros e' [= <-]. rewrite E. reflexivity.
  - repeat split; discriminate.
Qed.

(** Which parameters one [train] call changes. The critic takes exactly one
    optimizer step. On a step with [step % policy_freq != 0] (and when
    [policy_freq = 0]) nothing else changes. On an actor step the actor
    takes one optimizer step on the loss evaluated with the critic as
    already updated by this call, the temperature takes one step when
    [target_entropy] is given and none otherwise, and the target critic is
    soft-updated last. [num_candidates] and [use_l2] never change. *)
Theorem dist_train_delayed_actor_update
    (replay_buffer : ReplayBuffer) (step : Z) (draws : Draws)
    (batch_size : Z) (discount tau : R) (policy_freq : Z)
    (target_entropy : option R) (self : t) (L : list LogCall) :
  let b := sample replay_buffer batch_size in
  let state := g_state b in
  let same := same_goal_mask_of (rand_col (mask_draw draws) (length state)) in
  let goals := relabel state (g_goals b) same (traj_goal_mask_of same) in
  let done := done_of state goals in
  let final :=
    fst (fst (train replay_buffer step draws batch_size discount tau
                    policy_freq target_entropy (self, L))) in
  exists target_Q,
    target_Q_of self (critic_noise draws) (reward_of done) done
                (g_next_state b) goals discount = Ok target_Q
    /\ let self1 :=
         step_critic
           (backward (critic_loss_of state goals (g_action b) target_Q)
                     (critic self))
           self in
       critic final = critic self1
       /\ critic_optimizer final = critic_optimizer self1
       /\ num_candidates final = num_candidates self
       /\ use_l2 final = use_l2 self
       /\ (policy_freq = 0%Z \/ (step mod policy_freq)%Z <> 0%Z ->
           final = self1
           /\ actor final = actor self
           /\ actor_optimizer final = actor_optimizer self
           /\ critic_target final = critic_target self
           /\ log_alpha final = log_alpha self
           /\ log_alpha_optimizer final = log_alpha_optimizer self)
       /\ (policy_freq <> 0%Z -> (step mod policy_freq)%Z = 0%Z ->
           actor final
           = snd (Adam_step (actor_optimizer self) (actor self)
                    (backward
                       (fun a =>
                          value_or 0
                            (actor_loss_of self1 (actor_noise draws) state
                                           goals a))
                       (actor self)))
           /\ critic_target final
              = Critic.soft_update_params (critic self1) (critic_target self)
                                          tau)
       /\ (target_entropy = None ->
           log_alpha final = log_alpha self
           /\ log_alpha_optimizer final = log_alpha_optimizer self).
Proof.
  intros b state same goals done final.
  destruct (dist_target_Q_of_ok self (critic_noise draws) (reward_of done)
              done (g_next_state b) goals discount) as (pa & lp & _ & Htq).
  match type of Htq with _ = Ok ?tq => set (target_Q := tq) in * end.
  exists target_Q. split; [exact Htq|]. intros self1.
  pose proof (dist_step_critic_frame
                (backward (critic_loss_of state goals (g_action b) target_Q)
                          (critic self)) self) as F1.
  fold self1 in F1.
  destruct F1 as (F1 & F2 & F3 & F4 & F5 & F6 & F7 & _ & _).
  assert (final = self1 /\ (policy_freq = 0%Z \/ (step mod policy_freq)%Z <> 0%Z)
          \/ (policy_freq <> 0%Z /\ (step mod policy_freq)%Z = 0%Z /\
              exists log_pi,
                final = soft_update_target tau
                          (after_fit_actor (actor_noise draws) state goals
                             target_entropy log_pi self1))) as Hcases.
  { subst final. rewrite dist_train_after_asserts. unfold log. run_proc.
    fold b state same goals done.
    rewrite (dist_fit_critic_run _ _ _ _ _ _ _ _ _ _ _ _ Htq).
    fold self1. unfold py_modZ.
    destruct (Z.eqb_spec policy_freq 0); [left; cbn; auto|].
    destruct (Z.eqb_spec (step mod policy_freq) 0); [|left; cbn; auto].
    right. split; [assumption|]. split; [assumption|].
    match goal with
    | |- context [fit_actor ?n ?s ?gl ?st ?te (?sf, ?LL)] =>
        destruct (dist_fit_actor_run n s gl st te sf LL)
          as (pi & lpi & al & _ & _ & Hfa)
    end.
    rewrite Hfa. unfold update_self. run_proc. cbn. eauto. }
  destruct Hcases as [[-> Hoff]|(Hpf & Hmod & lpi & ->)].
  - do 2 (split; [reflexivity|]). do 2 (split; [assumption|]).
    split; [intros _; repeat split; assumption|].
    split; [intros Hpf Hmod; exfalso; tauto|].
    intros _. split; assumption.
  - pose proof (dist_after_fit_actor_frame (actor_noise draws) state goals
                  target_entropy lpi self1) as G. cbv zeta in G.
    destruct G as (G1 & G2 & G3 & G4 & G5 & G6 & G7 & _).
    cbn [soft_update_target critic critic_optimizer num_candidates use_l2
         actor critic_target log_alpha log_alpha_optimizer actor_optimizer].
    do 4 (split; [congruence|]).
    split; [intros Hoff; exfalso; tauto|].
    split.
    + intros _ _. split.
      * rewrite G6, F2, F3. reflexivity.
      * rewrite G3, G4, F4. reflexivity.
    + intros Hn. destruct (G7 Hn) as [E1 E2]. split; congruence.
Qed.

End DistSAC_train_facts.

Section DistSAC_train_examples.
Import DistSAC.
Local Open Scope R_scope.

(** The first example row has mask noise exactly 0.9 and keeps the goal
    [1, 0] delivered by the buffer. *)
Lemma dist_train_relabels_goals_witness :
  g_state (sample (example_goal_buffer [] []) 100) !! 0%nat = Some [0; 0]
  /\ g_goals (sample (example_goal_buffer [] []) 100) !! 0%nat = Some [1; 0]
  /\ length [0; 0] = length [1; 0]
  /\ relabel [[0; 0]; [1; 0]] [[1; 0]; [1; 1]]
       (same_goal_mask_of (rand_col (mask_draw example_dist_draws) 2))
       (traj_goal_mask_of
          (same_goal_mask_of (rand_col (mask_draw example_dist_draws) 2)))
     !! 0%nat = Some [1; 0].
Proof.
  do 3 (split; [reflexivity|]).
  destruct (@dist_train_relabels_goals inert_torch (example_goal_buffer [] [])
              example_dist_draws 100 0 [0; 0] [1; 0] eq_refl eq_refl eq_refl)
    as (_ & _ & Hle & _).
  destruct Hle as (_ & _ & Hg); [simpl; lra|]. exact Hg.
Defined.

(** The second example row has mask noise 0.95: it is relabeled with its
    own state, is done and earns reward 0. *)
Lemma dist_train_done_and_reward_witness :
  g_state (sample (example_goal_buffer [] []) 100) !! 1%nat = Some [1; 0]
  /\ g_goals (sample (example_goal_buffer [] []) 100) !! 1%nat = Some [1; 1]
  /\ length [1; 0] = length [1; 1]
  /\ exists d,
       done_of [[0; 0]; [1; 0]]
         (relabel [[0; 0]; [1; 0]] [[1; 0]; [1; 1]]
            (same_goal_mask_of (rand_col (mask_draw example_dist_draws) 2))
            (traj_goal_mask_of
               (same_goal_mask_of
                  (rand_col (mask_draw example_dist_draws) 2))))
       !! 1%nat = Some [d]
       /\ d = 1 /\ - (1 - d) = 0.
Proof.
  do 3 (split; [reflexivity|]).
  destruct (dist_train_done_and_reward (example_goal_buffer [] [])
              example_dist_draws 100 1 [1; 0] [1; 1] eq_refl eq_refl eq_refl)
    as (d & _ & Hd & _ & _ & _ & Hself).
  exists d. split; [exact Hd|]. apply Hself. simpl. lra.
Defined.

(** Two buffers that differ in their reward and done columns, and two draws
    that differ in the permutation. *)
Lemma dist_train_ignores_buffer_reward_and_done_witness :
  g_reward (sample (example_goal_buffer [1; 2] [0; 1]) 100)
  <> g_reward (sample (example_goal_buffer [5; 5] [1; 1]) 100)
  /\ @train inert_torch (example_goal_buffer [1; 2] [0; 1]) 7
       example_dist_draws 100 0.99 0.005 2 None (example_dist_agent false, [])
     = @train inert_torch (example_goal_buffer [5; 5] [1; 1]) 7
         {| perm_draw := [0%nat; 1%nat];
            mask_draw := mask_draw example_dist_draws;
            critic_noise := critic_noise example_dist_draws;
            actor_noise := actor_noise example_dist_draws |}
         100 0.99 0.005 2 None (example_dist_agent false, []).
Proof.
  split.
  - simpl. intros E. injection E as E _. lra.
  - apply dist_train_ignores_buffer_reward_and_done; reflexivity.
Defined.

End DistSAC_train_examples.
(* ================================================================== *)
(** * DistSAC.py: [get_distance] *)

Section topk_facts.
Local Open Scope R_scope.

Lemma insert_by_value_perm (p : R * nat) (l : list (R * nat)) :
  insert_by_value p l ≡ₚ p :: l.
Proof.
  induction l as [|q l IH]; simpl; [reflexivity|].
  destruct (Rle_dec (fst p) (fst q)); [reflexivity|].
  rewrite IH. apply Permutation_swap.
Qed.

Lemma sort_by_value_perm (l : list (R * nat)) : sort_by_value l ≡ₚ l.
Proof.
  unfold sort_by_value. induction l as [|p l IH]; simpl; [reflexivity|].
  rewrite insert_by_value_perm, IH. reflexivity.
Qed.

Lemma insert_by_value_sorted (p : R * nat) (l : list (R * nat)) :
  StronglySorted value_le l -> StronglySorted value_le (insert_by_value p l).
Proof.
  induction l as [|q l IH]; intros Hs; simpl.
  - repeat constructor.
  - inversion Hs as [|? ? Hs' Hall]; subst.
    destruct (Rle_dec (fst p) (fst q)) as [Hle|Hgt].
    + constructor; [assumption|]. constructor; [exact Hle|].
      eapply Forall_impl; [exact Hall|]. unfold value_le. intros; lra.
    + constructor; [apply IH; assumption|].
      rewrite insert_by_value_perm. constructor; [unfold value_le; lra|].
      assumption.
Qed.

Lemma sort_by_value_sorted (l : list (R * nat)) :
  StronglySorted value_le (sort_by_value l).
Proof.
  unfold sort_by_value. induction l as [|p l IH]; simpl; [constructor|].
  apply insert_by_value_sorted, IH.
Qed.

Lemma StronglySorted_take_drop (l : list (R * nat)) (k : nat) (p q : R * nat) :
  StronglySorted value_le l -> p ∈ take k l -> q ∈ drop k l -> value_le p q.
Proof.
  revert k. induction l as [|x l IH]; intros k Hs Hp Hq.
  - rewrite take_nil in Hp. inversion Hp.
  - inversion Hs as [|? ? Hs' Hall]; subst. destruct k as [|k]; simpl in *.
    + inversion Hp.
    + apply elem_of_cons in Hp as [->|Hp].
      * rewrite Forall_forall in Hall. apply Hall.
        apply list_elem_of_lookup in Hq as [i Hi].
        rewrite lookup_drop in Hi. eapply list_elem_of_lookup_2; eassumption.
      * eapply IH; eassumption.
Qed.

Lemma StronglySorted_take (l : list (R * nat)) (k : nat) :
  StronglySorted value_le l -> StronglySorted value_le (take k l).
Proof.
  revert k. induction l as [|x l IH]; intros k Hs.
  - rewrite take_nil. constructor.
  - destruct k; simpl; [constructor|].
    inversion Hs as [|? ? Hs' Hall]; subst. constructor; [auto|].
    rewrite Forall_forall in *. intros y Hy. apply Hall.
    apply list_elem_of_lookup in Hy as [i Hi].
    apply lookup_take_Some in Hi as [Hi _].
    eapply list_elem_of_lookup_2; eassumption.
Qed.

(** The row with its positions. *)
Lemma imap_pairs_lookup (row : list R) (i : nat) :
  imap (fun i v => (v, i)) row !! i = (fun v => (v, i)) <$> row !! i.
Proof. rewrite list_lookup_imap. reflexivity. Qed.

Lemma elem_of_imap_pairs (row : list R) (v : R) (j : nat) :
  (v, j) ∈ imap (fun i v => (v, i)) row <-> row !! j = Some v.
Proof.
  split.
  - intros Hin. apply list_elem_of_lookup in Hin as [i Hi].
    rewrite imap_pairs_lookup in Hi.
    destruct (row !! i) as [w|] eqn:E; simpl in Hi; [|discriminate].
    injection Hi as -> ->. exact E.
  - intros Hj. apply list_elem_of_lookup. exists j.
    rewrite imap_pairs_lookup, Hj. reflexivity.
Qed.

Lemma imap_pairs_snd (row : list R) :
  map snd (imap (fun i v => (v, i)) row) = seq 0 (length row).
Proof.
  apply list_eq. intros i.
  rewrite list_lookup_fmap, imap_pairs_lookup.
  destruct (row !! i) as [v|] eqn:E; simpl.
  - symmetry. apply lookup_seq. split; [reflexivity|].
    eapply lookup_lt_Some; eassumption.
  - symmetry. apply lookup_ge_None. rewrite length_seq.
    apply lookup_ge_None. exact E.
Qed.

End topk_facts.

Section topk_spec.
Local Open Scope R_scope.

Lemma sorted_pairs_elem (row : list R) (v : R) (j : nat) :
  (v, j) ∈ sort_by_value (imap (fun i v => (v, i)) row) <->
  row !! j = Some v.
Proof. rewrite sort_by_value_perm. apply elem_of_imap_pairs. Qed.

Lemma sorted_pairs_NoDup (row : list R) :
  NoDup (map snd (sort_by_value (imap (fun i v => (v, i)) row))).
Proof.
  assert (map snd (sort_by_value (imap (fun i v => (v, i)) row))
          ≡ₚ seq 0 (length row)) as ->.
  { rewrite <- imap_pairs_snd. apply fmap_Permutation, sort_by_value_perm. }
  apply NoDup_seq.
Qed.

(** What [topk(k, largest=False)] returns on one row: [min k n] of the [n]
    positions, without repetition, with the values found there in ascending
    order, none of them above a value left out. *)
Lemma topk_smallest_spec (k : nat) (row : list R) :
  let vals := fst (topk_smallest k row) in
  let idxs := snd (topk_smallest k row) in
  length idxs = Nat.min k (length row)
  /\ length vals = Nat.min k (length row)
  /\ NoDup idxs
  /\ (forall n j, idxs !! n = Some j ->
        (j < length row)%nat /\ vals !! n = row !! j)
  /\ (forall n m v w, (n <= m)%nat -> vals !! n = Some v ->
        vals !! m = Some w -> v <= w)
  /\ (forall j j' v w, j ∈ idxs -> j' ∉ idxs -> row !! j = Some v ->
        row !! j' = Some w -> v <= w).
Proof.
  unfold topk_smallest. cbn [fst snd].
  set (S := sort_by_value (imap (fun i v => (v, i)) row)).
  assert (length S = length row) as HlenS.
  { subst S. rewrite sort_by_value_perm. apply length_imap. }
  assert (forall v j, (v, j) ∈ take k S -> row !! j = Some v) as Hsel.
  { intros v j Hin. apply sorted_pairs_elem. fold S.
    apply elem_of_take in Hin as (i & Hi & _).
    eapply list_elem_of_lookup_2; eassumption. }
  split; [rewrite length_map, length_take, HlenS; reflexivity|].
  split; [rewrite length_map, length_take, HlenS; reflexivity|].
  split.
  { change (map snd (take k S)) with (snd <$> take k S).
    rewrite fmap_take.
    eapply sublist_NoDup; [apply sorted_pairs_NoDup|apply sublist_take]. }
  split.
  { intros n j Hn.
    change (map snd (take k S)) with (snd <$> take k S) in Hn.
    change (map fst (take k S)) with (fst <$> take k S).
    rewrite list_lookup_fmap in Hn. rewrite list_lookup_fmap.
    destruct (take k S !! n) as [[v j0]|] eqn:E; simpl in Hn; [|discriminate].
    injection Hn as ->.
    assert (row !! j = Some v) as Hv
      by (apply Hsel; eapply list_elem_of_lookup_2; eassumption).
    split; [eapply lookup_lt_Some; eassumption|].
    simpl. congruence. }
  split.
  { intros n m v w Hnm Hv Hw.
    change (map fst (take k S)) with (fst <$> take k S) in Hv, Hw.
    rewrite list_lookup_fmap in Hv, Hw.
    destruct (take k S !! n) as [p|] eqn:Ep; simpl in Hv; [|discriminate].
    destruct (take k S !! m) as [q|] eqn:Eq; simpl in Hw; [|discriminate].
    injection Hv as <-. injection Hw as <-.
    destruct (decide (n = m)) as [->|Hne].
    { assert (p = q) as -> by congruence. lra. }
    pose proof (StronglySorted_take S k (sort_by_value_sorted _)) as Hs.
    clear -Hs Ep Eq Hnm Hne. revert n m Ep Eq Hnm Hne.
    induction Hs as [|x l Hs IH Hall]; intros n m Ep Eq Hnm Hne.
    - discriminate.
    - destruct n as [|n], m as [|m]; simpl in *; try lia.
      + injection Ep as <-. rewrite Forall_forall in Hall.
        apply (Hall q). eapply list_elem_of_lookup_2; eassumption.
      + eapply IH; eauto; lia. }
  intros j j' v w Hj Hj' Hv Hw.
  change (map snd (take k S)) with (snd <$> take k S) in Hj, Hj'.
  apply list_elem_of_fmap in Hj as ([v0 j0] & -> & Hin). simpl in Hv.
  assert (v0 = v) as -> by (apply Hsel in Hin; congruence).
  assert ((w, j') ∈ S) as HinS by (apply sorted_pairs_elem; exact Hw).
  rewrite <- (take_drop k S) in HinS. apply elem_of_app in HinS as [Ht|Hd].
  - exfalso. apply Hj'. apply list_elem_of_fmap. exists (w, j'). auto.
  - apply (StronglySorted_take_drop S k (v, j0) (w, j'));
      [apply sort_by_value_sorted | assumption | assumption].
Qed.

End topk_spec.

Section get_distance_facts.
Import DistSAC.
Context `{Torch}.
Local Open Scope R_scope.

Lemma dist_forward_deterministic (a : Actor.t) (randn : nat -> nat -> R)
    (x x_g : list (list R)) :
  Actor.forward a randn x x_g false false
  = Ok (tmap tanh (fst (Actor.heads a x x_g)), None, None).
Proof.
  unfold Actor.forward. destruct (Actor.heads a x x_g) as [mu ls].
  reflexivity.
Qed.

Lemma distances_ok (self : t) (state : list (list R))
    (repeated_ctx : list (list (list R))) :
  exists D, distances self state repeated_ctx = Ok D.
Proof.
  unfold distances. destruct (use_l2 self); [eauto|].
  rewrite dist_forward_deterministic. cbn [mbind Exn_bind].
  destruct (Critic.forward _ _ _ _). eauto.
Qed.

Lemma topk_values_nth (k : nat) (row : list R) :
  fst (topk_smallest k row)
  = map (fun j => nth j row 0) (snd (topk_smallest k row)).
Proof.
  destruct (topk_smallest_spec k row) as (Hli & Hlv & _ & Hsel & _).
  cbv zeta in *. apply list_eq. intros n.
  change (map (fun j => nth j row 0) (snd (topk_smallest k row)))
    with ((fun j => nth j row 0) <$> snd (topk_smallest k row)).
  rewrite list_lookup_fmap.
  destruct (snd (topk_smallest k row) !! n) as [j|] eqn:E;
    cbn [fmap option_fmap option_map].
  - destruct (Hsel n j E) as [Hj Hn]. rewrite Hn.
    apply lookup_lt_is_Some_2 in Hj as [v Hv].
    rewrite Hv. f_equal. symmetry. apply nth_lookup_Some. exact Hv.
  - apply lookup_ge_None. apply lookup_ge_None in E. lia.
Qed.

End get_distance_facts.

Section get_distance_thms.
Import DistSAC.
Context `{Torch}.
Local Open Scope R_scope.

Lemma get_distance_unfold (self : t) (state : list (list R))
    (repeated_ctx : list (list (list R))) (D : list (list R)) :
  distances self state repeated_ctx = Ok D ->
  let k := Nat.min (num_candidates self) (num_goals_of repeated_ctx) in
  get_distance self state repeated_ctx
  = Ok (map (fun row => [vsum (fst (topk_smallest k row))
                         / INR (length (fst (topk_smallest k row)))]) D,
        map (fun row => snd (topk_smallest k row)) D).
Proof.
  intros HD. unfold get_distance. rewrite HD. cbn [mbind Exn_bind].
  unfold mean_keepdim. rewrite !map_map. reflexivity.
Qed.

(** [get_distance] (lines 175-179): it returns for every input; of the
    per-candidate distances of row [i] it selects [k = min(num_candidates,
    num_goals)] positions (all of them when the row is shorter), no position
    twice, none whose distance exceeds that of a position left out, and
    reports the mean of the selected distances. *)
Theorem get_distance_selects_nearest (self : t) (state : list (list R))
    (repeated_ctx : list (list (list R))) :
  let k := Nat.min (num_candidates self) (num_goals_of repeated_ctx) in
  exists D dist idxs,
    distances self state repeated_ctx = Ok D
    /\ get_distance self state repeated_ctx = Ok (dist, idxs)
    /\ length dist = length D /\ length idxs = length D
    /\ forall i row, D !! i = Some row ->
       exists ix,
         idxs !! i = Some ix
         /\ length ix = Nat.min k (length row)
         /\ NoDup ix
         /\ (forall j, j ∈ ix -> (j < length row)%nat)
         /\ dist !! i
            = Some [vsum (map (fun j => nth j row 0) ix) / INR (length ix)]
         /\ (forall j j' v w, j ∈ ix -> j' ∉ ix ->
               row !! j = Some v -> row !! j' = Some w -> v <= w).
Proof.
  intros k. destruct (distances_ok self state repeated_ctx) as [D HD].
  eexists D, _, _. split; [exact HD|].
  split; [apply get_distance_unfold; exact HD|]. fold k.
  split; [apply length_map|]. split; [apply length_map|].
  intros i row Hrow.
  destruct (topk_smallest_spec k row) as (Hli & Hlv & Hnd & Hsel & _ & Hmin).
  cbv zeta in *.
  exists (snd (topk_smallest k row)).
  split; [rewrite list_lookup_fmap, Hrow; reflexivity|].
  split; [exact Hli|]. split; [exact Hnd|].
  split.
  { intros j Hj. apply list_elem_of_lookup in Hj as [n Hn].
    apply (Hsel n j Hn). }
  split; [|exact Hmin].
  rewrite list_lookup_fmap, Hrow. cbn [fmap option_fmap option_map].
  rewrite Hlv, Hli, topk_values_nth. reflexivity.
Qed.

Lemma distances_numpy_shape (self : t) (state : list R)
    (ctx : list (list R)) :
  exists row, distances self [state] [ctx] = Ok [row]
              /\ (length row <= length ctx)%nat.
Proof.
  unfold distances. cbn [num_goals_of length map].
  destruct (use_l2 self).
  - eexists. split; [reflexivity|].
    rewrite length_map, length_zip_with, length_replicate. lia.
  - rewrite dist_forward_deterministic. cbn [mbind Exn_bind].
    destruct (Critic.forward _ _ _ _) as [q1 q2].
    eexists. split; [reflexivity|].
    rewrite length_take. lia.
Qed.

(** With [num_candidates = 1], the default, [get_distance_numpy] returns the
    distance of a nearest candidate together with its position: no candidate
    is closer. *)
Theorem get_distance_numpy_nearest (self : t) (state : list R)
    (ctx : list (list R)) :
  num_candidates self = 1%nat ->
  exists row,
    distances self [state] [ctx] = Ok [row]
    /\ (row <> [] ->
        exists j d m,
          get_distance_numpy self state ctx = Ok ([[m]], [[j]])
          /\ m = d
          /\ row !! j = Some d
          /\ forall j' d', row !! j' = Some d' -> d <= d').
Proof.
  intros Hnc.
  destruct (distances_numpy_shape self state ctx) as (row & HD & Hlen).
  exists row. split; [exact HD|]. intros Hne.
  assert (0 < length row)%nat as Hpos by (destruct row; simpl; [congruence|lia]).
  unfold get_distance_numpy.
  rewrite (get_distance_unfold self [state] [ctx] [row] HD).
  rewrite Hnc. cbn [num_goals_of map].
  replace (Nat.min 1 (length ctx)) with 1%nat by lia.
  destruct (topk_smallest_spec 1 row) as (Hli & Hlv & _ & Hsel & _ & Hmin).
  cbv zeta in *. rewrite Nat.min_l in Hli, Hlv by lia.
  destruct (snd (topk_smallest 1 row)) as [|j [|? ?]] eqn:Ei;
    [discriminate Hli| |discriminate Hli].
  destruct (fst (topk_smallest 1 row)) as [|d [|? ?]] eqn:Ev;
    [discriminate Hlv| |discriminate Hlv].
  destruct (Hsel 0%nat j eq_refl) as [Hj Hd]. simpl in Hd.
  exists j, d, (vsum [d] / INR (length [d])).
  split; [reflexivity|].
  split; [simpl; field|].
  split; [congruence|].
  intros j' d' Hd'. destruct (decide (j' = j)) as [->|Hne'].
  - assert (d' = d) as -> by congruence. lra.
  - apply (Hmin j j' d d'); try congruence.
    + apply list_elem_of_singleton. reflexivity.
    + intros Hin. apply list_elem_of_singleton in Hin. contradiction.
Qed.

End get_distance_thms.

Section get_distance_modes.
Import DistSAC.
Context `{Torch}.
Local Open Scope R_scope.

(** Euclidean mode (lines 159-161): the distance of state [i] to its
    candidate [j] is the Euclidean norm of the difference of their first two
    coordinates; the other coordinates play no part. It is never negative
    and is zero when the two positions coincide. *)
Theorem get_distance_euclidean (self : t) (state : list (list R))
    (repeated_ctx : list (list (list R))) (i j : nat)
    (s0 s1 g0 g1 : R) (s g : list R) (goals : list (list R)) :
  use_l2 self = true ->
  state !! i = Some (s0 :: s1 :: s) ->
  repeated_ctx !! i = Some goals ->
  goals !! j = Some (g0 :: g1 :: g) ->
  (j < num_goals_of repeated_ctx)%nat ->
  exists D row d,
    distances self state repeated_ctx = Ok D
    /\ D !! i = Some row
    /\ length row = Nat.min (num_goals_of repeated_ctx) (length goals)
    /\ row !! j = Some d
    /\ d = sqrt ((s0 - g0) ^ 2 + (s1 - g1) ^ 2)
    /\ 0 <= d
    /\ (s0 = g0 -> s1 = g1 -> d = 0).
Proof.
  intros Hl2 Hs Hc Hg Hj. unfold distances. rewrite Hl2.
  set (G := num_goals_of repeated_ctx) in *.
  eexists _, _, _. split; [reflexivity|].
  split.
  { rewrite list_lookup_fmap, lookup_zip_with, list_lookup_fmap, Hs, Hc.
    reflexivity. }
  split; [rewrite length_map, length_zip_with, length_replicate; reflexivity|].
  split.
  { rewrite list_lookup_fmap, lookup_zip_with.
    rewrite lookup_replicate_2 by exact Hj. rewrite Hg. reflexivity. }
  cbn [take zip_with map vsum fold_right]. rewrite !take_0.
  cbn [zip_with map fold_right].
  replace ((s0 - g0) ^ 2 + ((s1 - g1) ^ 2 + 0))
    with ((s0 - g0) ^ 2 + (s1 - g1) ^ 2) by ring.
  split; [reflexivity|]. split; [apply sqrt_pos|].
  intros -> ->.
  replace ((g0 - g0) ^ 2 + (g1 - g1) ^ 2) with 0 by ring. apply sqrt_0.
Qed.

End get_distance_modes.

Section rowwise_facts.
Import DistSAC.
Local Open Scope R_scope.

Lemma lookup_Linear_forward (l : Linear) (x : list (list R)) (n : nat) :
  Linear_forward l x !! n
  = (fun row => zip_with (fun w b => dot row w + b) (weight l) (bias l))
      <$> x !! n.
Proof. unfold Linear_forward. apply list_lookup_fmap. Qed.

Lemma lookup_cat1 (a b : list (list R)) (n : nat) :
  cat1 a b !! n = (x ← a !! n; y ← b !! n; Some (x ++ y)).
Proof. unfold cat1. apply lookup_zip_with. Qed.

Lemma dist_critic_forward_row (c : Critic.t) (x g u : list (list R))
    (n : nat) (s gg a : list R) :
  x !! n = Some s -> g !! n = Some gg -> u !! n = Some a ->
  exists r1 r2,
    Critic.forward c [s] [gg] [a] = ([r1], [r2])
    /\ fst (Critic.forward c x g u) !! n = Some r1
    /\ snd (Critic.forward c x g u) !! n = Some r2
    /\ length r1 = Nat.min (length (weight (Critic.l3 c)))
                           (length (bias (Critic.l3 c)))
    /\ length r2 = Nat.min (length (weight (Critic.l6 c)))
                           (length (bias (Critic.l6 c))).
Proof.
  intros Hx Hg Hu. unfold Critic.forward. cbn [fst snd].
  rewrite !lookup_Linear_forward, !lookup_tmap, !lookup_Linear_forward,
    !lookup_tmap, !lookup_Linear_forward, !lookup_cat1, Hx, Hu.
  destruct (Critic.only_pos c).
  - change (map (take 2) g) with (take 2 <$> g).
    rewrite list_lookup_fmap, Hg. cbn.
    eexists _, _. split; [reflexivity|].
    repeat split; apply length_zip_with.
  - rewrite Hg. cbn. eexists _, _. split; [reflexivity|].
    repeat split; apply length_zip_with.
Qed.

Lemma dist_actor_heads_row (a : Actor.t) (x g : list (list R)) (n : nat)
    (s gg : list R) :
  x !! n = Some s -> g !! n = Some gg ->
  exists m, fst (Actor.heads a [s] [gg]) = [m]
            /\ fst (Actor.heads a x g) !! n = Some m.
Proof.
  intros Hx Hg. unfold Actor.heads. cbn [fst].
  rewrite (list_lookup_fmap (fun row => fst (chunk2 row))).
  rewrite !lookup_Linear_forward, !lookup_tmap, !lookup_Linear_forward,
    !lookup_tmap, !lookup_Linear_forward, !lookup_cat1, Hx.
  destruct (Actor.only_pos a).
  - change (map (take 2) g) with (take 2 <$> g).
    rewrite list_lookup_fmap, Hg. eexists. split; reflexivity.
  - rewrite Hg. eexists. split; reflexivity.
Qed.

Lemma concat_uniform_lookup {A : Type} (G : nat) (l : list (list A))
    (i j : nat) (r : list A) :
  Forall (fun r => length r = G) (take i l) ->
  l !! i = Some r -> (j < length r)%nat ->
  concat l !! (i * G + j)%nat = r !! j.
Proof.
  revert l. induction i as [|i IH]; intros [|r0 l] Hall Hi Hj;
    try discriminate.
  - simpl in Hi. injection Hi as ->. simpl.
    apply lookup_app_l. assumption.
  - simpl in Hi. cbn [take] in Hall. inversion Hall as [|? ? Hr0 Hall']; subst.
    cbn [concat]. rewrite lookup_app_r by lia.
    replace (S i * length r0 + j - length r0)%nat
      with (i * length r0 + j)%nat by lia.
    apply IH; assumption.
Qed.

End rowwise_facts.

Section get_distance_critic.
Import DistSAC.
Context `{Torch}.
Local Open Scope R_scope.

Lemma lookup_view2 (rows cols : nat) (flat : list R) (i j : nat) :
  (i < rows)%nat -> (j < cols)%nat ->
  exists row, view2 rows cols flat !! i = Some row
              /\ row !! j = flat !! (i * cols + j)%nat.
Proof.
  intros Hi Hj. unfold view2. eexists. split.
  - rewrite list_lookup_fmap, lookup_seq_lt by assumption. reflexivity.
  - cbn. rewrite lookup_take_lt by assumption. apply lookup_drop.
Qed.

Lemma Linear_forward_rows_length (l : Linear) (x : list (list R)) :
  Forall (fun row => length row
                     = Nat.min (length (weight l)) (length (bias l)))
         (Linear_forward l x).
Proof.
  apply Forall_forall. intros row Hin.
  apply list_elem_of_lookup in Hin as [n Hn].
  eapply Linear_forward_row. eassumption.
Qed.

(** Critic mode (lines 163-172): the networks are evaluated once on the
    [batch_size * num_goals] pairs, but the entry for state [i] and its
    candidate [j] is what they give on that pair alone: minus the smaller of
    the two critic heads at the state, the candidate and the actor's
    deterministic action there, the tanh of the mean head. No noise is
    drawn. *)
Theorem get_distance_critic_mode (self : t) (state : list (list R))
    (repeated_ctx : list (list (list R))) (i j : nat)
    (s g : list R) (goals : list (list R)) :
  use_l2 self = false ->
  Forall (fun gl => length gl = num_goals_of repeated_ctx) repeated_ctx ->
  length (weight (Critic.l3 (critic self))) = 1%nat ->
  length (bias (Critic.l3 (critic self))) = 1%nat ->
  length (weight (Critic.l6 (critic self))) = 1%nat ->
  length (bias (Critic.l6 (critic self))) = 1%nat ->
  state !! i = Some s -> repeated_ctx !! i = Some goals ->
  goals !! j = Some g ->
  exists mu a q1 q2 D row,
    fst (Actor.heads (actor self) [s] [g]) = [mu]
    /\ a = map tanh mu
    /\ (forall randn,
          Actor.forward (actor self) randn [s] [g] false false
          = Ok ([a], None, None))
    /\ Critic.forward (critic self) [s] [g] [a] = ([[q1]], [[q2]])
    /\ distances self state repeated_ctx = Ok D
    /\ D !! i = Some row
    /\ row !! j = Some (- Rmin q1 q2).
Proof.
  intros Hl2 Hrect Hw3 Hb3 Hw6 Hb6 Hs Hc Hg.
  set (G := num_goals_of repeated_ctx) in *.
  assert (j < G)%nat as Hj.
  { rewrite Forall_forall in Hrect.
    rewrite <- (Hrect goals) by (eapply list_elem_of_lookup_2; eassumption).
    eapply lookup_lt_Some; eassumption. }
  assert (i < length repeated_ctx)%nat as Hi
    by (eapply lookup_lt_Some; eassumption).
  set (rs := concat (map (fun s => replicate G s) state)).
  set (rc := concat repeated_ctx).
  set (n := (i * G + j)%nat).
  assert (rs !! n = Some s) as Hrs.
  { subst rs n.
    rewrite (concat_uniform_lookup G _ i j (replicate G s)).
    - apply lookup_replicate_2. assumption.
    - apply Forall_take, Forall_fmap, Forall_forall. intros x _.
      apply length_replicate.
    - change (map (fun s => replicate G s) state)
        with ((fun s => replicate G s) <$> state).
      rewrite list_lookup_fmap, Hs. reflexivity.
    - rewrite length_replicate. assumption. }
  assert (rc !! n = Some g) as Hrc.
  { subst rc n. rewrite (concat_uniform_lookup G _ i j goals);
      [assumption|apply Forall_take; assumption|assumption|].
    eapply lookup_lt_Some; eassumption. }
  destruct (dist_actor_heads_row (actor self) rs rc n s g Hrs Hrc)
    as (mu & Hmu1 & Hmu).
  set (action := tmap tanh (fst (Actor.heads (actor self) rs rc))).
  assert (action !! n = Some (map tanh mu)) as Ha
    by (subst action; rewrite lookup_tmap, Hmu; reflexivity).
  destruct (dist_critic_forward_row (critic self) rs rc action n s g
              (map tanh mu) Hrs Hrc Ha)
    as (r1 & r2 & Hfw & Hq1 & Hq2 & Hl1 & Hl2').
  rewrite Hw3, Hb3 in Hl1. rewrite Hw6, Hb6 in Hl2'.
  destruct r1 as [|q1 [|? ?]]; try discriminate Hl1.
  destruct r2 as [|q2 [|? ?]]; try discriminate Hl2'.
  unfold distances. rewrite Hl2. fold G rs rc.
  rewrite dist_forward_deterministic. cbn [mbind Exn_bind]. fold action.
  destruct (Critic.forward (critic self) rs rc action) as [Q1 Q2] eqn:EQ.
  cbn [fst snd] in Hq1, Hq2.
  set (dist := tmap Ropp (tzip Rmin Q1 Q2)).
  assert (dist !! n = Some [- Rmin q1 q2]) as Hd.
  { subst dist. rewrite lookup_tmap, (lookup_tzip _ _ _ _ _ _ Hq1 Hq2).
    reflexivity. }
  assert (Forall (fun r => length r = 1%nat) dist) as Hsingle.
  { pose proof (Linear_forward_rows_length (Critic.l3 (critic self))) as F1.
    pose proof (Linear_forward_rows_length (Critic.l6 (critic self))) as F2.
    assert (Forall (fun r => length r = 1%nat) Q1) as HQ1.
    { replace Q1 with (fst (Critic.forward (critic self) rs rc action))
        by (rewrite EQ; reflexivity).
      unfold Critic.forward. cbn [fst].
      eapply Forall_impl; [apply F1|]. cbn. intros r ->.
      rewrite Hw3, Hb3. reflexivity. }
    assert (Forall (fun r => length r = 1%nat) Q2) as HQ2.
    { replace Q2 with (snd (Critic.forward (critic self) rs rc action))
        by (rewrite EQ; reflexivity).
      unfold Critic.forward. cbn [snd].
      eapply Forall_impl; [apply F2|]. cbn. intros r ->.
      rewrite Hw6, Hb6. reflexivity. }
    subst dist. unfold tmap, tzip. apply Forall_fmap.
    apply Forall_forall. intros r Hr.
    apply list_elem_of_lookup in Hr as [m Hm].
    rewrite lookup_zip_with in Hm.
    destruct (Q1 !! m) as [a1|] eqn:E1; [|discriminate].
    destruct (Q2 !! m) as [a2|] eqn:E2; [|discriminate].
    cbn in Hm. injection Hm as <-.
    rewrite Forall_forall in HQ1, HQ2.
    pose proof (HQ1 a1 (list_elem_of_lookup_2 _ _ _ E1)) as L1.
    pose proof (HQ2 a2 (list_elem_of_lookup_2 _ _ _ E2)) as L2.
    destruct a1 as [|? [|? ?]]; try discriminate L1.
    destruct a2 as [|? [|? ?]]; try discriminate L2.
    reflexivity. }
  assert (concat dist !! n = Some (- Rmin q1 q2)) as Hflat.
  { replace n with (n * 1 + 0)%nat by lia.
    rewrite (concat_uniform_lookup 1 dist n 0 [- Rmin q1 q2]);
      [reflexivity|apply Forall_take; assumption|assumption|simpl; lia]. }
  destruct (lookup_view2 (length repeated_ctx) G (concat dist) i j Hi Hj)
    as (row & Hrow & Hrj).
  exists mu, (map tanh mu), q1, q2. eexists _, row.
  split; [exact Hmu1|]. split; [reflexivity|].
  split.
  { intros randn. rewrite dist_forward_deterministic, Hmu1. reflexivity. }
  split; [exact Hfw|].
  split; [reflexivity|]. split; [exact Hrow|].
  rewrite Hrj. exact Hflat.
Qed.

End get_distance_critic.

Section exploration_bonus_euclidean.
Import DistSAC.
Context `{Torch}.
Local Open Scope R_scope.

(** [SAC.train] asks [dist_policy.get_distance] for the distance of every
    state to one all-zero candidate (lines 183-186). Answered by a DistSAC
    agent in Euclidean mode with [num_candidates >= 1], the distance of a
    state is the Euclidean norm of its first two coordinates, and the
    selected position is 0. *)
Theorem sac_bonus_distance_euclidean (self : t) (state : list (list R))
    (i : nat) (s0 s1 : R) (s : list R) :
  use_l2 self = true -> (1 <= num_candidates self)%nat ->
  state !! i = Some (s0 :: s1 :: s) ->
  let ctx := map (fun row => [map (fun _ : R => 0) row]) state in
  exists dist idxs d,
    get_distance_method (as_dist_policy self) state ctx = Ok (dist, idxs)
    /\ dist !! i = Some [d]
    /\ d = sqrt (s0 ^ 2 + s1 ^ 2)
    /\ idxs !! i = Some [0%nat].
Proof.
  intros Hl2 Hnc Hs ctx.
  assert (num_goals_of ctx = 1%nat) as HG.
  { subst ctx. destruct state as [|r0 state]; [discriminate|reflexivity]. }
  assert (ctx !! i = Some [0 :: 0 :: map (fun _ => 0) s]) as Hc.
  { subst ctx.
    rewrite (list_lookup_fmap (fun row => [map (fun _ : R => 0) row])), Hs.
    reflexivity. }
  assert (exists D,
            distances self state ctx = Ok D
            /\ D !! i = Some [sqrt ((s0 - 0) ^ 2 + ((s1 - 0) ^ 2 + 0))])
    as (D & HD & Hrow).
  { unfold distances. rewrite Hl2, HG. eexists. split; [reflexivity|].
    rewrite list_lookup_fmap, lookup_zip_with, list_lookup_fmap, Hs, Hc.
    cbn. rewrite !take_0. reflexivity. }
  cbn [as_dist_policy get_distance_method].
  rewrite (get_distance_unfold self state ctx D HD), HG.
  replace (Nat.min (num_candidates self) 1) with 1%nat by lia.
  eexists _, _, _. split; [reflexivity|].
  split; [rewrite list_lookup_fmap, Hrow; reflexivity|].
  split; [|rewrite list_lookup_fmap, Hrow; reflexivity].
  cbn. replace ((s0 - 0) * ((s0 - 0) * 1) + ((s1 - 0) * ((s1 - 0) * 1) + 0))
    with (s0 * (s0 * 1) + s1 * (s1 * 1)) by ring.
  field.
Qed.

End exploration_bonus_euclidean.

Section get_distance_examples.
Import DistSAC.
Local Open Scope R_scope.

(** The example agent has [num_candidates = 1]. *)
Lemma get_distance_numpy_nearest_witness :
  num_candidates (example_dist_agent true) = 1%nat
  /\ exists row,
       distances (example_dist_agent true) [[3; 4; 7]] [[[0; 0; 9]; [3; 4; 0]]]
       = Ok [row]
       /\ (row <> [] ->
           exists j d m,
             get_distance_numpy (example_dist_agent true) [3; 4; 7]
                                [[0; 0; 9]; [3; 4; 0]]
             = Ok ([[m]], [[j]])
             /\ m = d /\ row !! j = Some d
             /\ forall j' d', row !! j' = Some d' -> d <= d').
Proof.
  split; [reflexivity|].
  exact (get_distance_numpy_nearest (example_dist_agent true) [3; 4; 7]
           [[0; 0; 9]; [3; 4; 0]] eq_refl).
Defined.

(** In Euclidean mode the state [(3, 4, 7)] is at distance 5 from the
    candidate [(0, 0, 9)]. *)
Lemma get_distance_euclidean_witness :
  use_l2 (example_dist_agent true) = true
  /\ [[3; 4; 7]] !! 0%nat = Some [3; 4; 7]
  /\ [[[0; 0; 9]]] !! 0%nat = Some [[0; 0; 9]]
  /\ [[0; 0; 9]] !! 0%nat = Some [0; 0; 9]
  /\ (0 < num_goals_of [[[0; 0; 9]]]%R)%nat
  /\ exists D row d,
       distances (example_dist_agent true) [[3; 4; 7]] [[[0; 0; 9]]] = Ok D
       /\ D !! 0%nat = Some row /\ row !! 0%nat = Some d /\ d = 5.
Proof.
  assert (0 < num_goals_of [[[0; 0; 9]]]%R)%nat as Hj by (simpl; lia).
  do 4 (split; [reflexivity|]). split; [exact Hj|].
  destruct (get_distance_euclidean (example_dist_agent true) [[3; 4; 7]]
              [[[0; 0; 9]]] 0 0 3 4 0 0 [7] [9] [[0; 0; 9]]
              eq_refl eq_refl eq_refl eq_refl Hj)
    as (D & row & d & HD & Hrow & _ & Hd & Hval & _).
  exists D, row, d. repeat split; try assumption.
  rewrite Hval. replace ((3 - 0) ^ 2 + (4 - 0) ^ 2) with (5 * 5) by lra.
  apply sqrt_square. lra.
Defined.

(** The example agent in critic mode on one state with one candidate. *)
Lemma get_distance_critic_mode_witness :
  use_l2 (example_dist_agent false) = false
  /\ Forall (fun gl => length gl = num_goals_of [[[1; 0]]]) [[[1; 0]]]
  /\ exists mu a q1 q2 D row,
       fst (Actor.heads (actor (example_dist_agent false)) [[0; 0]] [[1; 0]])
       = [mu]
       /\ a = map tanh mu
       /\ (forall randn,
             Actor.forward (actor (example_dist_agent false)) randn
                           [[0; 0]] [[1; 0]] false false
             = Ok ([a], None, None))
       /\ Critic.forward (critic (example_dist_agent false))
                         [[0; 0]] [[1; 0]] [a]
          = ([[q1]], [[q2]])
       /\ distances (example_dist_agent false) [[0; 0]] [[[1; 0]]] = Ok D
       /\ D !! 0%nat = Some row
       /\ row !! 0%nat = Some (- Rmin q1 q2).
Proof.
  assert (Forall (fun gl => length gl = num_goals_of [[[1; 0]]]) [[[1; 0]]])
    as Hrect by (repeat constructor).
  split; [reflexivity|]. split; [exact Hrect|].
  exact (get_distance_critic_mode (example_dist_agent false) [[0; 0]]
           [[[1; 0]]] 0 0 [0; 0] [1; 0] [[1; 0]]
           eq_refl Hrect eq_refl eq_refl eq_refl eq_refl
           eq_refl eq_refl eq_refl).
Defined.

(** The state [(3, 4, 7)] is at distance 5 from the origin. *)
Lemma sac_bonus_distance_euclidean_witness :
  use_l2 (example_dist_agent true) = true
  /\ (1 <= num_candidates (example_dist_agent true))%nat
  /\ [[3; 4; 7]] !! 0%nat = Some [3; 4; 7]
  /\ exists dist idxs d,
       get_distance_method (as_dist_policy (example_dist_agent true))
         [[3; 4; 7]] (map (fun row => [map (fun _ : R => 0) row]) [[3; 4; 7]])
       = Ok (dist, idxs)
       /\ dist !! 0%nat = Some [d] /\ d = 5.
Proof.
  assert (1 <= num_candidates (example_dist_agent true))%nat as Hnc
    by (simpl; lia).
  split; [reflexivity|]. split; [exact Hnc|]. split; [reflexivity|].
  destruct (sac_bonus_distance_euclidean (example_dist_agent true)
              [[3; 4; 7]] 0 3 4 [7] eq_refl Hnc eq_refl)
    as (dist & idxs & d & Hgd & Hd & Hval & _).
  exists dist, idxs, d. split; [exact Hgd|]. split; [exact Hd|].
  rewrite Hval. replace (3 ^ 2 + 4 ^ 2) with (5 * 5) by lra.
  apply sqrt_square. lra.
Defined.

End get_distance_examples.
(* ================================================================== *)
(** * SAC.py: the training step, path by path *)

Section SAC_train_paths.
Import SAC.
Context `{Torch}.
Local Open Scope R_scope.

(** Every path through [train]: [get_distance] raises; or the reward is
    settled, the critic is fitted, and the call ends in the division by a
    zero [policy_freq], after the critic step alone, or after the actor step
    and the soft update. *)
Lemma train_paths (replay_buffer : ReplayBuffer) (step : Z)
    (dist_policy : DistPolicy) (draws : Draws)
    (batch_size : Z) (discount tau : R) (policy_freq : Z)
    (target_entropy : option R) (expl_coef dist_threshold : R)
    (self : t) (L : list LogCall) :
  let b := sample replay_buffer batch_size in
  let state := b_state b in
  let action := b_action b in
  let reward := view_col (b_reward b) in
  let not_done := view_col (map (fun d => 1 - d) (b_done b)) in
  let ctx := map (fun row => [map (fun _ => 0) row]) state in
  let run := train replay_buffer step dist_policy draws batch_size discount
                   tau policy_freq target_entropy expl_coef dist_threshold
                   (self, L) in
  (0 < expl_coef
   /\ exists e, get_distance_method dist_policy state ctx = Raise e
                /\ run = ((self, L), Raise e))
  \/ exists L1 reward',
       ((~ 0 < expl_coef /\ L1 = L /\ reward' = reward)
        \/ (0 < expl_coef
            /\ exists dist idxs,
                 get_distance_method dist_policy state ctx = Ok (dist, idxs)
                 /\ L1 = L_log L "train/expl_bonus"
                           (tsum (tmap (fun d => d * expl_coef) dist)) step
                           (size0 (tmap (fun d => d * expl_coef) dist))
                 /\ reward'
                    = tzip Rplus reward
                           (tmap (fun d => d * expl_coef) dist)))
       /\ exists target_Q,
            target_Q_of self (critic_noise draws) reward' not_done
                        (b_next_state b) discount = Ok target_Q
            /\ let self1 :=
                 step_critic
                   (backward (critic_loss_of state action target_Q)
                             (critic self))
                   self in
               let Q1 := fst (Critic.forward (critic self) state action) in
               let L3 :=
                 L_log (L_log L1 "train/batch_reward" (tsum reward')
                              (size0 reward') step)
                       "train/critic_loss"
                       (critic_loss_of state action target_Q (critic self)
                        * IZR (size0 Q1))
                       step (size0 Q1) in
               (policy_freq = 0%Z
                /\ run = ((self1, L3), Raise ZeroDivisionError))
               \/ (policy_freq <> 0%Z /\ (step mod policy_freq)%Z <> 0%Z
                   /\ run = ((self1, L3), Ok tt))
               \/ (policy_freq <> 0%Z /\ (step mod policy_freq)%Z = 0%Z
                   /\ exists pi log_pi actor_loss,
                        sample_policy (actor self1) (actor_noise draws) state
                        = Ok (pi, log_pi)
                        /\ actor_loss_of self1 (actor_noise draws) state
                                         (actor self1) = Ok actor_loss
                        /\ run
                           = ((soft_update_target tau
                                 (after_fit_actor (actor_noise draws) state
                                    target_entropy log_pi self1),
                               L_log L3 "train/actor_loss"
                                     (actor_loss * IZR (size0 state)) step
                                     (size0 state)),
                              Ok tt)).
Proof.
  intros b state action reward not_done ctx run.
  assert (forall L1 reward',
            exists target_Q,
              target_Q_of self (critic_noise draws) reward' not_done
                          (b_next_state b) discount = Ok target_Q
              /\ let self1 :=
                   step_critic
                     (backward (critic_loss_of state action target_Q)
                               (critic self))
                     self in
                 let Q1 := fst (Critic.forward (critic self) state action) in
                 let L3 :=
                   L_log (L_log L1 "train/batch_reward" (tsum reward')
                                (size0 reward') step)
                         "train/critic_loss"
                         (critic_loss_of state action target_Q (critic self)
                          * IZR (size0 Q1))
                         step (size0 Q1) in
                 let rest :=
                   (log "train/batch_reward" (tsum reward') (size0 reward')
                        step;;
                    fit_critic (critic_noise draws) state action reward'
                               not_done (b_next_state b) discount step;;
                    r ← lift (py_modZ step policy_freq);
                    if (r =? 0)%Z then
                      fit_actor (actor_noise draws) state step
                                target_entropy;;
                      update_self (soft_update_target tau)
                    else mret tt) (self, L1) in
                 (policy_freq = 0%Z
                  /\ rest = ((self1, L3), Raise ZeroDivisionError))
                 \/ (policy_freq <> 0%Z /\ (step mod policy_freq)%Z <> 0%Z
                     /\ rest = ((self1, L3), Ok tt))
                 \/ (policy_freq <> 0%Z /\ (step mod policy_freq)%Z = 0%Z
                     /\ exists pi log_pi actor_loss,
                          sample_policy (actor self1) (actor_noise draws)
                                        state = Ok (pi, log_pi)
                          /\ actor_loss_of self1 (actor_noise draws) state
                                           (actor self1) = Ok actor_loss
                          /\ rest
                             = ((soft_update_target tau
                                   (after_fit_actor (actor_noise draws) state
                                      target_entropy log_pi self1),
                                 L_log L3 "train/actor_loss"
                                       (actor_loss * IZR (size0 state)) step
                                       (size0 state)),
                                Ok tt))) as Hrest.
  { intros L1 reward'.
    destruct (target_Q_of_ok self (critic_noise draws) reward' not_done
                (b_next_state b) discount) as (pa & lp & _ & Htq).
    match type of Htq with _ = Ok ?tq => set (target_Q := tq) in * end.
    exists target_Q. split; [exact Htq|]. intros self1 Q1 L3 rest.
    subst rest. unfold log. run_proc.
    rewrite (fit_critic_run _ _ _ _ _ _ _ _ _ _ _ Htq).
    fold self1 Q1. unfold py_modZ.
    destruct (Z.eqb_spec policy_freq 0); [left; auto|].
    destruct (Z.eqb_spec (step mod policy_freq) 0); [|right; left; auto].
    right; right. split; [assumption|]. split; [assumption|].
    match goal with
    | |- context [fit_actor ?n ?s ?st ?te (?sf, ?LL)] =>
        destruct (fit_actor_run n s st te sf LL)
          as (pi & lpi & al & Hsp & Hal & Hfa)
    end.
    exists pi, lpi, al. split; [exact Hsp|]. split; [exact Hal|].
    rewrite Hfa. unfold update_self. run_proc. reflexivity. }
  subst run. unfold train. fold b state action reward not_done ctx.
  destruct (Rlt_dec 0 expl_coef) as [Hpos|Hneg].
  - unfold log at 1. run_proc.
    destruct (get_distance_method dist_policy state ctx) as [[dist idxs]|e]
      eqn:Egd.
    + right. eexists _, _. split.
      { right. split; [assumption|]. exists dist, idxs.
        split; [reflexivity|]. split; reflexivity. }
      apply Hrest.
    + left. split; [assumption|]. exists e. split; reflexivity.
  - right. exists L, reward. split; [left; auto|]. apply (Hrest L reward).
Qed.

End SAC_train_paths.

Section SAC_train_more.
Import SAC.
Context `{Torch}.
Local Open Scope R_scope.

Lemma after_fit_actor_steps (randn : nat -> nat -> R)
    (state : list (list R)) (target_entropy : option R)
    (log_pi : list (list R)) (self : t) :
  let self' := after_fit_actor randn state target_entropy log_pi self in
  critic self' = critic self /\
  critic_target self' = critic_target self /\
  critic_optimizer self' = critic_optimizer self /\
  actor self'
  = snd (Adam_step (actor_optimizer self) (actor self)
           (backward (fun a => value_or 0 (actor_loss_of self randn state a))
                     (actor self))) /\
  (target_entropy = None ->
   log_alpha self' = log_alpha self /\
   log_alpha_optimizer self' = log_alpha_optimizer self) /\
  (forall e, target_entropy = Some e ->
   log_alpha self'
   = snd (Adam_step (log_alpha_optimizer self) (log_alpha self)
            (backward (alpha_loss_of log_pi e) (log_alpha self)))).
Proof.
  cbv zeta. unfold after_fit_actor, step_actor, step_log_alpha.
  destruct (Adam_step (actor_optimizer self) _ _) as [o a].
  destruct target_entropy as [e|]; cbn.
  - destruct (Adam_step _ _ _) as [o' la] eqn:E. cbn.
    repeat split; try discriminate.
    intros e' [= <-]. rewrite E. reflexivity.
  - repeat split; discriminate.
Qed.

(** How a [train] call ends. An exception raised by
    [dist_policy.get_distance] is passed on before anything is changed or
    reported. Otherwise the call returns exactly when [policy_freq] is not
    zero; with [policy_freq = 0] it raises [ZeroDivisionError], but only
    after the critic step was taken and the batch reward and critic loss
    were reported. Without an exploration bonus ([expl_coef <= 0])
    [dist_policy] is not consulted, and [dist_threshold] never is. *)
Theorem train_outcomes
    (replay_buffer : ReplayBuffer) (step : Z)
    (dist_policy : DistPolicy) (draws : Draws)
    (batch_size : Z) (discount tau : R) (policy_freq : Z)
    (target_entropy : option R) (expl_coef dist_threshold : R)
    (self : t) (L : list LogCall) :
  let state := b_state (sample replay_buffer batch_size) in
  let ctx := map (fun row => [map (fun _ => 0) row]) state in
  let run := train replay_buffer step dist_policy draws batch_size discount
                   tau policy_freq target_entropy expl_coef dist_threshold
                   (self, L) in
  let bonus_raises e :=
    0 < expl_coef /\ get_distance_method dist_policy state ctx = Raise e in
  (forall e, bonus_raises e -> run = ((self, L), Raise e))
  /\ ((forall e, ~ bonus_raises e) ->
      (policy_freq <> 0%Z <-> snd run = Ok tt)
      /\ (policy_freq = 0%Z <-> snd run = Raise ZeroDivisionError)
      /\ (policy_freq = 0%Z ->
          exists g entries,
            fst (fst run) = step_critic g self
            /\ snd (fst run) = L ++ entries
            /\ (map log_key entries
                = ["train/batch_reward"%string; "train/critic_loss"%string]
                \/ map log_key entries
                   = ["train/expl_bonus"%string;
                      "train/batch_reward"%string;
                      "train/critic_loss"%string])))
  /\ (snd run = Ok tt -> policy_freq <> 0%Z)
  /\ (~ 0 < expl_coef ->
      forall dist_policy' dist_threshold',
        train replay_buffer step dist_policy' draws batch_size discount tau
              policy_freq target_entropy expl_coef dist_threshold' (self, L)
        = run)
  /\ (forall dist_threshold',
        train replay_buffer step dist_policy draws batch_size discount tau
              policy_freq target_entropy expl_coef dist_threshold' (self, L)
        = run).
Proof.
  intros state ctx run bonus_raises.
  pose proof (train_paths replay_buffer step dist_policy draws batch_size
                discount tau policy_freq target_entropy expl_coef
                dist_threshold self L) as P.
  cbv zeta in P. fold state ctx run in P.
  split.
  { intros e [Hpos He].
    destruct P as [(_ & e' & He' & ->)|(L1 & r' & Hb & _)].
    - congruence.
    - destruct Hb as [(Hn & _)|(_ & d & ix & Hok & _)]; [tauto|congruence]. }
  split.
  { intros Hno.
    destruct P as [(Hpos & e & He & _)|(L1 & r' & Hb & tq & _ & Hc)].
    { exfalso. apply (Hno e). split; assumption. }
    assert (exists pre, L1 = L ++ pre
                        /\ (map log_key pre = []
                            \/ map log_key pre = ["train/expl_bonus"%string]))
      as (pre & -> & Hpre).
    { destruct Hb as [(_ & -> & _)|(_ & d & ix & _ & -> & _)].
      - exists []. rewrite app_nil_r. auto.
      - eexists [_]. split; [reflexivity|]. right. reflexivity. }
    destruct Hc as [(Hpf & ->)|[(Hpf & Hm & ->)|(Hpf & Hm & pi & lp & al & _ & _ & ->)]];
      cbn [fst snd].
    - split; [(split; intros; first [contradiction|discriminate])|].
      split; [(split; intros; first [reflexivity|assumption])|].
      intros _. eexists _, (pre ++ [_; _]). split; [reflexivity|].
      split; [unfold L_log; rewrite <- !app_assoc; reflexivity|].
      rewrite map_app. cbn [map log_key].
      destruct Hpre as [-> | ->]; [left|right]; reflexivity.
    - split; [(split; intros; first [reflexivity|assumption])|].
      split; [(split; intros; first [contradiction|discriminate])|]. contradiction.
    - split; [(split; intros; first [reflexivity|assumption])|].
      split; [(split; intros; first [contradiction|discriminate])|]. contradiction. }
  split.
  { intros Hok.
    destruct P as [(_ & e & _ & E)|(L1 & r' & _ & tq & _ & Hc)].
    - rewrite E in Hok. discriminate.
    - destruct Hc as [(Hpf & E)|[(Hpf & _)|(Hpf & _)]]; try assumption.
      rewrite E in Hok. discriminate. }
  split.
  { intros Hneg dp' thr'. subst run. unfold train.
    destruct (Rlt_dec 0 expl_coef); [contradiction|reflexivity]. }
  intros thr'. reflexivity.
Qed.

End SAC_train_more.

Section SAC_train_updates.
Import SAC.
Context `{Torch}.
Local Open Scope R_scope.

(** Which parameters one [train] call changes. Unless [get_distance]
    raised, the critic takes exactly one optimizer step. The actor and the
    temperature change only on a step with [step % policy_freq == 0]: there
    the actor takes one optimizer step on the loss evaluated with the
    critic as already updated by this call, and the temperature takes one
    step, on the log-probabilities sampled for the actor loss, when
    [target_entropy] is given and none when it is [None]. *)
Theorem train_delayed_actor_update
    (replay_buffer : ReplayBuffer) (step : Z)
    (dist_policy : DistPolicy) (draws : Draws)
    (batch_size : Z) (discount tau : R) (policy_freq : Z)
    (target_entropy : option R) (expl_coef dist_threshold : R)
    (self : t) (L : list LogCall) :
  let state := b_state (sample replay_buffer batch_size) in
  let ctx := map (fun row => [map (fun _ => 0) row]) state in
  let run := train replay_buffer step dist_policy draws batch_size discount
                   tau policy_freq target_entropy expl_coef dist_threshold
                   (self, L) in
  let final := fst (fst run) in
  (policy_freq = 0%Z \/ (step mod policy_freq)%Z <> 0%Z ->
   actor final = actor self
   /\ actor_optimizer final = actor_optimizer self
   /\ log_alpha final = log_alpha self
   /\ log_alpha_optimizer final = log_alpha_optimizer self
   /\ critic_target final = critic_target self)
  /\ (target_entropy = None ->
      log_alpha final = log_alpha self
      /\ log_alpha_optimizer final = log_alpha_optimizer self)
  /\ ((forall e, ~ (0 < expl_coef
                     /\ get_distance_method dist_policy state ctx = Raise e)) ->
      exists g,
        critic final
        = snd (Adam_step (critic_optimizer self) (critic self) g)
        /\ critic_optimizer final
           = fst (Adam_step (critic_optimizer self) (critic self) g))
  /\ (snd run = Ok tt -> (step mod policy_freq)%Z = 0%Z ->
      exists self1 pi log_pi,
        critic self1 = critic final
        /\ actor self1 = actor self
        /\ log_alpha self1 = log_alpha self
        /\ sample_policy (actor self) (actor_noise draws) state
           = Ok (pi, log_pi)
        /\ actor final
           = snd (Adam_step (actor_optimizer self) (actor self)
                    (backward
                       (fun a =>
                          value_or 0
                            (actor_loss_of self1 (actor_noise draws) state a))
                       (actor self)))
        /\ (forall e, target_entropy = Some e ->
            log_alpha final
            = snd (Adam_step (log_alpha_optimizer self) (log_alpha self)
                     (backward (alpha_loss_of log_pi e) (log_alpha self))))).
Proof.
  intros state ctx run final.
  pose proof (train_paths replay_buffer step dist_policy draws batch_size
                discount tau policy_freq target_entropy expl_coef
                dist_threshold self L) as P.
  cbv zeta in P. fold state ctx run in P.
  destruct P as [(Hpos & e & He & E)|(L1 & r' & _ & tq & _ & Hc)].
  { subst final. rewrite E. cbn [fst snd].
    split; [intros _; repeat split|]. split; [intros _; split; reflexivity|].
    split; [intros Hno; exfalso; apply (Hno e); split; assumption|].
    intros ?; discriminate. }
  match type of Hc with
  | context [step_critic ?g self] =>
      pose proof (step_critic_frame g self) as F;
      set (self1 := step_critic g self) in *
  end.
  destruct F as (F1 & F2 & F3 & F4 & F5 & F6 & F7).
  destruct Hc as [(Hpf & E)|[(Hpf & Hm & E)|(Hpf & Hm & pi & lp & al & Hsp & _ & E)]];
    subst final; rewrite E; cbn [fst snd].
  - split; [intros _; repeat split; assumption|].
    split; [intros _; split; assumption|].
    split; [intros _; eexists; split; eassumption|].
    intros ?; discriminate.
  - split; [intros _; repeat split; assumption|].
    split; [intros _; split; assumption|].
    split; [intros _; eexists; split; eassumption|].
    intros _ Hz. contradiction.
  - pose proof (after_fit_actor_steps (actor_noise draws) state
                  target_entropy lp self1) as G. cbv zeta in G.
    destruct G as (G1 & G2 & G3 & G4 & G5 & G6).
    cbn [soft_update_target critic critic_optimizer actor critic_target
         log_alpha log_alpha_optimizer actor_optimizer].
    split; [intros [?|?]; contradiction|].
    split.
    { intros Hn. destruct (G5 Hn) as [E1 E2]. split; congruence. }
    split.
    { intros _. eexists. rewrite G1, G3. split; eassumption. }
    intros _ _. exists self1, pi, lp.
    split; [symmetry; exact G1|]. split; [exact F1|]. split; [exact F4|].
    split; [rewrite <- F1; exact Hsp|].
    split; [rewrite G4, F1, F2; reflexivity|].
    intros e He. rewrite (G6 e He), F4, F5. reflexivity.
Qed.

(** The exploration bonus (lines 182-189): with [expl_coef > 0] and a
    [get_distance] that returns the column [dist], computed for every state
    against a single all-zero candidate goal, the bonus of a row is [dist *
    expl_coef]; it is reported as ['train/expl_bonus'] with the training step
    and the batch size, and added to the reward before the batch reward is
    reported and the critic is fitted. *)
Theorem train_exploration_bonus
    (replay_buffer : ReplayBuffer) (step : Z)
    (dist_policy : DistPolicy) (draws : Draws)
    (batch_size : Z) (discount tau : R) (policy_freq : Z)
    (target_entropy : option R) (expl_coef dist_threshold : R)
    (self : t) (L : list LogCall) (dist : list (list R))
    (idxs : list (list nat)) :
  let b := sample replay_buffer batch_size in
  let state := b_state b in
  let ctx := map (fun row => [map (fun _ => 0) row]) state in
  let run := train replay_buffer step dist_policy draws batch_size discount
                   tau policy_freq target_entropy expl_coef dist_threshold
                   (self, L) in
  0 < expl_coef ->
  get_distance_method dist_policy state ctx = Ok (dist, idxs) ->
  exists expl_bonus reward target_Q rest,
    (forall i r d, b_reward b !! i = Some r -> dist !! i = Some [d] ->
       expl_bonus !! i = Some [d * expl_coef]
       /\ reward !! i = Some [r + d * expl_coef])
    /\ snd (fst run)
       = L ++ {| log_key := "train/expl_bonus";
                 log_value := tsum expl_bonus;
                 log_step := step; log_n := size0 expl_bonus |}
           :: {| log_key := "train/batch_reward";
                 log_value := tsum reward;
                 log_step := size0 reward; log_n := step |}
           :: rest
    /\ target_Q_of self (critic_noise draws) reward
                   (view_col (map (fun d => 1 - d) (b_done b)))
                   (b_next_state b) discount = Ok target_Q
    /\ critic (fst (fst run))
       = snd (Adam_step (critic_optimizer self) (critic self)
                (backward (critic_loss_of state (b_action b) target_Q)
                          (critic self))).
Proof.
  intros b state ctx run Hpos Hgd.
  pose proof (train_paths replay_buffer step dist_policy draws batch_size
                discount tau policy_freq target_entropy expl_coef
                dist_threshold self L) as P.
  cbv zeta in P. fold b state ctx run in P.
  destruct P as [(_ & e & He & _)|(L1 & r' & Hb & tq & Htq & Hc)];
    [congruence|].
  destruct Hb as [(Hn & _)|(_ & d' & ix' & Hok & -> & ->)]; [contradiction|].
  assert (d' = dist) as -> by congruence.
  match type of Hc with
  | context [step_critic ?g self] =>
      pose proof (step_critic_frame g self) as F;
      set (self1 := step_critic g self) in *
  end.
  destruct F as (_ & _ & _ & _ & _ & F6 & _).
  eexists _, _, tq.
  assert (exists rest,
            snd (fst run)
            = L ++ {| log_key := "train/expl_bonus";
                      log_value := tsum (tmap (fun d => d * expl_coef) dist);
                      log_step := step;
                      log_n := size0 (tmap (fun d => d * expl_coef) dist) |}
                :: {| log_key := "train/batch_reward";
                      log_value :=
                        tsum (tzip Rplus (view_col (b_reward b))
                                (tmap (fun d => d * expl_coef) dist));
                      log_step :=
                        size0 (tzip Rplus (view_col (b_reward b))
                                 (tmap (fun d => d * expl_coef) dist));
                      log_n := step |}
                :: rest
            /\ critic (fst (fst run)) = critic self1) as (rest & Hlog & Hcr).
  { destruct Hc as [(Hpf & E)|[(Hpf & Hm & E)|(Hpf & Hm & pi & lp & al & _ & _ & E)]];
      rewrite E; cbn [fst snd]; unfold L_log; rewrite <- ?app_assoc;
      cbn [app]; eexists; (split; [reflexivity|]); try reflexivity.
    cbn [soft_update_target critic]. apply critic_after_fit_actor. }
  exists rest. split; [|split; [exact Hlog|split; [exact Htq|]]].
  - intros i r d Hr Hd.
    assert (tmap (fun d => d * expl_coef) dist !! i = Some [d * expl_coef])
      as Hbonus by (rewrite lookup_tmap, Hd; reflexivity).
    split; [exact Hbonus|].
    assert (view_col (b_reward b) !! i = Some [r]) as Hv
      by (unfold view_col;
          rewrite (list_lookup_fmap (fun x => [x])), Hr; reflexivity).
    rewrite (lookup_tzip _ _ _ _ _ _ Hv Hbonus). reflexivity.
  - rewrite Hcr. exact F6.
Qed.

End SAC_train_updates.

Section SAC_train_more_examples.
Local Open Scope R_scope.

(** A bonus of 0.5 per unit of distance, with reported distances 3 and 4
    and buffer rewards 1 and 2. *)
Lemma train_exploration_bonus_witness :
  0 < 0.5
  /\ get_distance_method example_bonus_policy
       (SAC.b_state (SAC.sample example_buffer 100))
       (map (fun row => [map (fun _ : R => 0) row])
            (SAC.b_state (SAC.sample example_buffer 100)))
     = Ok ([[3]; [4]], [[0%nat]; [0%nat]])
  /\ exists expl_bonus reward,
       expl_bonus !! 1%nat = Some [4 * 0.5]
       /\ reward !! 1%nat = Some [2 + 4 * 0.5]
       /\ exists rest,
            snd (fst (@SAC.train inert_torch example_buffer 7
                        example_bonus_policy example_draws 100 0.99 0.005 2
                        None 0.5 10 (example_agent, [])))
            = {| log_key := "train/expl_bonus";
                 log_value := tsum expl_bonus;
                 log_step := 7; log_n := size0 expl_bonus |}
              :: {| log_key := "train/batch_reward";
                    log_value := tsum reward;
                    log_step := size0 reward; log_n := 7 |}
              :: rest.
Proof.
  assert (0 < 0.5) as Hpos by lra.
  split; [exact Hpos|]. split; [reflexivity|].
  destruct (@train_exploration_bonus inert_torch example_buffer 7
              example_bonus_policy example_draws 100 0.99 0.005 2 None 0.5 10
              example_agent [] [[3]; [4]] [[0%nat]; [0%nat]] Hpos eq_refl)
    as (bonus & reward & tq & rest & Hrows & Hlog & _).
  exists bonus, reward.
  destruct (Hrows 1%nat 2 4 eq_refl eq_refl) as [Hb Hr].
  split; [exact Hb|]. split; [exact Hr|].
  exists rest. exact Hlog.
Defined.

End SAC_train_more_examples.
(* ================================================================== *)
(** * The policies: bounds and action selection *)

Section policy_more_facts.
Local Open Scope R_scope.

Lemma tanh_bounds (x : R) : -1 < tanh x < 1.
Proof.
  unfold tanh, sinh, cosh.
  pose proof (exp_pos x) as Ha. pose proof (exp_pos (- x)) as Hb.
  set (a := exp x) in *. set (b := exp (- x)) in *.
  assert (0 < 2 * a / (a + b)) as H1 by (apply Rdiv_lt_0_compat; lra).
  assert (0 < 2 * b / (a + b)) as H2 by (apply Rdiv_lt_0_compat; lra).
  split.
  - replace ((a - b) / 2 / ((a + b) / 2)) with (-1 + 2 * a / (a + b))
      by (field; lra).
    lra.
  - replace ((a - b) / 2 / ((a + b) / 2)) with (1 - 2 * b / (a + b))
      by (field; lra).
    lra.
Qed.

Lemma tmap_tanh_bounded (t : list (list R)) :
  Forall (Forall (fun v => -1 <= v <= 1)) (tmap tanh t).
Proof.
  unfold tmap. apply Forall_fmap, Forall_forall. intros row _.
  apply Forall_fmap, Forall_forall. intros v _.
  pose proof (tanh_bounds v) as [Hlo Hhi].
  change (-1 <= tanh v <= 1). lra.
Qed.

(** The rescaling of [log_std] (lines 54-56) is a convex combination of
    the two bounds. *)
Lemma log_std_rescale_bounds (lo hi l : R) :
  Rmin lo hi <= lo + 0.5 * (hi - lo) * (tanh l + 1) <= Rmax lo hi.
Proof.
  pose proof (tanh_bounds l) as [H1 H2].
  set (w := 0.5 * (tanh l + 1)).
  assert (0 <= w <= 1) as [Hw0 Hw1] by (unfold w; lra).
  replace (lo + 0.5 * (hi - lo) * (tanh l + 1)) with (lo + w * (hi - lo))
    by (unfold w; ring).
  unfold Rmin, Rmax. destruct (Rle_dec lo hi); split; nra.
Qed.

(** What the forward pass of the SAC actor returns, by flags. *)
Lemma forward_by_flags (a : SAC.Actor.t) (randn : nat -> nat -> R)
    (x : list (list R)) (compute_pi compute_log_pi : bool) :
  let mu := fst (SAC.Actor.heads a x) in
  let log_std := snd (SAC.Actor.heads a x) in
  let noise := randn_like randn mu in
  let pre := tzip Rplus mu (tzip Rmult noise (tmap exp log_std)) in
  SAC.Actor.forward a randn x compute_pi compute_log_pi
  = match compute_pi, compute_log_pi with
    | false, true => Raise (UnboundLocalError "noise")
    | false, false => Ok (tmap tanh mu, None, None)
    | true, false => Ok (tmap tanh mu, Some (tmap tanh pre), None)
    | true, true =>
        Ok (tmap tanh mu, Some (tmap tanh pre),
            Some (tzip Rminus (SAC.gaussian_likelihood noise log_std)
                    (sum_keepdim
                       (tmap (fun a => ln (relu (1 - a ^ 2) + 1e-6))
                             (tmap tanh pre)))))
    end.
Proof.
  cbv zeta. unfold SAC.Actor.forward.
  destruct (SAC.Actor.heads a x) as [mu ls].
  destruct compute_pi, compute_log_pi; reflexivity.
Qed.

Lemma dist_forward_by_flags (a : DistSAC.Actor.t) (randn : nat -> nat -> R)
    (x x_g : list (list R)) (compute_pi compute_log_pi : bool) :
  let mu := fst (DistSAC.Actor.heads a x x_g) in
  let log_std := snd (DistSAC.Actor.heads a x x_g) in
  let noise := randn_like randn mu in
  let pre := tzip Rplus mu (tzip Rmult noise (tmap exp log_std)) in
  DistSAC.Actor.forward a randn x x_g compute_pi compute_log_pi
  = match compute_pi, compute_log_pi with
    | false, true => Raise (UnboundLocalError "noise")
    | false, false => Ok (tmap tanh mu, None, None)
    | true, false => Ok (tmap tanh mu, Some (tmap tanh pre), None)
    | true, true =>
        Ok (tmap tanh mu, Some (tmap tanh pre),
            Some (tzip Rminus (SAC.gaussian_likelihood noise log_std)
                    (sum_keepdim
                       (tmap (fun a => ln (relu (1 - a ^ 2) + 1e-6))
                             (tmap tanh pre)))))
    end.
Proof.
  cbv zeta. unfold DistSAC.Actor.forward.
  destruct (DistSAC.Actor.heads a x x_g) as [mu ls].
  destruct compute_pi, compute_log_pi; reflexivity.
Qed.

(** Every action the two actors return, the deterministic one and the
    sampled one, has all its coordinates between -1 and 1, the bounds
    included, whatever the parameters, the input and the noise. *)
Theorem policy_actions_bounded :
  (forall (a : SAC.Actor.t) randn x compute_pi compute_log_pi mu pi log_pi,
     SAC.Actor.forward a randn x compute_pi compute_log_pi
     = Ok (mu, pi, log_pi) ->
     Forall (Forall (fun v => -1 <= v <= 1)) mu
     /\ forall p, pi = Some p -> Forall (Forall (fun v => -1 <= v <= 1)) p)
  /\ (forall (a : DistSAC.Actor.t) randn x x_g compute_pi compute_log_pi
             mu pi log_pi,
        DistSAC.Actor.forward a randn x x_g compute_pi compute_log_pi
        = Ok (mu, pi, log_pi) ->
        Forall (Forall (fun v => -1 <= v <= 1)) mu
        /\ forall p, pi = Some p -> Forall (Forall (fun v => -1 <= v <= 1)) p).
Proof.
  split.
  - intros a randn x cpi clp mu pi lp. rewrite forward_by_flags.
    destruct cpi, clp; intros [= <- <- <-] || discriminate.
    all: split; [apply tmap_tanh_bounded|].
    all: intros p [= <-] || discriminate; apply tmap_tanh_bounded.
  - intros a randn x x_g cpi clp mu pi lp. rewrite dist_forward_by_flags.
    destruct cpi, clp; intros [= <- <- <-] || discriminate.
    all: split; [apply tmap_tanh_bounded|].
    all: intros p [= <-] || discriminate; apply tmap_tanh_bounded.
Qed.

(** The log standard deviation of both actors (lines 54-56 of [forward])
    always lies between [log_std_min] and [log_std_max], whichever of the
    two is the smaller, so the standard deviation of the sampling noise lies
    between their exponentials. *)
Theorem log_std_within_bounds :
  (forall (a : SAC.Actor.t) x,
     Forall (Forall (fun l =>
       Rmin (SAC.Actor.log_std_min a) (SAC.Actor.log_std_max a) <= l
       <= Rmax (SAC.Actor.log_std_min a) (SAC.Actor.log_std_max a)
       /\ exp (Rmin (SAC.Actor.log_std_min a) (SAC.Actor.log_std_max a))
          <= exp l
          <= exp (Rmax (SAC.Actor.log_std_min a) (SAC.Actor.log_std_max a))))
       (snd (SAC.Actor.heads a x)))
  /\ (forall (a : DistSAC.Actor.t) x x_g,
        Forall (Forall (fun l =>
          Rmin (DistSAC.Actor.log_std_min a) (DistSAC.Actor.log_std_max a)
          <= l
          <= Rmax (DistSAC.Actor.log_std_min a) (DistSAC.Actor.log_std_max a)
          /\ exp (Rmin (DistSAC.Actor.log_std_min a)
                       (DistSAC.Actor.log_std_max a))
             <= exp l
             <= exp (Rmax (DistSAC.Actor.log_std_min a)
                          (DistSAC.Actor.log_std_max a))))
          (snd (DistSAC.Actor.heads a x x_g))).
Proof.
  assert (forall lo hi l, Rmin lo hi <= l <= Rmax lo hi ->
            Rmin lo hi <= l <= Rmax lo hi
            /\ exp (Rmin lo hi) <= exp l <= exp (Rmax lo hi)) as Hexp.
  { intros lo hi l [H1 H2]. split; [split; assumption|].
    split.
    - destruct H1 as [H1|<-]; [left; apply exp_increasing; exact H1|right; reflexivity].
    - destruct H2 as [H2| ->]; [left; apply exp_increasing; exact H2|right; reflexivity]. }
  split.
  - intros a x. unfold SAC.Actor.heads. cbn [snd]. rewrite tmap_tmap.
    unfold tmap. apply Forall_fmap, Forall_forall. intros row _.
    apply Forall_fmap, Forall_forall. intros l _.
    apply Hexp, log_std_rescale_bounds.
  - intros a x x_g. unfold DistSAC.Actor.heads. cbn [snd]. rewrite tmap_tmap.
    unfold tmap. apply Forall_fmap, Forall_forall. intros row _.
    apply Forall_fmap, Forall_forall. intros l _.
    apply Hexp, log_std_rescale_bounds.
Qed.

End policy_more_facts.

Section select_action_facts.
Import SAC.
Context `{Torch}.
Local Open Scope R_scope.

Lemma heads_single_row (a : Actor.t) (state : list R) :
  exists mu ls, Actor.heads a [state] = ([mu], [ls]).
Proof. unfold Actor.heads. cbn. eauto. Qed.

Lemma zero_noise_sample (mu std : list R) :
  length mu = length std ->
  zip_with Rplus mu (zip_with Rmult (imap (fun _ _ => 0) mu) std) = mu.
Proof.
  revert std. induction mu as [|m mu IH]; intros [|e std] Hl;
    try discriminate; [reflexivity|].
  cbn [imap zip_with]. f_equal; [lra|].
  apply IH. simpl in Hl. lia.
Qed.

(** [select_action] and [sample_action] on an actor whose last layer has
    [2 * A] outputs. Both always return an action of [A] coordinates;
    [ctx] plays no part. [select_action] returns the tanh of the mean head,
    [sample_action] the tanh of [mean + noise * exp(log_std)], and with a
    noise draw of zeros the two coincide. The forward pass used in training
    (both flags set) returns the same two actions for the same noise. *)
Theorem select_action_is_noise_free_sample {C : Type} (self : t) (A : nat)
    (state : list R) (ctx ctx' : C) (randn : nat -> nat -> R) :
  length (weight (Actor.l3 (actor self))) = (2 * A)%nat ->
  length (bias (Actor.l3 (actor self))) = (2 * A)%nat ->
  exists mu log_std,
    Actor.heads (actor self) [state] = ([mu], [log_std])
    /\ length mu = A /\ length log_std = A
    /\ select_action self state ctx = Ok (map tanh mu)
    /\ select_action self state ctx' = select_action self state ctx
    /\ sample_action self randn state ctx
       = Ok (map tanh
               (zip_with Rplus mu
                  (zip_with Rmult (imap (fun j _ => randn 0%nat j) mu)
                            (map exp log_std))))
    /\ sample_action self (fun _ _ => 0) state ctx
       = select_action self state ctx
    /\ exists log_pi,
         Actor.forward (actor self) randn [state] true true
         = Ok ([map tanh mu],
               Some [map tanh
                       (zip_with Rplus mu
                          (zip_with Rmult
                             (imap (fun j _ => randn 0%nat j) mu)
                             (map exp log_std)))],
               Some log_pi).
Proof.
  intros Hw Hb.
  destruct (heads_single_row (actor self) state) as (mu & ls & Hh).
  assert (length mu = A) as Hmu.
  { apply (heads_rows (actor self) [state] A 0 Hw Hb). left.
    rewrite Hh. reflexivity. }
  assert (length ls = A) as Hls.
  { apply (heads_rows (actor self) [state] A 0 Hw Hb). right.
    rewrite Hh. reflexivity. }
  exists mu, ls. split; [exact Hh|]. split; [exact Hmu|]. split; [exact Hls|].
  assert (forall rn,
            tzip Rplus [mu] (tzip Rmult (randn_like rn [mu]) (tmap exp [ls]))
            = [zip_with Rplus mu
                 (zip_with Rmult (imap (fun j _ => rn 0%nat j) mu)
                           (map exp ls))]) as Hpre.
  { intros rn. cbn [tzip zip_with randn_like imap tmap map].
    rewrite (bcast_same_length Rmult)
      by (rewrite length_imap, length_map; lia).
    rewrite (bcast_same_length Rplus)
      by (rewrite length_zip_with, length_imap, length_map; lia).
    reflexivity. }
  assert (forall (c : C), select_action self state c = Ok (map tanh mu))
    as Hsel.
  { intros c. unfold select_action. rewrite forward_by_flags, Hh.
    cbn [fst snd mbind Exn_bind tmap map concat]. rewrite app_nil_r.
    reflexivity. }
  assert (forall rn (c : C),
            sample_action self rn state c
            = Ok (map tanh
                    (zip_with Rplus mu
                       (zip_with Rmult (imap (fun j _ => rn 0%nat j) mu)
                                 (map exp ls))))) as Hsam.
  { intros rn c. unfold sample_action. rewrite forward_by_flags, Hh.
    cbn [fst snd]. rewrite Hpre.
    cbn [mbind Exn_bind tmap map concat]. rewrite app_nil_r. reflexivity. }
  split; [apply Hsel|]. split; [rewrite !Hsel; reflexivity|].
  split; [apply Hsam|].
  split.
  { rewrite Hsam, Hsel, zero_noise_sample; [reflexivity|].
    rewrite length_map. lia. }
  rewrite forward_by_flags, Hh. cbn [fst snd]. rewrite Hpre.
  eexists. reflexivity.
Qed.

End select_action_facts.

Section policy_more_examples.
Local Open Scope R_scope.

(** The example actor has one action coordinate and a last layer with two
    outputs. *)
Lemma select_action_is_noise_free_sample_witness :
  length (weight (SAC.Actor.l3 (SAC.actor example_agent))) = (2 * 1)%nat
  /\ length (bias (SAC.Actor.l3 (SAC.actor example_agent))) = (2 * 1)%nat
  /\ @SAC.sample_action inert_torch unit example_agent (fun _ _ => 0) [0] tt
     = @SAC.select_action inert_torch unit example_agent [0] tt.
Proof.
  do 2 (split; [reflexivity|]).
  destruct (@select_action_is_noise_free_sample inert_torch unit
              example_agent 1 [0] tt tt (fun _ _ => 0) eq_refl eq_refl)
    as (mu & ls & _ & _ & _ & _ & _ & _ & Hzero & _).
  exact Hzero.
Defined.

End policy_more_examples.
(* ================================================================== *)
(** * The regression target of the critic, row by row *)

Section SAC_rows.
Import SAC.
Context `{Torch}.
Local Open Scope R_scope.






End SAC_rows.

Section SAC_critic_target.
Import SAC.
Context `{Torch}.
Local Open Scope R_scope.


End SAC_critic_target.

Section SAC_critic_target_examples.
Local Open Scope R_scope.
Local Existing Instance inert_torch.


End SAC_critic_target_examples.

Section DistSAC_critic_target.
Import DistSAC.
Context `{Torch}.
Local Open Scope R_scope.





End DistSAC_critic_target.

Section DistSAC_critic_target_examples.
Import DistSAC.
Local Open Scope R_scope.
Local Existing Instance inert_torch.


End DistSAC_critic_target_examples.
(* ================================================================== *)
(** * logger.py: meters, tracker and loggers *)

Section meter_more_facts.
Local Open Scope Q_scope.

(** A run of [AverageMeter.update] calls, oldest first. *)
Lemma average_meter_fold (us : list (Q * Z)) (m : AverageMeter.t) :
  let m' := fold_left (fun m u => AverageMeter.update m (fst u) (snd u))
                      us m in
  AverageMeter.sum m' == AverageMeter.sum m + np_sum (fst <$> us)
  /\ AverageMeter.count m'
     = (AverageMeter.count m + fold_right Z.add 0%Z (snd <$> us))%Z.
Proof.
  revert m. induction us as [|[v n] us IH]; intros m; cbn [fold_left fst snd].
  - split; [|cbn; lia]. cbn. rewrite Qplus_0_r. reflexivity.
  - destruct (IH (AverageMeter.update m v n)) as [Hs Hc].
    cbv zeta in *. split.
    + rewrite Hs. cbn. rewrite Qplus_assoc. reflexivity.
    + rewrite Hc. cbn. lia.
Qed.

Lemma sum_unit_counts (us : list (Q * Z)) :
  Forall (fun u => snd u = 1%Z) us ->
  fold_right Z.add 0%Z (snd <$> us) = Z.of_nat (length us).
Proof.
  induction us as [|[v n] us IH]; intros Hall; [reflexivity|].
  inversion Hall as [|? ? Hn Hall']; subst. simpl in Hn. subst n.
  change (snd <$> (v, 1%Z) :: us) with (1%Z :: (snd <$> us)).
  cbn [fold_right length]. rewrite IH by assumption. lia.
Qed.

(** [AverageMeter]: after any run of updates [compute] returns the sum of
    the values over the sum of the counts, the divisor clamped to at least
    1. The values are added as they come, not multiplied by [n]: a value
    stands for the total over its [n] items. With every [n = 1] the result
    is the arithmetic mean. *)
Theorem average_meter_weighted_mean (us : list (Q * Z)) :
  let m := fold_left (fun m u => AverageMeter.update m (fst u) (snd u))
                     us AverageMeter.init in
  let total := fold_right Z.add 0%Z (snd <$> us) in
  exists q,
    AverageMeter.compute m = Ok q
    /\ q == np_sum (fst <$> us) / inject_Z (Z.max 1 total)
    /\ ((1 <= total)%Z -> q == np_sum (fst <$> us) / inject_Z total)
    /\ (Forall (fun u => snd u = 1%Z) us -> us <> [] ->
        q == np_sum (fst <$> us) / inject_Z (Z.of_nat (length us))).
Proof.
  intros m total.
  destruct (average_meter_fold us AverageMeter.init) as [Hs Hc].
  cbv zeta in Hs, Hc. fold m in Hs, Hc. simpl in Hs, Hc. fold total in Hc.
  assert (AverageMeter.compute m
          = Ok (AverageMeter.sum m
                / inject_Z (Z.max 1 (AverageMeter.count m)))) as Hcomp.
  { unfold AverageMeter.compute, py_div.
    destruct (Qeq_bool _ 0) eqn:E; [|reflexivity].
    apply Qeq_bool_eq in E. unfold Qeq in E. simpl in E. lia. }
  eexists. split; [exact Hcomp|].
  assert (AverageMeter.sum m / inject_Z (Z.max 1 (AverageMeter.count m))
          == np_sum (fst <$> us) / inject_Z (Z.max 1 total)) as Hq.
  { rewrite Hs, Hc, Qplus_0_l. reflexivity. }
  split; [exact Hq|]. split.
  - intros Ht. rewrite Hq, Z.max_r by lia. reflexivity.
  - intros Hall Hne. rewrite Hq.
    assert (total = Z.of_nat (length us)) as ->
      by (apply sum_unit_counts; assumption).
    rewrite Z.max_r; [reflexivity|]. destruct us; [congruence|simpl; lia].
Qed.

End meter_more_facts.

Section moving_window_facts.
Import MovingAverageMeter.
Local Open Scope Q_scope.

Lemma np_sum_insert (l : list Q) (i : nat) (x old : Q) :
  l !! i = Some old -> np_sum (<[i := x]> l) == np_sum l - old + x.
Proof.
  revert i. induction l as [|y l IH]; intros [|i] Hi; try discriminate.
  - simpl in Hi. injection Hi as ->. simpl. ring.
  - simpl in Hi. simpl. rewrite (IH i Hi). ring.
Qed.

(** The sum over the window: the last [w] of the updates made. *)
Lemma window_sum_snoc {A : Type} (f : A -> Q) (w : nat) (us : list A)
    (u : A) :
  (0 < w)%nat ->
  np_sum (f <$> drop (length (us ++ [u]) - w) (us ++ [u]))
  == np_sum (f <$> drop (length us - w) us)
     - match us !! (length us - w)%nat with
       | Some old => if (w <=? length us)%nat then f old else 0
       | None => 0
       end
     + f u.
Proof.
  intros Hw. rewrite length_app. cbn [length].
  destruct (Nat.leb_spec w (length us)) as [Hge|Hlt].
  - destruct (lookup_lt_is_Some_2 us (length us - w)%nat) as [old Hold];
      [lia|].
    rewrite Hold.
    replace (length us + 1 - w)%nat with (S (length us - w)) by lia.
    rewrite (drop_S us old (length us - w)) by exact Hold.
    rewrite drop_app_le by lia.
    rewrite fmap_app, np_sum_app. unfold np_sum.
    cbn [fmap list_fmap fold_right]. ring.
  - replace (length us + 1 - w)%nat with 0%nat by lia.
    replace (length us - w)%nat with 0%nat by lia.
    rewrite !drop_0, fmap_app, np_sum_app.
    destruct (us !! 0%nat); unfold np_sum; cbn [fmap list_fmap fold_right];
      ring.
Qed.

Lemma tracks_window_sums (w : nat) (us : list (Q * Z)) :
  (0 < w)%nat ->
  exists m,
    updates (init w) us = Ok m /\ tracks w us m
    /\ np_sum (vals m) == np_sum (fst <$> drop (length us - w) us)
    /\ np_sum (counts m)
       == np_sum ((fun u => inject_Z (snd u)) <$> drop (length us - w) us).
Proof.
  intros Hw. induction us as [|[val n] us IH] using rev_ind.
  - destruct (updates_tracks w [] Hw) as (m & Hm & T).
    exists m. split; [exact Hm|]. split; [exact T|].
    simpl in Hm. injection Hm as <-. cbn.
    rewrite !np_sum_replicate_0. split; reflexivity.
  - destruct IH as (m & Hm & T & Sv & Sc).
    destruct (updates_tracks w (us ++ [(val, n)]) Hw) as (m' & Hm' & T').
    exists m'. split; [exact Hm'|]. split; [exact T'|].
    destruct T as [Tw Tv Tc Tp Tr Tb].
    assert (pointer m < w)%nat as Hp
      by (rewrite Tp; apply Nat.mod_upper_bound; lia).
    rewrite updates_snoc, Hm in Hm'. cbn [mbind Exn_bind] in Hm'.
    rewrite (update_ok w m val n Hw Tw Tv Tc Hp) in Hm'.
    injection Hm' as <-. cbn [vals counts].
    assert (exists old_v old_c,
              vals m !! pointer m = Some old_v
              /\ counts m !! pointer m = Some old_c
              /\ old_v
                 == match us !! (length us - w)%nat with
                    | Some old => if (w <=? length us)%nat then fst old else 0
                    | None => 0
                    end
              /\ old_c
                 == match us !! (length us - w)%nat with
                    | Some old =>
                        if (w <=? length us)%nat then inject_Z (snd old)
                        else 0
                    | None => 0
                    end) as (ov & oc & Hov & Hoc & Ev & Ec).
    { destruct (Nat.leb_spec w (length us)) as [Hge|Hlt].
      - destruct (lookup_lt_is_Some_2 us (length us - w)%nat) as [old Hold];
          [lia|].
        destruct (Tr _ old Hold) as [E1 E2]; [lia|].
        assert ((length us - w) mod w = length us mod w)%nat as Em.
        { replace (length us) with ((length us - w) + 1 * w)%nat at 2 by lia.
          rewrite Nat.Div0.mod_add. reflexivity. }
        rewrite Em, <- Tp in E1, E2. rewrite Hold.
        exists (fst old), (inject_Z (snd old)).
        repeat split; try assumption; reflexivity.
      - destruct (Tb (pointer m)) as [E1 E2];
          [rewrite Tp, Nat.mod_small by lia; lia | lia |].
        exists 0, 0. split; [exact E1|]. split; [exact E2|].
        destruct (us !! (length us - w)%nat); split; reflexivity. }
    rewrite (np_sum_insert _ _ _ _ Hov), (np_sum_insert _ _ _ _ Hoc).
    rewrite (window_sum_snoc fst w us (val, n) Hw).
    rewrite (window_sum_snoc (fun u => inject_Z (snd u)) w us (val, n) Hw).
    rewrite Sv, Sc, Ev, Ec. cbn [fst snd]. split; reflexivity.
Qed.

(** [MovingAverageMeter] as a sliding window: from a fresh meter with
    [w > 0] slots, after any number of updates the buffer sums are the sums
    over the last [w] updates (over all of them while there are fewer), and
    [compute] is the sum of their values over the sum of their counts,
    clamped to at least 1. *)
Theorem moving_average_sliding_window (w : nat) (us : list (Q * Z)) :
  (0 < w)%nat ->
  let recent := drop (length us - w) us in
  exists m,
    updates (init w) us = Ok m
    /\ length recent = Nat.min w (length us)
    /\ np_sum (vals m) == np_sum (fst <$> recent)
    /\ np_sum (counts m) == np_sum ((fun u => inject_Z (snd u)) <$> recent)
    /\ compute m
       == np_sum (fst <$> recent)
          / Qmax 1 (np_sum ((fun u => inject_Z (snd u)) <$> recent)).
Proof.
  intros Hw recent.
  destruct (tracks_window_sums w us Hw) as (m & Hm & _ & Sv & Sc).
  exists m. split; [exact Hm|].
  split; [subst recent; rewrite length_drop; lia|].
  split; [exact Sv|]. split; [exact Sc|].
  unfold compute. rewrite Sv, Sc. reflexivity.
Qed.

End moving_window_facts.

Section dict_facts.
Context {V : Type}.
Implicit Types (d : list (string * V)) (k : string) (v : V).

Lemma dict_get_set_eq d k v : dict_get (dict_set d k v) k = Some v.
Proof.
  induction d as [|[k0 x] d IH]; simpl.
  - rewrite String.eqb_refl. reflexivity.
  - destruct (String.eqb_spec k0 k) as [->|Hne]; simpl.
    + rewrite String.eqb_refl. reflexivity.
    + destruct (String.eqb_spec k0 k); [contradiction|exact IH].
Qed.

Lemma dict_get_set_ne d k k' v :
  k' <> k -> dict_get (dict_set d k v) k' = dict_get d k'.
Proof.
  intros Hne. induction d as [|[k0 x] d IH]; simpl.
  - destruct (String.eqb_spec k k'); [congruence|reflexivity].
  - destruct (String.eqb_spec k0 k) as [->|Hk]; simpl.
    + destruct (String.eqb_spec k k'); [congruence|reflexivity].
    + destruct (String.eqb_spec k0 k'); [reflexivity|exact IH].
Qed.

Lemma dict_set_keys d k v x :
  dict_get d k = Some x -> map fst (dict_set d k v) = map fst d.
Proof.
  induction d as [|[k0 y] d IH]; simpl; [discriminate|].
  destruct (String.eqb_spec k0 k) as [->|Hk]; simpl; [reflexivity|].
  intros Hx. rewrite IH by exact Hx. reflexivity.
Qed.

Lemma dict_get_In d k :
  is_Some (dict_get d k) <-> In k (map fst d).
Proof.
  induction d as [|[k0 y] d IH]; simpl.
  - split; [intros [? ?]; discriminate|tauto].
  - destruct (String.eqb_spec k0 k) as [->|Hk].
    + split; [auto|eauto].
    + rewrite IH. split; [auto|intros [?|?]; [contradiction|assumption]].
Qed.

Lemma dict_set_map {W : Type} (f : V -> W) d k v x :
  dict_get d k = Some x ->
  map (fun item => (fst item, f (snd item))) (dict_set d k v)
  = dict_set (map (fun item => (fst item, f (snd item))) d) k (f v).
Proof.
  induction d as [|[k0 y] d IH]; simpl; [discriminate|].
  destruct (String.eqb_spec k0 k) as [->|Hk]; simpl; [reflexivity|].
  intros Hx. rewrite IH by exact Hx. reflexivity.
Qed.

Lemma dict_set_same d k x :
  dict_get d k = Some x -> dict_set d k x = d.
Proof.
  induction d as [|[k0 y] d IH]; simpl; [discriminate|].
  destruct (String.eqb_spec k0 k) as [->|Hk].
  - intros [= ->]. reflexivity.
  - intros Hx. rewrite IH by exact Hx. reflexivity.
Qed.

Lemma dict_get_map {W : Type} (f : V -> W) d k :
  dict_get (map (fun item => (fst item, f (snd item))) d) k
  = f <$> dict_get d k.
Proof.
  induction d as [|[k0 y] d IH]; simpl; [reflexivity|].
  destruct (String.eqb_spec k0 k); [reflexivity|exact IH].
Qed.

End dict_facts.

Section tracker_facts.
Import StatsTracker.

(** [update], case by case: a name that is not a key raises [KeyError] for
    it; a call the meter rejects raises what the meter raised; otherwise
    the meter under that name is replaced by the updated one, and every
    other meter, the keys and their order stay as they were. *)
Theorem tracker_update_outcome (self : t) (name : string) (args : Args) :
  match update self name args with
  | Throw e =>
      (dict_get (meters self) name = None /\ e = KeyError name)
      \/ (exists m e', dict_get (meters self) name = Some m
                       /\ Meter_update m args = Raise e' /\ e = Raised e')
  | Return self' =>
      exists m m',
        dict_get (meters self) name = Some m
        /\ Meter_update m args = Ok m'
        /\ dict_get (meters self') name = Some m'
        /\ (forall name', name' <> name ->
              dict_get (meters self') name' = dict_get (meters self) name')
        /\ map fst (meters self') = map fst (meters self)
  end.
Proof.
  unfold update. destruct (dict_get (meters self) name) as [m|] eqn:Hm.
  - destruct (Meter_update m args) as [m'|e] eqn:Hu.
    + exists m, m'. cbn [meters].
      split; [reflexivity|]. split; [exact Hu|].
      split; [apply dict_get_set_eq|].
      split; [intros; apply dict_get_set_ne; assumption|].
      eapply dict_set_keys; eassumption.
    + right. eauto.
  - left. auto.
Qed.

Lemma Meter_reset_idem (m : Meter) :
  Meter_reset (Meter_reset m) = Meter_reset m.
Proof.
  destruct m as [m|m|m]; cbn; try reflexivity.
  unfold MovingAverageMeter.reset. cbn. rewrite !length_replicate.
  reflexivity.
Qed.

Lemma Meter_update_reset (m m' : Meter) (args : Args) :
  Meter_update m args = Ok m' -> Meter_reset m' = Meter_reset m.
Proof.
  assert (forall mm val n mm',
            MovingAverageMeter.update mm val n = Ok mm' ->
            MovingAverageMeter.reset mm' = MovingAverageMeter.reset mm) as Hmov.
  { intros mm val n mm'. unfold MovingAverageMeter.update.
    unfold MovingAverageMeter.setitem.
    intros Hu.
    destruct (_ <? length (MovingAverageMeter.vals mm))%nat;
      cbn [mbind Exn_bind] in Hu; [|discriminate Hu].
    destruct (_ <? length (MovingAverageMeter.counts mm))%nat;
      cbn [mbind Exn_bind] in Hu; [|discriminate Hu].
    destruct (MovingAverageMeter.py_mod _ _); cbn [mbind Exn_bind] in Hu;
      [|discriminate Hu].
    injection Hu as <-.
    unfold MovingAverageMeter.reset. cbn. rewrite !length_insert.
    reflexivity. }
  destruct m as [m|m|m], args as [|a|a n|]; cbn; try discriminate.
  all: try (intros [= <-]; reflexivity).
  all: destruct (MovingAverageMeter.update m _ _) as [mm'|] eqn:E;
    cbn; try discriminate; intros [= <-]; cbn; f_equal;
    eapply Hmov; eassumption.
Qed.

(** What [reset()] makes of a tracker. *)
Lemma reset_all_of_attempt (self : t) (c : Call) :
  map (fun item => (fst item, Meter_reset (snd item)))
      (meters (attempt self c))
  = map (fun item => (fst item, Meter_reset (snd item))) (meters self).
Proof.
  unfold attempt. destruct c as [name args|[name|]].
  - unfold update. destruct (dict_get (meters self) name) as [m|] eqn:Hm;
      [|reflexivity].
    destruct (Meter_update m args) as [m'|e] eqn:Hu; [|reflexivity].
    cbn [meters]. rewrite (dict_set_map Meter_reset _ _ _ _ Hm).
    rewrite (Meter_update_reset _ _ _ Hu).
    apply dict_set_same. rewrite dict_get_map, Hm. reflexivity.
  - unfold reset. destruct (dict_get (meters self) name) as [m|] eqn:Hm;
      [|reflexivity].
    cbn [meters]. rewrite (dict_set_map Meter_reset _ _ _ _ Hm).
    rewrite Meter_reset_idem.
    apply dict_set_same. rewrite dict_get_map, Hm. reflexivity.
  - cbn [reset meters]. rewrite map_map. apply map_ext.
    intros [k m]. cbn. rewrite Meter_reset_idem. reflexivity.
Qed.

Lemma attempt_keys (self : t) (c : Call) :
  map fst (meters (attempt self c)) = map fst (meters self).
Proof.
  unfold attempt. destruct c as [name args|[name|]].
  - unfold update. destruct (dict_get (meters self) name) as [m|] eqn:Hm;
      [|reflexivity].
    destruct (Meter_update m args) as [m'|e]; [|reflexivity].
    cbn [meters]. eapply dict_set_keys; eassumption.
  - unfold reset. destruct (dict_get (meters self) name) as [m|] eqn:Hm;
      [|reflexivity].
    cbn [meters]. eapply dict_set_keys; eassumption.
  - cbn [reset meters]. rewrite map_map. reflexivity.
Qed.

(** [reset()] forgets everything: after any sequence of [update] and
    [reset] calls on a fresh tracker, those that raised included, a
    [reset()] without a name returns the tracker to its freshly constructed
    state; and no call ever adds, drops or reorders a key. *)
Theorem tracker_reset_restores_fresh (window_size : nat)
    (calls : list Call) :
  let self := fold_left attempt calls (init window_size) in
  reset self None = Return (init window_size)
  /\ map fst (meters self) = map fst (meters (init window_size)).
Proof.
  cbv zeta.
  assert (forall self0,
            map (fun item => (fst item, Meter_reset (snd item)))
                (meters (fold_left attempt calls self0))
            = map (fun item => (fst item, Meter_reset (snd item)))
                  (meters self0)
            /\ map fst (meters (fold_left attempt calls self0))
               = map fst (meters self0)) as Hinv.
  { induction calls as [|c calls IH]; intros self0; [split; reflexivity|].
    cbn [fold_left]. destruct (IH (attempt self0 c)) as [I1 I2].
    rewrite I1, I2, reset_all_of_attempt, attempt_keys. split; reflexivity. }
  destruct (Hinv (init window_size)) as [I1 I2].
  split; [|exact I2].
  unfold reset. rewrite I1. f_equal.
  unfold init. cbn [meters map fst snd Meter_reset].
  unfold MovingAverageMeter.reset, MovingAverageMeter.init.
  cbn. rewrite !length_replicate. reflexivity.
Qed.

End tracker_facts.

Section empty_window_facts.
Import MovingAverageMeter.
Local Open Scope Q_scope.

(** A meter built with [window_size = 0] has no slot: every update raises
    [IndexError] at the first assignment, so the division by
    [window_size] is never reached; [compute] and [reset] still work, and
    [compute] is 0. *)
Theorem moving_average_empty_window :
  (forall val n, update (init 0) val n = Raise IndexError)
  /\ (forall u us, updates (init 0) (u :: us) = Raise IndexError)
  /\ (forall val n m, update (init 0) val n <> Ok m)
  /\ (forall val n, update (init 0) val n <> Raise ZeroDivisionError)
  /\ reset (init 0) = init 0
  /\ compute (init 0) == 0.
Proof.
  split; [reflexivity|].
  split; [intros [val n] us; reflexivity|].
  split; [intros val n m; discriminate|].
  split; [intros val n; discriminate|].
  split; reflexivity.
Qed.

End empty_window_facts.

Section logger_dump_facts.
Import StatsTracker.
Variable percent_d : Q -> string.
Variable percent_03f : Q -> string.
Variable json_dumps : list (string * option string) -> string.

Local Notation "'Meter_str'" := (Logger.Meter_str percent_d percent_03f).
Local Notation "'collect'" := (Logger.collect percent_d percent_03f).
Local Notation "'dump'" :=
  (Logger.dump percent_d percent_03f json_dumps).

Lemma Meter_str_ok (m : Meter) : exists s, Meter_str m = Ok s.
Proof.
  destruct m as [m|m|m]; cbn; eauto.
  unfold AverageMeter.compute, py_div.
  destruct (Qeq_bool _ 0) eqn:E; [|cbn; eauto].
  apply Qeq_bool_eq in E. unfold Qeq in E. simpl in E. lia.
Qed.

Lemma collect_present (tracker : t) (keys : list string)
    (stats : list (string * option string)) :
  Forall (fun k => is_Some (dict_get (meters tracker) k)) keys ->
  exists stats', collect tracker keys stats = Return stats'.
Proof.
  revert stats. induction keys as [|k keys IH]; intros stats Hall.
  - cbn. eauto.
  - inversion Hall as [|? ? [m Hm] Hall']; subst. cbn. rewrite Hm.
    destruct (Meter_str_ok m) as [s ->]. apply IH. assumption.
Qed.

Lemma collect_missing (tracker : t) (pre post : list string) (key : string)
    (stats : list (string * option string)) :
  Forall (fun k => is_Some (dict_get (meters tracker) k)) pre ->
  dict_get (meters tracker) key = None ->
  collect tracker (pre ++ key :: post) stats = Throw (KeyError key).
Proof.
  revert stats. induction pre as [|k pre IH]; intros stats Hall Hkey.
  - cbn. rewrite Hkey. reflexivity.
  - inversion Hall as [|? ? [m Hm] Hall']; subst. cbn. rewrite Hm.
    destruct (Meter_str_ok m) as [s ->]. apply IH; assumption.
Qed.

(** [dump], case by case. If a key of the logger is not a meter of the
    tracker, [KeyError] is raised for the first such key, whatever the
    format. Otherwise an unknown [format_type] fails the [assert], and
    with ['json'] or ['text'] one and the same line is printed on standard
    output and appended to the log file when there is one. Nothing is
    printed by a call that raises. *)
Theorem dump_outcome (self : Logger.t) (tracker : t) (stdout : list string) :
  (forall pre key post,
     Logger.keys self = pre ++ key :: post ->
     Forall (fun k => is_Some (dict_get (meters tracker) k)) pre ->
     dict_get (meters tracker) key = None ->
     dump self tracker stdout = Throw (KeyError key))
  /\ (Forall (fun k => is_Some (dict_get (meters tracker) k))
             (Logger.keys self) ->
      exists stats,
        collect tracker (Logger.keys self)
                [("type"%string, Logger.log_type self)] = Return stats
        /\ (Logger.format_type self <> "json"%string ->
            Logger.format_type self <> "text"%string ->
            dump self tracker stdout = Throw (Raised AssertionError))
        /\ forall line,
             (Logger.format_type self = "json"%string
              /\ line = json_dumps stats)
             \/ (Logger.format_type self = "text"%string
                 /\ line = Logger._format_text stats) ->
             dump self tracker stdout
             = Return ({| Logger.format_type := Logger.format_type self;
                          Logger.keys := Logger.keys self;
                          Logger.log_type := Logger.log_type self;
                          Logger.log_file :=
                            (fun file => file ++ [line])
                              <$> Logger.log_file self |},
                       stdout ++ [line])).
Proof.
  split.
  - intros pre key post Hk Hpre Hkey. unfold Logger.dump.
    rewrite Hk, (collect_missing _ _ _ _ _ Hpre Hkey). reflexivity.
  - intros Hall.
    destruct (collect_present tracker (Logger.keys self)
                [("type"%string, Logger.log_type self)] Hall) as [stats Hc].
    exists stats. split; [exact Hc|]. unfold Logger.dump. rewrite Hc.
    unfold Logger._format, Logger._format_json.
    split.
    + intros Hj Ht.
      destruct (String.eqb_spec (Logger.format_type self) "json");
        [contradiction|].
      destruct (String.eqb_spec (Logger.format_type self) "text");
        [contradiction|reflexivity].
    + destruct self as [f k lt file]. cbn [Logger.format_type] in *.
      intros line [[-> ->]|[-> ->]]; cbn; destruct file; reflexivity.
Qed.

Lemma default_keys_are_meters (window_size : nat) :
  Forall (fun k => In k (map fst (meters (init window_size))))
         TrainLogger.default_keys
  /\ Forall (fun k => In k (map fst (meters (init window_size))))
            EvalLogger.default_keys.
Proof.
  split; apply Forall_forall; intros k Hk;
    apply list_elem_of_In in Hk; cbn in Hk |- *;
    repeat (destruct Hk as [<-|Hk]; [tauto|]); contradiction.
Qed.

(** A [TrainLogger] or [EvalLogger] with its default keys ([init_keys]
    [None] or the empty list) and format ['json'] or ['text'] never fails to
    [dump] a tracker made by [StatsTracker], whatever calls the tracker has
    seen: every default key names one of its meters. An empty [init_keys]
    list is replaced by the default keys. *)
Theorem default_loggers_dump (window_size : nat) (calls : list Call)
    (json : bool) (file_name : option string) (stdout : list string) :
  let tracker := fold_left attempt calls (init window_size) in
  let format_type := (if json then "json" else "text")%string in
  TrainLogger.init format_type file_name (Some [])
  = TrainLogger.init format_type file_name None
  /\ EvalLogger.init format_type file_name (Some [])
     = EvalLogger.init format_type file_name None
  /\ Logger.keys (TrainLogger.init format_type file_name None)
     = TrainLogger.default_keys
  /\ (exists self' line,
        dump (TrainLogger.init format_type file_name None) tracker stdout
        = Return (self', stdout ++ [line])
        /\ Logger.log_file self'
           = match file_name with Some _ => Some [line] | None => None end)
  /\ (exists self' line,
        dump (EvalLogger.init format_type file_name None) tracker stdout
        = Return (self', stdout ++ [line])
        /\ Logger.log_file self'
           = match file_name with Some _ => Some [line] | None => None end).
Proof.
  intros tracker format_type.
  do 3 (split; [reflexivity|]).
  assert (map fst (meters tracker) = map fst (meters (init window_size)))
    as Hkeys.
  { subst tracker. generalize (init window_size).
    induction calls as [|c calls IH]; intros self0; [reflexivity|].
    cbn [fold_left]. rewrite IH. apply attempt_keys. }
  destruct (default_keys_are_meters window_size) as [HT HE].
  assert (forall keys,
            Forall (fun k => In k (map fst (meters (init window_size)))) keys ->
            Forall (fun k => is_Some (dict_get (meters tracker) k)) keys)
    as Hpresent.
  { intros keys Hall. eapply Forall_impl; [exact Hall|].
    intros k Hk. apply dict_get_In. rewrite Hkeys. exact Hk. }
  assert (forall self : Logger.t,
            Logger.format_type self = format_type ->
            Forall (fun k => is_Some (dict_get (meters tracker) k))
                   (Logger.keys self) ->
            exists self' line,
              dump self tracker stdout = Return (self', stdout ++ [line])
              /\ Logger.log_file self'
                 = (fun file => file ++ [line]) <$> Logger.log_file self)
    as Hdump.
  { intros self Hf Hall.
    destruct (collect_present tracker (Logger.keys self)
                [("type"%string, Logger.log_type self)] Hall) as [stats Hc].
    unfold Logger.dump. rewrite Hc.
    unfold Logger._format, Logger._format_json. rewrite Hf.
    destruct self as [f k lt file]. cbn [Logger.log_file] in *.
    subst format_type. destruct json; cbn; destruct file; cbn; eauto. }
  split.
  - destruct (Hdump (TrainLogger.init format_type file_name None) eq_refl
                (Hpresent _ HT)) as (self' & line & Hd & Hfile).
    exists self', line. split; [exact Hd|]. rewrite Hfile.
    destruct file_name; reflexivity.
  - destruct (Hdump (EvalLogger.init format_type file_name None) eq_refl
                (Hpresent _ HE)) as (self' & line & Hd & Hfile).
    exists self', line. split; [exact Hd|]. rewrite Hfile.
    destruct file_name; reflexivity.
Qed.

End logger_dump_facts.

Section logger_more_examples.
Import MovingAverageMeter.
Local Open Scope Q_scope.

(** A window of 2 after the updates 1, 2 and 6, each with count 1: the
    first update has been overwritten and the average is (2 + 6) / 2. *)
Lemma moving_average_sliding_window_witness :
  (0 < 2)%nat
  /\ exists m,
       updates (init 2) [(1, 1%Z); (2, 1%Z); (6, 1%Z)] = Ok m
       /\ compute m == 4.
Proof.
  split; [lia|].
  destruct (moving_average_sliding_window 2 [(1, 1%Z); (2, 1%Z); (6, 1%Z)])
    as (m & Hm & _ & _ & _ & Hc); [lia|].
  exists m. split; [exact Hm|]. rewrite Hc. vm_compute. reflexivity.
Defined.

End logger_more_examples.
